(** * AutaMedica appointments: scheduling, notification and calendar core

    A shallow embedding of the TypeScript and SQL sources of the
    appointment module, followed by the properties proved about it.

    Conventions.
    - An instant (a JavaScript [Date], a [timestamptz]) is a [Z]: the number
      of milliseconds since 1970-01-01T00:00:00Z.
    - A JavaScript string is a [string]; non-ASCII text is kept as its
      UTF-8 bytes.
    - A promise that rejects and a function that throws are the [Throw]
      case of [Result]; [await] is sequencing in the monad [M].
    - [console.log] and [console.error] output is not modelled. *)

From Stdlib Require Import ZArith List String Ascii Bool Lia Arith.
From Stdlib Require Import Numbers.DecimalString.
Import ListNotations.

Local Open Scope string_scope.
Local Open Scope Z_scope.

(* ================================================================== *)
(** * JavaScript values used by the sources *)
(* ================================================================== *)

Module Js.

(** What a [catch] clause can receive: an [Error] object with its
    message, or any other thrown value (one that is not
    [instanceof Error] and carries no [message] property). *)
Inductive Thrown : Type :=
| ErrorObj (message : string)
| NonError.

Inductive Result (A : Type) : Type :=
| Ok (a : A)
| Throw (e : Thrown).
Arguments Ok {A} a.
Arguments Throw {A} e.

(** [err instanceof Error ? err.message : fallback] *)
Definition message_or (fallback : string) (e : Thrown) : string :=
  match e with
  | ErrorObj m => m
  | NonError => fallback
  end.

(** [`${lastError?.message}`] inside a template literal: the message,
    or the text of [undefined]. *)
Definition optional_message (e : option Thrown) : string :=
  match e with
  | Some (ErrorObj m) => m
  | Some NonError => "undefined"
  | None => "undefined"
  end.

(** [`${n}`] and [String(n)] for an integer. *)
Definition string_of_Z (z : Z) : string :=
  NilEmpty.string_of_int (Z.to_int z).

Definition string_of_nat (n : nat) : string :=
  NilEmpty.string_of_uint (Nat.to_uint n).

Fixpoint repeat_char (c : ascii) (n : nat) : string :=
  match n with
  | O => EmptyString
  | S k => String c (repeat_char c k)
  end.

(** [s.padStart(width, c)] for a one-character filler. *)
Definition padStart (width : nat) (c : ascii) (s : string) : string :=
  repeat_char c (width - String.length s) ++ s.

(** [s.replace(/c/g, by)] for a single-character pattern. *)
Fixpoint replace_all_char (c : ascii) (by_ : string) (s : string) : string :=
  match s with
  | EmptyString => EmptyString
  | String x rest =>
      if Ascii.eqb x c
      then by_ ++ replace_all_char c by_ rest
      else String x (replace_all_char c by_ rest)
  end.

(** Where [pat] first occurs in [s]: the text before it and the text
    after it. *)
Fixpoint split_at_first (pat s : string) : option (string * string) :=
  if String.prefix pat s
  then Some (EmptyString,
             String.substring (String.length pat)
                              (String.length s - String.length pat) s)
  else match s with
       | EmptyString => None
       | String x rest =>
           match split_at_first pat rest with
           | Some (before, after) => Some (String x before, after)
           | None => None
           end
       end.

(** [GetSubstitution] for a string pattern (no capture groups): in the
    replacement text, a dollar sign followed by a dollar sign stands
    for one dollar sign, by an ampersand for the matched text, by a
    backquote for the text before the match, by an apostrophe for the
    text after it; any other dollar sign stays. *)
Fixpoint get_substitution (matched before after replacement : string) : string :=
  match replacement with
  | EmptyString => EmptyString
  | String x tl =>
      if Ascii.eqb x "$"
      then match tl with
           | EmptyString => String x EmptyString
           | String c rest =>
               if Ascii.eqb c "$"
               then String "$" (get_substitution matched before after rest)
               else if Ascii.eqb c "&"
               then matched ++ get_substitution matched before after rest
               else if Ascii.eqb c "`"
               then before ++ get_substitution matched before after rest
               else if Ascii.eqb c "'"
               then after ++ get_substitution matched before after rest
               else String x (get_substitution matched before after tl)
           end
      else String x (get_substitution matched before after tl)
  end.

(** [s.replace(pat, by)] with a string pattern: the first occurrence
    only, the replacement text expanded by [GetSubstitution]. *)
Definition replace_first (pat by_ : string) (s : string) : string :=
  match split_at_first pat s with
  | None => s
  | Some (before, after) =>
      before ++ get_substitution pat before after by_ ++ after
  end.

(** [lines.join(sep)] *)
Fixpoint join (sep : string) (lines : list string) : string :=
  match lines with
  | [] => EmptyString
  | [l] => l
  | l :: rest => l ++ sep ++ join sep rest
  end.

(** [s.includes(pat)] *)
Fixpoint includes (pat s : string) : bool :=
  String.prefix pat s
  || match s with
     | EmptyString => false
     | String _ rest => includes pat rest
     end.

(** JavaScript truthiness of a string. *)
Definition truthy (s : string) : bool := negb (String.eqb s "").

Definition truthy_opt (s : option string) : bool :=
  match s with
  | Some x => truthy x
  | None => false
  end.

Definition CRLF : string := String "013"%char (String "010"%char EmptyString).
Definition LF_char : ascii := "010"%char.
Definition CR_char : ascii := "013"%char.

End Js.

(* ================================================================== *)
(** * Dates: the getters of a JavaScript [Date] *)
(* ================================================================== *)

Module Clock.

Definition MS_PER_SECOND : Z := 1000.
Definition MS_PER_HOUR : Z := 3600000.
Definition MS_PER_DAY : Z := 86400000.

(** The wall-clock reading, in milliseconds, of instant [t] in a zone
    whose offset from UTC is [offset] milliseconds. *)
Definition wall (offset t : Z) : Z := t + offset.

(** Fields of a wall-clock reading. *)
Definition hours_of (w : Z) : Z := (w / MS_PER_HOUR) mod 24.
Definition minutes_of (w : Z) : Z := (w / 60000) mod 60.
Definition seconds_of (w : Z) : Z := (w / MS_PER_SECOND) mod 60.
(** 0 is Sunday; 1970-01-01 was a Thursday. *)
Definition weekday_of (w : Z) : Z := (w / MS_PER_DAY + 4) mod 7.

(** Proleptic Gregorian date of a day count since 1970-01-01. *)
Definition civil_of_days (days : Z) : Z * Z * Z :=
  let z := days + 719468 in
  let era := z / 146097 in
  let doe := z - era * 146097 in
  let yoe := (doe - doe / 1460 + doe / 36524 - doe / 146096) / 365 in
  let doy := doe - (365 * yoe + yoe / 4 - yoe / 100) in
  let mp := (5 * doy + 2) / 153 in
  let d := doy - (153 * mp + 2) / 5 + 1 in
  let m := if mp <? 10 then mp + 3 else mp - 9 in
  let y := yoe + era * 400 + (if m <=? 2 then 1 else 0) in
  (y, m, d).

Section Host.
(** Offset from UTC of the zone the script runs in, in milliseconds. *)
Variable host : Z.

Definition getHours (d : Z) : Z := hours_of (wall host d).
Definition getMinutes (d : Z) : Z := minutes_of (wall host d).
Definition getSeconds (d : Z) : Z := seconds_of (wall host d).
Definition getDay (d : Z) : Z := weekday_of (wall host d).
Definition getFullYear (d : Z) : Z :=
  let '(y, _, _) := civil_of_days (wall host d / MS_PER_DAY) in y.
(** zero-based, as in JavaScript *)
Definition getMonth (d : Z) : Z :=
  let '(_, m, _) := civil_of_days (wall host d / MS_PER_DAY) in m - 1.
Definition getDate (d : Z) : Z :=
  let '(_, _, dd) := civil_of_days (wall host d / MS_PER_DAY) in dd.

End Host.

End Clock.

(* ================================================================== *)
(** * Time zones, as the runtime's zone database gives them *)
(* ================================================================== *)

Module Zones.
Import Clock.

(** A zone: the offset from UTC, in milliseconds, in force before its
    first change, and the instants at which the offset changes, in
    ascending order, each with the offset in force from then on. *)
Record Zone : Type := mkZone {
  initial_offset : Z;
  changes : list (Z * Z)
}.

(** A zone that never changes its offset. *)
Definition fixed (offset : Z) : Zone := mkZone offset [].

Fixpoint offset_from (offset : Z) (changes : list (Z * Z)) (t : Z) : Z :=
  match changes with
  | [] => offset
  | (at_, next) :: rest =>
      if t <? at_ then offset else offset_from next rest t
  end.

(** The offset in force at instant [t]. *)
Definition offset_at (z : Zone) (t : Z) : Z :=
  offset_from (initial_offset z) (changes z) t.

(** [LocalTime(t)]: the wall-clock reading of instant [t] in the zone. *)
Definition local_time (z : Zone) (t : Z) : Z := t + offset_at z t.

(** [UTC(t)] of ECMA-262: the instant a wall-clock reading [w] stands
    for.  A reading that occurs twice (clocks put back) stands for the
    earlier instant; a reading that is skipped (clocks put forward) is
    taken with the offset in force before the change. *)
Fixpoint utc_from (offset : Z) (changes : list (Z * Z)) (w : Z) : Z :=
  match changes with
  | [] => w - offset
  | (at_, next) :: rest =>
      if (w - offset <? at_) || (w - next <? at_)
      then w - offset
      else utc_from next rest w
  end.

Definition utc_of (z : Zone) (w : Z) : Z :=
  utc_from (initial_offset z) (changes z) w.

Section Host.
(** The zone the script runs in. *)
Variable host : Zone.

Definition getHours (d : Z) : Z := hours_of (local_time host d).
Definition getDay (d : Z) : Z := weekday_of (local_time host d).

(** [new Date(d.toLocaleString("en-US", { timeZone }))]: the text
    carries the wall-clock reading of [d] in the zone named, down to
    the second; parsing it back reads it as a wall-clock time of the
    host zone. *)
Definition reparse_in_zone (zone : Zone) (d : Z) : Z :=
  utc_of host (MS_PER_SECOND * (local_time zone d / MS_PER_SECOND)).
End Host.

End Zones.

(* ================================================================== *)
(** * packages/utils/src/index.ts: date utilities *)
(* ================================================================== *)

Module TimePolicy.
Import Zones.

Section Host.
(** The zone the script runs in. *)
Variable host : Zone.
(** [America/Argentina/Buenos_Aires] as the runtime's zone database has
    it (UTC-03:00 today, UTC-02:00 in the summers of 2007 to 2009). *)
Variable argentina : Zone.

Definition toArgentinaTimezone (date : Z) : Z :=
  reparse_in_zone host argentina date.

(** [nowInArgentina()], with the instant read from the clock given. *)
Definition nowInArgentina (now : Z) : Z :=
  reparse_in_zone host argentina now.

Definition isFutureInArgentina (now date : Z) : bool :=
  toArgentinaTimezone date >? nowInArgentina now.

Definition isValidMedicalHour (date : Z) : bool :=
  let d := toArgentinaTimezone date in
  let hour := getHours host d in
  (hour >=? 8) && (hour <? 20).

Definition isWeekday (date : Z) : bool :=
  let d := toArgentinaTimezone date in
  let day := getDay host d in
  (day >=? 1) && (day <=? 5).
End Host.

End TimePolicy.

(* ================================================================== *)
(** * packages/types: appointments *)
(* ================================================================== *)

Module Types.

Inductive AppointmentStatus : Type :=
| scheduled | confirmed | in_progress | completed
| cancelled | no_show | rescheduled.

Definition status_text (s : AppointmentStatus) : string :=
  match s with
  | scheduled => "scheduled"
  | confirmed => "confirmed"
  | in_progress => "in-progress"
  | completed => "completed"
  | cancelled => "cancelled"
  | no_show => "no-show"
  | rescheduled => "rescheduled"
  end.

Definition status_eqb (a b : AppointmentStatus) : bool :=
  match a, b with
  | scheduled, scheduled | confirmed, confirmed
  | in_progress, in_progress | completed, completed
  | cancelled, cancelled | no_show, no_show
  | rescheduled, rescheduled => true
  | _, _ => false
  end.

Record Appointment : Type := mkAppointment {
  id : string;
  patient_id : string;
  doctor_id : string;
  starts_at : Z;
  ends_at : Z;
  status : AppointmentStatus;
  notes : option string;
  created_at : Z;
  updated_at : Z
}.

Record CreateAppointmentInput : Type := mkCreateInput {
  ci_patient_id : string;
  ci_doctor_id : string;
  ci_starts_at : Z;
  ci_ends_at : Z;
  ci_status : option AppointmentStatus;
  ci_notes : option string
}.

Record UpdateAppointmentInput : Type := mkUpdateInput {
  ui_starts_at : option Z;
  ui_ends_at : option Z;
  ui_status : option AppointmentStatus;
  ui_notes : option string
}.

(** [Pick<Appointment, 'id' | 'starts_at' | 'ends_at' | 'doctor_id'>];
    the stored procedure returns no [doctor_id] column. *)
Record Conflict : Type := mkConflict {
  c_id : string;
  c_starts_at : Z;
  c_ends_at : Z;
  c_doctor_id : option string
}.

Record AppointmentOverlapValidation : Type := mkValidation {
  hasOverlap : bool;
  conflictingAppointments : list Conflict;
  message : option string
}.

End Types.

(* ================================================================== *)
(** * packages/utils/src/calendar/ics-generator.ts *)
(* ================================================================== *)

Module ICSGenerator.
Import Types.

Record Party : Type := mkParty { party_name : string; party_email : string }.

Inductive EventStatus : Type := TENTATIVE | CONFIRMED | CANCELLED.

Definition event_status_text (s : EventStatus) : string :=
  match s with
  | TENTATIVE => "TENTATIVE"
  | CONFIRMED => "CONFIRMED"
  | CANCELLED => "CANCELLED"
  end.

Record ICSEventData : Type := mkEvent {
  title : string;
  description : option string;
  location : option string;
  startDate : Z;
  endDate : Z;
  organizer : option Party;
  attendee : option Party;
  uid : option string;
  sequence : option Z;
  ev_status : option EventStatus;
  reminder : option Z
}.

(** What the generator reads from its surroundings: the host zone, the
    clock ([new Date()], [Date.now()]), and the digits
    [Math.random().toString(36).substring(2, 15)] yields. *)
Record Runtime : Type := mkRuntime {
  host : Z;
  now : Z;
  random36 : string
}.

Definition generateUID (rt : Runtime) : string :=
  Js.string_of_Z (now rt) ++ "-" ++ random36 rt ++ "@autamedica.com".

Definition pad2 (n : Z) : string := Js.padStart 2 "0" (Js.string_of_Z n).

Definition formatDate (rt : Runtime) (date : Z) : string :=
  let year := Clock.getFullYear (host rt) date in
  let month := pad2 (Clock.getMonth (host rt) date + 1) in
  let day := pad2 (Clock.getDate (host rt) date) in
  let hours := pad2 (Clock.getHours (host rt) date) in
  let minutes := pad2 (Clock.getMinutes (host rt) date) in
  let seconds := pad2 (Clock.getSeconds (host rt) date) in
  Js.string_of_Z year ++ month ++ day ++ "T" ++ hours ++ minutes ++ seconds.

Definition escapeText (text : string) : string :=
  Js.replace_all_char Js.CR_char ""
    (Js.replace_all_char Js.LF_char "\n"
      (Js.replace_all_char "," "\,"
        (Js.replace_all_char ";" "\;"
          (Js.replace_all_char "\" "\\" text)))).

(** [cond ? lines : nothing], for the optional [lines.push] calls. *)
Definition push_if (cond : bool) (extra : list string) : list string :=
  if cond then extra else [].

Definition generateICS_lines (rt : Runtime) (event : ICSEventData) : list string :=
  [ "BEGIN:VCALENDAR";
    "VERSION:2.0";
    "PRODID:-//AutaMedica//Medical Appointments//ES";
    "METHOD:REQUEST";
    "CALSCALE:GREGORIAN";
    "";
    "BEGIN:VTIMEZONE";
    "TZID:America/Argentina/Buenos_Aires";
    "X-LIC-LOCATION:America/Argentina/Buenos_Aires";
    "BEGIN:STANDARD";
    "TZOFFSETFROM:-0300";
    "TZOFFSETTO:-0300";
    "TZNAME:ART";
    "DTSTART:19700101T000000";
    "END:STANDARD";
    "END:VTIMEZONE";
    "";
    "BEGIN:VEVENT";
    "UID:" ++ (if Js.truthy_opt (uid event)
               then match uid event with Some u => u | None => "" end
               else generateUID rt);
    "DTSTAMP:" ++ formatDate rt (now rt);
    "DTSTART;TZID=America/Argentina/Buenos_Aires:" ++ formatDate rt (startDate event);
    "DTEND;TZID=America/Argentina/Buenos_Aires:" ++ formatDate rt (endDate event);
    "SUMMARY:" ++ escapeText (title event) ]
  ++ match description event with
     | Some d => push_if (Js.truthy d) ["DESCRIPTION:" ++ escapeText d]
     | None => []
     end
  ++ match location event with
     | Some l => push_if (Js.truthy l) ["LOCATION:" ++ escapeText l]
     | None => []
     end
  ++ match organizer event with
     | Some o => ["ORGANIZER;CN=" ++ escapeText (party_name o)
                    ++ ":mailto:" ++ party_email o]
     | None => []
     end
  ++ match attendee event with
     | Some a => ["ATTENDEE;CN=" ++ escapeText (party_name a)
                    ++ ";RSVP=TRUE:mailto:" ++ party_email a]
     | None => []
     end
  ++ match ev_status event with
     | Some s => ["STATUS:" ++ event_status_text s]
     | None => []
     end
  ++ match sequence event with
     | Some n => ["SEQUENCE:" ++ Js.string_of_Z n]
     | None => []
     end
  ++ match reminder event with
     | Some r => push_if (negb (r =? 0))
                   [ "BEGIN:VALARM";
                     "TRIGGER:-PT" ++ Js.string_of_Z r ++ "M";
                     "ACTION:DISPLAY";
                     "DESCRIPTION:Recordatorio: " ++ escapeText (title event);
                     "END:VALARM" ]
     | None => []
     end
  ++ [ "END:VEVENT"; "END:VCALENDAR" ].

Definition generateICS (rt : Runtime) (event : ICSEventData) : string :=
  Js.join Js.CRLF (generateICS_lines rt event).

(** The event [generateAppointmentICS] hands to [generateICS]. *)
Definition appointmentEvent (appointment : Appointment)
    (doctorName patientName : string)
    (doctorEmail patientEmail : option string) : ICSEventData :=
  {| title := "Cita médica con " ++ doctorName;
     description :=
       Some (if Js.truthy_opt (notes appointment)
             then match notes appointment with Some n => n | None => "" end
             else "Cita médica programada");
     location := Some "Consultorio médico - AutaMedica";
     startDate := starts_at appointment;
     endDate := ends_at appointment;
     organizer :=
       match doctorEmail with
       | Some e => if Js.truthy e then Some (mkParty doctorName e) else None
       | None => None
       end;
     attendee :=
       match patientEmail with
       | Some e => if Js.truthy e then Some (mkParty patientName e) else None
       | None => None
       end;
     uid := Some (id appointment ++ "@autamedica.com");
     sequence := Some 0;
     ev_status :=
       Some (if status_eqb (status appointment) confirmed
             then CONFIRMED else TENTATIVE);
     reminder := Some 120 |}.

(** [static generateAppointmentICS(appointment, doctorName, patientName,
    doctorEmail?, patientEmail?)] *)
Definition generateAppointmentICS (rt : Runtime) (appointment : Appointment)
    (doctorName patientName : string)
    (doctorEmail patientEmail : option string) : string :=
  generateICS rt
    (appointmentEvent appointment doctorName patientName doctorEmail patientEmail).

(** The event [generateCancellationICS] hands to [generateICS]. *)
Definition cancellationEvent (appointment : Appointment)
  (doctorName : string) (reason : option string) : ICSEventData :=
{| title := "CANCELADA: Cita médica con " ++ doctorName;
   description :=
     Some (match reason with
           | Some r => if Js.truthy r
                       then "Esta cita ha sido cancelada. Motivo: " ++ r
                       else "Esta cita ha sido cancelada."
           | None => "Esta cita ha sido cancelada."
           end);
   location := Some "Consultorio médico - AutaMedica";
   startDate := starts_at appointment;
   endDate := ends_at appointment;
   organizer := None;
   attendee := None;
   uid := Some (id appointment ++ "@autamedica.com");
   sequence := Some 1;
   ev_status := Some CANCELLED;
   reminder := None |}.

(** [static generateCancellationICS(appointment, doctorName, patientName,
  reason?)] *)
Definition generateCancellationICS (rt : Runtime) (appointment : Appointment)
  (doctorName patientName : string) (reason : option string) : string :=
generateICS rt (cancellationEvent appointment doctorName reason).

(** Reading an artifact back: the value of the first content line that
  starts with [key], as a calendar client finds METHOD, UID, SEQUENCE
  and STATUS. *)
Fixpoint property_of (key : string) (lines : list string) : option string :=
match lines with
| [] => None
| l :: rest =>
    if String.prefix key l
    then Some (String.substring (String.length key)
                                (String.length l - String.length key) l)
    else property_of key rest
end.

End ICSGenerator.

(* ================================================================== *)
(** * packages/core/src/services/email.service.ts *)
(* ================================================================== *)

Module Email.
Import Js.

(** [EmailAddress = string | { name?: string; email: string }] *)
Inductive EmailAddress : Type :=
| AddrText (address : string)
| AddrObj (name : option string) (email : string).

Record EmailAttachment : Type := mkAttachment {
  filename : string;
  content : string;
  contentType : option string;
  encoding : option string
}.

(** The fields of [SendEmailOptions] the appointment module sets
    ([cc], [bcc], [text] and [replyTo] are never set by it). *)
Record SendEmailOptions : Type := mkOptions {
  to : EmailAddress;
  from : option EmailAddress;
  subject : string;
  html : string;
  attachments : list EmailAttachment;
  tags : list string;
  headers : list (string * string)
}.

Inductive DeliveryStatus : Type := sent | queued | failed.

Record EmailProviderResponse : Type := mkResponse {
  messageId : option string;
  resp_status : option DeliveryStatus;
  resp_error : option string
}.

(** What an asynchronous call can observe and change: the messages
    handed so far to a recorded [send] function, oldest first, and the
    waits requested from [setTimeout], oldest first. *)
Record World : Type := mkWorld {
  calls : list SendEmailOptions;
  sleeps : list Z
}.

Definition initial_world : World := mkWorld [] [].

(** An asynchronous computation: it runs in a world and either resolves
    or rejects, leaving a world behind. *)
Definition M (A : Type) : Type := World -> Result A * World.

Definition ret {A} (a : A) : M A := fun w => (Ok a, w).

Definition throw {A} (e : Thrown) : M A := fun w => (Throw e, w).

Definition bind {A B} (m : M A) (k : A -> M B) : M B :=
  fun w =>
    match m w with
    | (Ok a, w') => k a w'
    | (Throw e, w') => (Throw e, w')
    end.

(** [try { m } catch (e) { handler e }] *)
Definition try_catch {A} (m : M A) (handler : Thrown -> M A) : M A :=
  fun w =>
    match m w with
    | (Ok a, w') => (Ok a, w')
    | (Throw e, w') => handler e w'
    end.

(** A synchronous call that may throw. *)
Definition lift {A} (r : Result A) : M A := fun w => (r, w).

Notation "x <- m ;; k" := (bind m (fun x => k))
  (at level 61, m at next level, right associativity).
Notation "m ;;; k" := (bind m (fun _ => k))
  (at level 61, right associativity).

(** [send(opts): Promise<EmailProviderResponse>], the one method of
    [EmailProvider] and the method of [EmailService] its callers use. *)
Definition SendFn : Type := SendEmailOptions -> M EmailProviderResponse.

(** A recorded [send] (a transport, or a [vi.fn()] stand-in): the
    outcome of the call is decided by how many calls came before it and
    by the message, and the message is appended to the record. *)
Definition Outcomes : Type :=
  nat -> SendEmailOptions -> Result EmailProviderResponse.

Definition recorded_send (outcomes : Outcomes) : SendFn :=
  fun opts w =>
    (outcomes (List.length (calls w)) opts,
     mkWorld (calls w ++ [opts]) (sleeps w)).

(** [private delay(ms)] *)
Definition delay (ms : Z) : M unit :=
  fun w => (Ok tt, mkWorld (calls w) (sleeps w ++ [ms])).

Record EmailServiceConfig : Type := mkConfig {
  defaultFrom : EmailAddress;
  provider : SendFn;
  enableLogging : option bool;
  retryAttempts : option nat;
  retryDelayMs : option Z
}.

(** [Required<EmailServiceConfig>], as the constructor fills it in. *)
Record EmailService : Type := mkService {
  cfg_defaultFrom : EmailAddress;
  cfg_provider : SendFn;
  cfg_enableLogging : bool;
  cfg_retryAttempts : nat;
  cfg_retryDelayMs : Z
}.

Definition new_EmailService (cfg : EmailServiceConfig) : EmailService :=
  {| cfg_defaultFrom := defaultFrom cfg;
     cfg_provider := provider cfg;
     cfg_enableLogging :=
       match enableLogging cfg with Some b => b | None => false end;
     cfg_retryAttempts :=
       match retryAttempts cfg with Some n => n | None => 3%nat end;
     cfg_retryDelayMs :=
       match retryDelayMs cfg with Some d => d | None => 1000 end |}.

(** [{ from: options.from ?? this.config.defaultFrom, ...options }] *)
Definition normalize (svc : EmailService) (options : SendEmailOptions)
  : SendEmailOptions :=
  {| to := to options;
     from := Some (match from options with
                   | Some f => f
                   | None => cfg_defaultFrom svc
                   end);
     subject := subject options;
     html := html options;
     attachments := attachments options;
     tags := tags options;
     headers := headers options |}.

Definition exhausted_message (svc : EmailService) (lastError : option Thrown)
  : string :=
  "Failed to send email after " ++ string_of_nat (cfg_retryAttempts svc)
    ++ " attempts: " ++ optional_message lastError.

(** The [for (let attempt = 1; attempt <= retryAttempts; attempt++)]
    loop of [send], entered at [attempt] with [remaining] iterations
    still to run, followed by the final [throw]. *)
Fixpoint send_loop (svc : EmailService) (normalized : SendEmailOptions)
    (remaining attempt : nat) (lastError : option Thrown)
  : M EmailProviderResponse :=
  match remaining with
  | O => throw (ErrorObj (exhausted_message svc lastError))
  | S remaining' =>
      try_catch
        (cfg_provider svc normalized)
        (fun error =>
           (if (attempt <? cfg_retryAttempts svc)%nat
            then delay (cfg_retryDelayMs svc * Z.of_nat attempt)
            else ret tt) ;;;
           send_loop svc normalized remaining' (S attempt) (Some error))
  end.

(** The waits requested after failed attempts [attempt], [attempt + 1],
    ..., [count] of them: [retryDelayMs * attempt] each. *)
Definition waits_from (svc : EmailService) (attempt count : nat) : list Z :=
  map (fun i => cfg_retryDelayMs svc * Z.of_nat i) (seq attempt count).

(** [async send(options)] *)
Definition send (svc : EmailService) : SendFn :=
  fun options =>
    send_loop svc (normalize svc options) (cfg_retryAttempts svc) 1%nat None.

End Email.

(* ================================================================== *)
(** * packages/core/src/utils/ics-email.ts *)
(* ================================================================== *)

Module IcsEmail.
Import Types Email.

Record ICSEmailOptions : Type := mkICSOptions {
  appointment : Appointment;
  doctorName : string;
  patientName : string;
  doctorEmail : option string;
  patientEmail : option string;
  location : option string;
  reason : option string
}.

Section Encoding.
(** [Buffer.from(text, 'utf-8').toString('base64')] *)
Variable base64 : string -> string.
Variable rt : ICSGenerator.Runtime.


Definition generateCancellationICS (options : ICSEmailOptions) : EmailAttachment :=
  let icsContent :=
    ICSGenerator.generateCancellationICS rt (appointment options)
      (doctorName options) (patientName options) (reason options) in
  {| filename := "cancelacion_" ++ id (appointment options) ++ ".ics";
     content := base64 icsContent;
     contentType := Some "text/calendar; charset=utf-8; method=CANCEL";
     encoding := Some "base64" |}.

Definition generateReminderICS (options : ICSEmailOptions) : EmailAttachment :=
  let icsContent :=
    ICSGenerator.generateAppointmentICS rt (appointment options)
      (doctorName options) (patientName options)
      (doctorEmail options) (patientEmail options) in
  {| filename := "recordatorio_" ++ id (appointment options) ++ ".ics";
     content := base64 icsContent;
     contentType := Some "text/calendar; charset=utf-8; method=PUBLISH";
     encoding := Some "base64" |}.
End Encoding.

End IcsEmail.

(* ================================================================== *)
(** * packages/core/src/emails/appointmentEmails.ts *)
(* ================================================================== *)

Module AppointmentEmails.
Import Js Types Email.

Inductive Role : Type := doctor_role | patient_role.

Record EmailRecipient : Type := mkRecipient {
  name : string;
  email : string;
  role : option Role
}.

Record AppointmentEmailOptions : Type := mkEmailOptions {
  appointment : Appointment;
  doctor : EmailRecipient;
  patient : EmailRecipient;
  clinicName : option string;
  clinicAddress : option string;
  appointmentUrl : option string;
  contactPhone : option string;
  timezone : option string
}.

(** [hoursBefore: 24 | 2] *)
Inductive HoursBefore : Type := H24 | H2.

Definition hours_text (h : HoursBefore) : string :=
  match h with H24 => "24" | H2 => "2" end.

Record ReminderEmailOptions : Type := mkReminderOptions {
  base : AppointmentEmailOptions;
  hoursBefore : HoursBefore
}.

(** Arguments of the template functions, as the senders build them. *)
Record TemplateParams : Type := mkTemplateParams {
  tp_appointment : Appointment;
  tp_doctorName : string;
  tp_patientName : string;
  tp_hoursBefore : option HoursBefore;
  tp_clinicName : string;
  tp_clinicAddress : option string;
  tp_appointmentUrl : string;
  tp_contactPhone : option string;
  tp_timezone : string
}.

(** The collaborators a sender calls besides the email service: the
    MJML templates (which may throw), the base64 encoder and what the
    calendar generator reads from its surroundings. *)
Record Deps : Type := mkDeps {
  confirmationTemplate : TemplateParams -> Result string;
  reminderTemplate : TemplateParams -> Result string;
  base64 : string -> string;
  rt : ICSGenerator.Runtime
}.

(** A destructuring default: [x = fallback] applies when the property is
    absent. *)
Definition default (fallback : string) (x : option string) : string :=
  match x with Some v => v | None => fallback end.

Definition recipient_address (r : EmailRecipient) : EmailAddress :=
  AddrObj (Some (name r)) (email r).







(** The message built by [sendReminderEmail]. *)
Definition reminder_message (options : ReminderEmailOptions)
    (html : string) (icsAttachment : EmailAttachment) : SendEmailOptions :=
  let o := base options in
  let isUrgent := match hoursBefore options with H2 => true | H24 => false end in
  let urgencyEmoji := if isUrgent then "⏰" else "📅" in
  let timeText := match hoursBefore options with
                  | H24 => "mañana" | H2 => "en 2 horas" end in
  {| to := recipient_address (patient o);
     from := None;
     subject := urgencyEmoji ++ " Recordatorio: Tu cita es " ++ timeText ++ " - "
                  ++ default "AutaMedica" (clinicName o);
     html := html;
     attachments := [icsAttachment];
     tags := ["appointment"; "reminder";
              "reminder-" ++ hours_text (hoursBefore options) ++ "h"];
     headers := [ ("X-Appointment-ID", id (appointment o));
                  ("X-Appointment-Type", "reminder");
                  ("X-Reminder-Hours", hours_text (hoursBefore options));
                  ("X-Priority", if isUrgent then "high" else "normal") ] |}.

(** [export async function sendReminderEmail(emailService, options)] *)
Definition sendReminderEmail (deps : Deps) (emailService : SendFn)
    (options : ReminderEmailOptions) : M unit :=
  let o := base options in
  try_catch
    (html <- lift (reminderTemplate deps
               {| tp_appointment := appointment o;
                  tp_doctorName := name (doctor o);
                  tp_patientName := name (patient o);
                  tp_hoursBefore := Some (hoursBefore options);
                  tp_clinicName := default "AutaMedica" (clinicName o);
                  tp_clinicAddress :=
                    Some (default "Consultorio médico" (clinicAddress o));
                  tp_appointmentUrl := default "#" (appointmentUrl o);
                  tp_contactPhone := contactPhone o;
                  tp_timezone :=
                    default "America/Argentina/Buenos_Aires" (timezone o) |}) ;;
     let icsAttachment :=
       IcsEmail.generateReminderICS (base64 deps) (rt deps)
         {| IcsEmail.appointment := appointment o;
            IcsEmail.doctorName := name (doctor o);
            IcsEmail.patientName := name (patient o);
            IcsEmail.doctorEmail := Some (email (doctor o));
            IcsEmail.patientEmail := Some (email (patient o));
            IcsEmail.location := None;
            IcsEmail.reason := None |} in
     emailService (reminder_message options html icsAttachment) ;;;
     ret tt)
    (fun error =>
       throw (ErrorObj ("Failed to send reminder email: "
                          ++ message_or "Unknown error" error))).

(** An element of the list given to [sendBatchReminders]. *)
Record BatchItem : Type := mkBatchItem {
  item_appointment : Appointment;
  item_doctor : EmailRecipient;
  item_patient : EmailRecipient;
  item_hoursBefore : HoursBefore
}.

(** [Partial<AppointmentEmailOptions>] *)
Record PartialEmailOptions : Type := mkPartial {
  po_appointment : option Appointment;
  po_doctor : option EmailRecipient;
  po_patient : option EmailRecipient;
  po_clinicName : option string;
  po_clinicAddress : option string;
  po_appointmentUrl : option string;
  po_contactPhone : option string;
  po_timezone : option string
}.

Definition no_common_options : PartialEmailOptions :=
  mkPartial None None None None None None None None.

(** [{ ...item, ...commonOptions }] *)
Definition merge_options (item : BatchItem) (commonOptions : PartialEmailOptions)
  : ReminderEmailOptions :=
  {| base :=
       {| appointment := match po_appointment commonOptions with
                         | Some a => a | None => item_appointment item end;
          doctor := match po_doctor commonOptions with
                    | Some d => d | None => item_doctor item end;
          patient := match po_patient commonOptions with
                     | Some p => p | None => item_patient item end;
          clinicName := po_clinicName commonOptions;
          clinicAddress := po_clinicAddress commonOptions;
          appointmentUrl := po_appointmentUrl commonOptions;
          contactPhone := po_contactPhone commonOptions;
          timezone := po_timezone commonOptions |};
     hoursBefore := item_hoursBefore item |}.

Record BatchResult : Type := mkBatchResult {
  successful : nat;
  failed : nat;
  errors : list string
}.

(** [results.successful++] *)
Definition count_success (results : BatchResult) : BatchResult :=
  mkBatchResult (S (successful results)) (failed results) (errors results).

(** The entry pushed on [results.errors] for an item whose send threw. *)
Definition error_entry (item : BatchItem) (error : Thrown) : string :=
  "Appointment " ++ id (item_appointment item) ++ ": "
    ++ message_or "Unknown error" error.

(** [results.failed++; results.errors.push(...)] *)
Definition count_failure (item : BatchItem) (error : Thrown)
    (results : BatchResult) : BatchResult :=
  mkBatchResult (successful results) (S (failed results))
                (errors results ++ [error_entry item error]).

(** The [for (const item of appointments)] loop of [sendBatchReminders],
    with the [results] object it updates. *)
Fixpoint batch_loop (deps : Deps) (emailService : SendFn)
    (commonOptions : PartialEmailOptions) (appointments : list BatchItem)
    (results : BatchResult) : M BatchResult :=
  match appointments with
  | [] => ret results
  | item :: rest =>
      results' <-
        try_catch
          (sendReminderEmail deps emailService (merge_options item commonOptions) ;;;
           ret (count_success results))
          (fun error => ret (count_failure item error results)) ;;
      batch_loop deps emailService commonOptions rest results'
  end.

(** [export async function sendBatchReminders(emailService, appointments,
    commonOptions?)] *)
Definition sendBatchReminders (deps : Deps) (emailService : SendFn)
    (appointments : list BatchItem) (commonOptions : option PartialEmailOptions)
  : M BatchResult :=
  batch_loop deps emailService
    (match commonOptions with Some c => c | None => no_common_options end)
    appointments (mkBatchResult 0 0 []).

End AppointmentEmails.

(* ================================================================== *)
(** * 001_appointments.sql: the appointments table and its procedures *)
(* ================================================================== *)

Module Database.
Import Types.

(** The rows of [public.appointments].  The foreign keys and the
    row-level security policies refer to tables and sessions outside the
    module; they are left out. *)
Definition Table : Type := list Appointment.

Inductive SqlResult (A : Type) : Type :=
| SqlOk (a : A)
| SqlError (message : string).
Arguments SqlOk {A} a.
Arguments SqlError {A} message.

(** A [tstzrange] with bounds ['[)']. *)
Inductive Range : Type :=
| EmptyRange
| Bounded (lo hi : Z).

(** [tstzrange(lo, hi, '[)')] *)
Definition tstzrange (lo hi : Z) : SqlResult Range :=
  if lo >? hi
  then SqlError "range lower bound must be less than or equal to range upper bound"
  else if lo =? hi then SqlOk EmptyRange
  else SqlOk (Bounded lo hi).

(** [r1 && r2] *)
Definition range_overlaps (r1 r2 : Range) : bool :=
  match r1, r2 with
  | Bounded lo1 hi1, Bounded lo2 hi2 => (lo1 <? hi2) && (lo2 <? hi1)
  | _, _ => false
  end.

(** [check (ends_at > starts_at)] *)
Definition row_check (a : Appointment) : bool := ends_at a >? starts_at a.

(** The generated column [slot]; the row check makes it a bounded range. *)
Definition slot (a : Appointment) : Range := Bounded (starts_at a) (ends_at a).

(** [exclude using gist (doctor_id with =, slot with &&)]: does [a]
    conflict with one of [others]? *)
Definition excluded_by (others : Table) (a : Appointment) : bool :=
  existsb (fun b => String.eqb (doctor_id b) (doctor_id a)
                    && range_overlaps (slot b) (slot a)) others.

Definition has_id (x : string) (a : Appointment) : bool := String.eqb (id a) x.

Definition find_row (x : string) (t : Table) : option Appointment :=
  List.find (has_id x) t.

(** A name between double quotes, as PostgreSQL prints identifiers. *)
Definition quoted (name : string) : string :=
  String "034"%char (name ++ String "034"%char EmptyString).

(** The error texts of PostgreSQL for the constraints of the table; the
    primary key and the check carry the names PostgreSQL gives them. *)
Definition check_violation : string :=
  "new row for relation " ++ quoted "appointments"
    ++ " violates check constraint " ++ quoted "appointments_check".
Definition unique_violation : string :=
  "duplicate key value violates unique constraint " ++ quoted "appointments_pkey".
Definition exclusion_violation : string :=
  "conflicting key value violates exclusion constraint "
    ++ quoted "no_overlap_per_doctor".

(** What computing the generated column [slot] of a row reports, if it
    fails: [tstzrange(starts_at, ends_at, '[)')] refuses a reversed
    range. *)
Definition slot_error (a : Appointment) : option string :=
  match tstzrange (starts_at a) (ends_at a) with
  | SqlError m => Some m
  | SqlOk _ => None
  end.

(** [insert into public.appointments ... values ...]: the generated
    column is computed, then the check, then the indexes (primary key,
    exclusion constraint). *)
Definition insert_row (t : Table) (a : Appointment) : SqlResult Table :=
  match slot_error a with
  | Some m => SqlError m
  | None =>
      if negb (row_check a)
      then SqlError check_violation
      else if existsb (has_id (id a)) t
      then SqlError unique_violation
      else if excluded_by t a
      then SqlError exclusion_violation
      else SqlOk (t ++ [a])%list
  end.

(** Columns an [update ... set] assigns. *)
Record Patch : Type := mkPatch {
  p_starts_at : option Z;
  p_ends_at : option Z;
  p_status : option AppointmentStatus;
  p_notes : option string
}.

(** The row after [update ... set], with the [set_updated_at] trigger
    applied at database time [now]. *)
Definition patched (now : Z) (p : Patch) (a : Appointment) : Appointment :=
  {| id := id a;
     patient_id := patient_id a;
     doctor_id := doctor_id a;
     starts_at := match p_starts_at p with Some v => v | None => starts_at a end;
     ends_at := match p_ends_at p with Some v => v | None => ends_at a end;
     status := match p_status p with Some v => v | None => status a end;
     notes := match p_notes p with Some v => Some v | None => notes a end;
     created_at := created_at a;
     updated_at := now |}.

Definition without_id (x : string) (t : Table) : Table :=
  filter (fun a => negb (has_id x a)) t.

Definition replace_row (a' : Appointment) (t : Table) : Table :=
  map (fun a => if has_id (id a') a then a' else a) t.

(** [update public.appointments set ... where id = x returning *]: the
    table afterwards and the rows returned. *)
Definition update_row (now : Z) (t : Table) (x : string) (p : Patch)
  : SqlResult (Table * list Appointment) :=
  match find_row x t with
  | None => SqlOk (t, [])
  | Some a =>
      let a' := patched now p a in
      match slot_error a' with
      | Some m => SqlError m
      | None =>
          if negb (row_check a')
          then SqlError check_violation
          else if excluded_by (without_id x t) a'
          then SqlError exclusion_violation
          else SqlOk (replace_row a' t, [a'])
      end
  end.

(** [delete from public.appointments where id = x] *)
Definition delete_row (t : Table) (x : string) : Table := without_id x t.

Definition conflict_of_row (a : Appointment) : Conflict :=
  {| c_id := id a; c_starts_at := starts_at a; c_ends_at := ends_at a;
     c_doctor_id := None |}.

(** [public.check_appointment_overlap(p_doctor, p_start, p_end)] *)
Definition check_appointment_overlap (t : Table) (p_doctor : string)
    (p_start p_end : Z) : SqlResult (list Conflict) :=
  match tstzrange p_start p_end with
  | SqlError m => SqlError m
  | SqlOk r =>
      SqlOk (map conflict_of_row
               (filter (fun a => String.eqb (doctor_id a) p_doctor
                                 && range_overlaps r (slot a)) t))
  end.

(** [public.create_appointment_safe(p_patient, p_doctor, p_start, p_end,
    p_status, p_notes)], with the uuid the insert draws and the database
    time. *)
Definition create_appointment_safe (now : Z) (new_id : string) (t : Table)
    (p_patient p_doctor : string) (p_start p_end : Z)
    (p_status : option AppointmentStatus) (p_notes : option string)
  : SqlResult (Table * string) :=
  match tstzrange p_start p_end with
  | SqlError m => SqlError m
  | SqlOk r =>
      if existsb (fun a => String.eqb (doctor_id a) p_doctor
                           && range_overlaps r (slot a)) t
      then SqlError "OVERLAP"
      else
        match insert_row t
                {| id := new_id; patient_id := p_patient; doctor_id := p_doctor;
                   starts_at := p_start; ends_at := p_end;
                   status := match p_status with
                             | Some v => v | None => scheduled end;
                   notes := p_notes; created_at := now; updated_at := now |} with
        | SqlError m => SqlError m
        | SqlOk t' => SqlOk (t', new_id)
        end
  end.

End Database.

(* ================================================================== *)
(** * The storage client the hooks and the service call *)
(* ================================================================== *)

Module Supabase.
Import Js Types Database.

(** How a request can fail before the database answers it: the client
    resolves with an [error] object, or the awaited call itself rejects. *)
Inductive Fault : Type :=
| Unavailable (message : string)
| Rejects (e : Thrown).

Record Backend : Type := mkBackend {
  table : Table;
  fault : option Fault
}.

(** What [await query] yields: [{ data, error }], or a rejection. *)
Inductive Response (A : Type) : Type :=
| Reply (data : option A) (error : option string)
| Rejected (e : Thrown).
Arguments Reply {A} data error.
Arguments Rejected {A} e.

(** A read: the answer computed by the database, unless the request
    fails first. *)
Definition respond {A} (sb : Backend) (answer : Table -> SqlResult A)
  : Response A :=
  match fault sb with
  | Some (Unavailable m) => Reply None (Some m)
  | Some (Rejects e) => Rejected e
  | None =>
      match answer (table sb) with
      | SqlOk a => Reply (Some a) None
      | SqlError m => Reply None (Some m)
      end
  end.

(** A write: as [respond], and the table is replaced when the statement
    succeeds. *)
Definition perform {A} (sb : Backend) (statement : Table -> SqlResult (Table * A))
  : Response A * Backend :=
  match fault sb with
  | Some (Unavailable m) => (Reply None (Some m), sb)
  | Some (Rejects e) => (Rejected e, sb)
  | None =>
      match statement (table sb) with
      | SqlOk (t', a) => (Reply (Some a) None, mkBackend t' (fault sb))
      | SqlError m => (Reply None (Some m), sb)
      end
  end.

(** [.select().single()] on the rows a statement returns. *)
Definition single {A} (r : SqlResult (Table * list A)) : SqlResult (Table * A) :=
  match r with
  | SqlError m => SqlError m
  | SqlOk (t', [a]) => SqlOk (t', a)
  | SqlOk (_, _) => SqlError "JSON object requested, multiple (or no) rows returned"
  end.

(** A filter chain of the query builder: the rows it keeps. *)
Definition Query : Type := Appointment -> bool.

Definition q_eq_doctor (d : string) (q : Query) : Query :=
  fun a => q a && String.eqb (doctor_id a) d.
Definition q_neq_status (s : AppointmentStatus) (q : Query) : Query :=
  fun a => q a && negb (status_eqb (status a) s).
Definition q_neq_id (x : string) (q : Query) : Query :=
  fun a => q a && negb (String.eqb (id a) x).
(** [.or(`and(starts_at.lt.${hi},ends_at.gt.${lo})`)] *)
Definition q_intersects (lo hi : Z) (q : Query) : Query :=
  fun a => q a && ((starts_at a <? hi) && (ends_at a >? lo)).
Definition q_all : Query := fun _ => true.

(** [.select('id, starts_at, ends_at, doctor_id')] *)
Definition selected_columns (a : Appointment) : Conflict :=
  {| c_id := id a; c_starts_at := starts_at a; c_ends_at := ends_at a;
     c_doctor_id := Some (doctor_id a) |}.

End Supabase.

(* ================================================================== *)
(** * packages/hooks: useAppointments *)
(* ================================================================== *)

Module Hooks.
Import Js Types Database Supabase.

(** [try { body } catch (err) { handler err }] for a synchronous body. *)
Definition try_catch {A} (body : Result A) (handler : Thrown -> Result A)
  : Result A :=
  match body with
  | Ok a => Ok a
  | Throw e => handler e
  end.

Definition overlap_message (n : nat) : string :=
  "Conflicto de horario detectado. Hay " ++ string_of_nat n
    ++ " cita(s) en ese horario.".

(** The query [validateAppointmentOverlap] builds. *)
Definition overlap_query (startsAt endsAt : Z) (doctorId : string)
    (excludeId : option string) : Query :=
  let query :=
    q_intersects startsAt endsAt
      (q_neq_status cancelled (q_eq_doctor doctorId q_all)) in
  match excludeId with
  | Some x => if truthy x then q_neq_id x query else query
  | None => query
  end.

(** [const validateAppointmentOverlap = useCallback(async (startsAt,
    endsAt, doctorId, excludeId?) => ...)] *)
Definition validateAppointmentOverlap (sb : Backend) (startsAt endsAt : Z)
    (doctorId : string) (excludeId : option string)
  : Result AppointmentOverlapValidation :=
  try_catch
    (match respond sb (fun t =>
              SqlOk (map selected_columns
                       (filter (overlap_query startsAt endsAt doctorId excludeId) t)))
     with
     | Rejected e => Throw e
     | Reply _ (Some error_message) => Throw (ErrorObj error_message)
     | Reply overlapping None =>
         let rows := match overlapping with Some l => l | None => [] end in
         let hasOverlap := (0 <? List.length rows)%nat in
         Ok {| hasOverlap := hasOverlap;
               conflictingAppointments := rows;
               message := if hasOverlap
                          then Some (overlap_message (List.length rows))
                          else None |}
     end)
    (fun err =>
       Ok {| hasOverlap := false;
             conflictingAppointments := [];
             message := Some (message_or "Error validando solapamientos" err) |}).

(** [if (error) throw new Error(error.message)], then the data. *)
Definition data_or_throw {A} (r : Response A) : Result (option A) :=
  match r with
  | Rejected e => Throw e
  | Reply _ (Some error_message) => Throw (ErrorObj error_message)
  | Reply data None => Ok data
  end.

(** [catch (err) { ...; throw new Error(errorMessage) }] *)
Definition rethrow {A} (fallback : string) (err : Thrown) : Result A :=
  Throw (ErrorObj (message_or fallback err)).

(** [overlap.message || fallback] *)
Definition message_or_default (fallback : string) (m : option string) : string :=
  if truthy_opt m then match m with Some x => x | None => fallback end
  else fallback.

(** [createAppointment(input)], with the uuid and the time the database
    gives the new row.  The list refresh that follows a successful write
    only reads. *)
Definition createAppointment (now : Z) (new_id : string) (sb : Backend)
    (input : CreateAppointmentInput) : Result (option Appointment) * Backend :=
  match validateAppointmentOverlap sb (ci_starts_at input) (ci_ends_at input)
          (ci_doctor_id input) None with
  | Throw e => (rethrow "Error al crear la cita" e, sb)
  | Ok overlap =>
      if hasOverlap overlap
      then (Throw (ErrorObj (message_or_default
                               "Hay conflictos de horario con otras citas"
                               (message overlap))), sb)
      else
        let row :=
          {| id := new_id;
             patient_id := ci_patient_id input;
             doctor_id := ci_doctor_id input;
             starts_at := ci_starts_at input;
             ends_at := ci_ends_at input;
             status := match ci_status input with
                       | Some v => v | None => scheduled end;
             notes := ci_notes input;
             created_at := now;
             updated_at := now |} in
        let '(reply, sb') :=
          perform sb (fun t => match insert_row t row with
                               | SqlOk t' => SqlOk (t', row)
                               | SqlError m => SqlError m
                               end) in
        (try_catch (data_or_throw reply) (rethrow "Error al crear la cita"), sb')
  end.

Definition patch_of_input (input : UpdateAppointmentInput) : Patch :=
  {| p_starts_at := ui_starts_at input;
     p_ends_at := ui_ends_at input;
     p_status := ui_status input;
     p_notes := ui_notes input |}.

Definition is_some {A} (x : option A) : bool :=
  match x with Some _ => true | None => false end.

(** [updateAppointment(id, input)]; [appointments] is the list the hook
    holds from its last fetch. *)
Definition updateAppointment (now : Z) (appointments : list Appointment)
    (sb : Backend) (x : string) (input : UpdateAppointmentInput)
  : Result (option Appointment) * Backend :=
  let guard : Result unit :=
    if is_some (ui_starts_at input) || is_some (ui_ends_at input)
    then
      match List.find (has_id x) appointments with
      | None => Throw (ErrorObj "Cita no encontrada")
      | Some appointment =>
          let newStartsAt := match ui_starts_at input with
                             | Some v => v | None => starts_at appointment end in
          let newEndsAt := match ui_ends_at input with
                           | Some v => v | None => ends_at appointment end in
          match validateAppointmentOverlap sb newStartsAt newEndsAt
                  (doctor_id appointment) (Some x) with
          | Throw e => Throw e
          | Ok overlap =>
              if hasOverlap overlap
              then Throw (ErrorObj (message_or_default
                                      "Hay conflictos de horario con otras citas"
                                      (message overlap)))
              else Ok tt
          end
      end
    else Ok tt in
  match guard with
  | Throw e => (rethrow "Error al actualizar la cita" e, sb)
  | Ok _ =>
      let '(reply, sb') :=
        perform sb (fun t => single (update_row now t x (patch_of_input input))) in
      (try_catch (data_or_throw reply) (rethrow "Error al actualizar la cita"), sb')
  end.

(** [deleteAppointment(id)] *)
Definition deleteAppointment (sb : Backend) (x : string) : Result unit * Backend :=
  let '(reply, sb') :=
    perform sb (fun t => SqlOk (delete_row t x, tt)) in
  (try_catch
     (match data_or_throw reply with
      | Ok _ => Ok tt
      | Throw e => Throw e
      end)
     (rethrow "Error al eliminar la cita"), sb').

End Hooks.

(* ================================================================== *)
(** * AppointmentsService: the shared service over the stored procedures *)
(* ================================================================== *)

Module AppointmentsService.
Import Js Types Database Supabase.

(** [if (error) throw new Error(`${context}: ${error.message}`)], then
    the data. *)
Definition data_or_throw {A} (context : string) (r : Response A)
  : Result (option A) :=
  match r with
  | Rejected e => Throw e
  | Reply _ (Some error_message) =>
      Throw (ErrorObj (context ++ ": " ++ error_message))
  | Reply data None => Ok data
  end.

Definition conflict_message (n : nat) : string :=
  "Conflicto detectado: " ++ string_of_nat n ++ " cita(s) en ese horario".

(** [static async checkOverlap(doctorId, startsAt, endsAt, excludeId?)] *)
Definition checkOverlap (sb : Backend) (doctorId : string) (startsAt endsAt : Z)
    (excludeId : option string) : Result AppointmentOverlapValidation :=
  match data_or_throw "Error verificando solapamiento"
          (respond sb (fun t => check_appointment_overlap t doctorId startsAt endsAt))
  with
  | Throw e => Throw e
  | Ok data =>
      let rows := match data with Some l => l | None => [] end in
      let conflicts :=
        match excludeId with
        | Some x => if truthy x
                    then filter (fun apt => negb (String.eqb (c_id apt) x)) rows
                    else rows
        | None => rows
        end in
      Ok {| hasOverlap := (0 <? List.length conflicts)%nat;
            conflictingAppointments := conflicts;
            message := if (0 <? List.length conflicts)%nat
                       then Some (conflict_message (List.length conflicts))
                       else None |}
  end.

(** [static async createAppointmentSafe(input)] *)
Definition createAppointmentSafe (now : Z) (new_id : string) (sb : Backend)
    (input : CreateAppointmentInput) : Result (option string) * Backend :=
  let '(reply, sb') :=
    perform sb (fun t =>
      create_appointment_safe now new_id t
        (ci_patient_id input) (ci_doctor_id input)
        (ci_starts_at input) (ci_ends_at input)
        (Some (match ci_status input with Some v => v | None => scheduled end))
        (ci_notes input)) in
  (match reply with
   | Rejected e => Throw e
   | Reply _ (Some m) =>
       if includes "OVERLAP" m
       then Throw (ErrorObj
              "Conflicto de horario: el médico ya tiene una cita en ese horario")
       else Throw (ErrorObj ("Error creando cita: " ++ m))
   | Reply data None => Ok data
   end, sb').

(** [.update({...}).eq('id', id).select().single()] and the check of its
    [error]. *)
Definition update_one (context : string) (now : Z) (sb : Backend) (x : string)
    (p : Patch) : Result (option Appointment) * Backend :=
  let '(reply, sb') := perform sb (fun t => single (update_row now t x p)) in
  (data_or_throw context reply, sb').

(** [static async updateAppointment(id, patch)] *)
Definition updateAppointment (now : Z) (sb : Backend) (x : string)
    (patch : UpdateAppointmentInput) : Result (option Appointment) * Backend :=
  let guard : Result unit :=
    if Hooks.is_some (ui_starts_at patch) || Hooks.is_some (ui_ends_at patch)
    then
      match data_or_throw "Error obteniendo cita"
              (respond sb (fun t =>
                 match single (SqlOk (t, filter (has_id x) t)) with
                 | SqlOk (_, a) => SqlOk a
                 | SqlError m => SqlError m
                 end)) with
      | Throw e => Throw e
      | Ok None => Throw (ErrorObj "Cannot read properties of null")
      | Ok (Some current) =>
          let newStartsAt := match ui_starts_at patch with
                             | Some v => v | None => starts_at current end in
          let newEndsAt := match ui_ends_at patch with
                           | Some v => v | None => ends_at current end in
          match checkOverlap sb (doctor_id current) newStartsAt newEndsAt (Some x) with
          | Throw e => Throw e
          | Ok overlap =>
              if hasOverlap overlap
              then Throw (ErrorObj (Hooks.message_or_default
                                      "Conflicto de horario detectado"
                                      (message overlap)))
              else Ok tt
          end
      end
    else Ok tt in
  match guard with
  | Throw e => (Throw e, sb)
  | Ok _ => update_one "Error actualizando cita" now sb x (Hooks.patch_of_input patch)
  end.

(** [static async cancelAppointment(id, reason?)] *)
Definition cancelAppointment (now : Z) (sb : Backend) (x : string)
    (reason : option string) : Result (option Appointment) * Backend :=
  let notes' := match reason with
                | Some r => if truthy r then Some ("Cancelada: " ++ r) else None
                | None => None
                end in
  update_one "Error cancelando cita" now sb x
    (mkPatch None None (Some cancelled) notes').

(** [static async confirmAppointment(id)] *)
Definition confirmAppointment (now : Z) (sb : Backend) (x : string)
  : Result (option Appointment) * Backend :=
  update_one "Error confirmando cita" now sb x
    (mkPatch None None (Some confirmed) None).

(** [static async completeAppointment(id, notes?)] *)
Definition completeAppointment (now : Z) (sb : Backend) (x : string)
    (notes' : option string) : Result (option Appointment) * Backend :=
  update_one "Error completando cita" now sb x
    (mkPatch None None (Some completed) notes').

(** [static async markNoShow(id)] *)
Definition markNoShow (now : Z) (sb : Backend) (x : string)
  : Result (option Appointment) * Backend :=
  update_one "Error marcando no-show" now sb x
    (mkPatch None None (Some no_show) None).

(** [static async rescheduleAppointment(id, newStartsAt, newEndsAt)] *)
Definition rescheduleAppointment (now : Z) (sb : Backend) (x : string)
    (newStartsAt newEndsAt : Z) : Result (option Appointment) * Backend :=
  updateAppointment now sb x
    (mkUpdateInput (Some newStartsAt) (Some newEndsAt) (Some rescheduled) None).

End AppointmentsService.

(* ================================================================== *)
(** * Sequences of requests against the table *)
(* ================================================================== *)

Module Lifecycle.
Import Js Types Database Supabase.

(** The operations of the module that write to the table. *)
Inductive Operation : Type :=
| HookCreate (new_id : string) (input : CreateAppointmentInput)
| HookUpdate (appointments : list Appointment) (x : string)
             (input : UpdateAppointmentInput)
| HookDelete (x : string)
| ServiceCreate (new_id : string) (input : CreateAppointmentInput)
| ServiceUpdate (x : string) (patch : UpdateAppointmentInput)
| ServiceCancel (x : string) (reason : option string)
| ServiceConfirm (x : string)
| ServiceComplete (x : string) (notes : option string)
| ServiceNoShow (x : string)
| ServiceReschedule (x : string) (newStartsAt newEndsAt : Z).

(** One request: the operation, the time it is served at, and whether
    the storage request fails. *)
Record Request : Type := mkRequest {
  operation : Operation;
  at_time : Z;
  request_fault : option Fault
}.

Definition serve (t : Table) (r : Request) : Table :=
  let sb := mkBackend t (request_fault r) in
  let now := at_time r in
  table
    (match operation r with
     | HookCreate new_id input => snd (Hooks.createAppointment now new_id sb input)
     | HookUpdate appointments x input =>
         snd (Hooks.updateAppointment now appointments sb x input)
     | HookDelete x => snd (Hooks.deleteAppointment sb x)
     | ServiceCreate new_id input =>
         snd (AppointmentsService.createAppointmentSafe now new_id sb input)
     | ServiceUpdate x patch =>
         snd (AppointmentsService.updateAppointment now sb x patch)
     | ServiceCancel x reason =>
         snd (AppointmentsService.cancelAppointment now sb x reason)
     | ServiceConfirm x => snd (AppointmentsService.confirmAppointment now sb x)
     | ServiceComplete x notes' =>
         snd (AppointmentsService.completeAppointment now sb x notes')
     | ServiceNoShow x => snd (AppointmentsService.markNoShow now sb x)
     | ServiceReschedule x s e =>
         snd (AppointmentsService.rescheduleAppointment now sb x s e)
     end).

Definition run (requests : list Request) (t : Table) : Table :=
  fold_left serve requests t.

Definition is_delete (op : Operation) : bool :=
  match op with
  | HookDelete _ => true
  | _ => false
  end.

Definition ids (t : Table) : list string := map id t.

(** Every id of the first table is an id of the second. *)
Definition keeps_ids (t t' : Table) : Prop :=
  forall x, In x (ids t) -> In x (ids t').

End Lifecycle.

(* ================================================================== *)
(** * The conditions of the specification, in its words *)
(* ================================================================== *)

Module Spec.
Import Js Types Email AppointmentEmails.


(** Section 4.4: every item of a batch is attempted, one after the
    other, in input order, whatever happened to the items before it; the
    outcome of each attempt is kept next to its item. *)
Fixpoint attempt_each_in_order (deps : Deps) (emailService : SendFn)
    (commonOptions : PartialEmailOptions) (items : list BatchItem) (w : World)
  : list (BatchItem * Result unit) * World :=
  match items with
  | [] => ([], w)
  | item :: rest =>
      let '(r, w1) :=
        sendReminderEmail deps emailService (merge_options item commonOptions) w in
      let '(outcomes, w2) :=
        attempt_each_in_order deps emailService commonOptions rest w1 in
      ((item, r) :: outcomes, w2)
  end.

(** The items whose send threw, with what was thrown, in input order. *)
Fixpoint failures (outcomes : list (BatchItem * Result unit))
  : list (BatchItem * Thrown) :=
  match outcomes with
  | [] => []
  | (item, Throw e) :: rest => (item, e) :: failures rest
  | (_, Ok _) :: rest => failures rest
  end.

(** The items whose send resolved. *)
Fixpoint successes (outcomes : list (BatchItem * Result unit)) : list BatchItem :=
  match outcomes with
  | [] => []
  | (item, Ok _) :: rest => item :: successes rest
  | (_, Throw _) :: rest => successes rest
  end.

(** The flag of a validation result, when there is one. *)
Definition hasOverlap_of_service (r : Result AppointmentOverlapValidation)
  : option bool :=
  match r with
  | Ok v => Some (hasOverlap v)
  | Throw _ => None
  end.

End Spec.

(* ================================================================== *)
(** * Sample data *)
(* ================================================================== *)

Module Samples.
Import Types Supabase.

(** 2024-01-15, 10:00 to 10:30 in Buenos Aires (13:00 to 13:30 UTC). *)
Definition t_10_00 : Z := 1705323600000.
Definition t_10_05 : Z := 1705323900000.
Definition t_10_15 : Z := 1705324500000.
Definition t_10_30 : Z := 1705325400000.
Definition t_10_45 : Z := 1705326300000.
Definition t_11_00 : Z := 1705327200000.

Definition appointment_X : Appointment :=
  {| id := "apt-123"; patient_id := "patient-456"; doctor_id := "doctor-789";
     starts_at := t_10_00; ends_at := t_10_30; status := confirmed;
     notes := Some "Consulta de rutina"; created_at := 1704067200000;
     updated_at := 1704067200000 |}.

Definition one_appointment : Database.Table := [appointment_X].

Definition healthy : Backend := mkBackend one_appointment None.

Definition booking : CreateAppointmentInput :=
  {| ci_patient_id := "patient-456"; ci_doctor_id := "doctor-789";
     ci_starts_at := t_10_00; ci_ends_at := t_10_30;
     ci_status := None; ci_notes := None |}.

Definition message_to_patient : Email.SendEmailOptions :=
  {| Email.to := Email.AddrObj (Some "John Doe") "patient@example.com";
     Email.from := None;
     Email.subject := "Test Email";
     Email.html := "<p>Test content</p>";
     Email.attachments := [];
     Email.tags := ["test"];
     Email.headers := [] |}.

(** A transport that rejects every call. *)
Definition always_failing : Email.Outcomes :=
  fun _ _ => Js.Throw (Js.ErrorObj "Provider error").

(** A service built with only the required settings. *)
Definition default_service (outcomes : Email.Outcomes) : Email.EmailService :=
  Email.new_EmailService
    {| Email.defaultFrom := Email.AddrText "noreply@autamedica.com";
       Email.provider := Email.recorded_send outcomes;
       Email.enableLogging := None;
       Email.retryAttempts := None;
       Email.retryDelayMs := None |}.

Definition doctor_garcia : AppointmentEmails.EmailRecipient :=
  AppointmentEmails.mkRecipient "Dr. Garcia" "garcia@clinic.com"
    (Some AppointmentEmails.doctor_role).

Definition patient_juan : AppointmentEmails.EmailRecipient :=
  AppointmentEmails.mkRecipient "Juan Perez" "juan@email.com"
    (Some AppointmentEmails.patient_role).

Definition with_id (x : string) (a : Appointment) : Appointment :=
  {| id := x; patient_id := patient_id a; doctor_id := doctor_id a;
     starts_at := starts_at a; ends_at := ends_at a; status := status a;
     notes := notes a; created_at := created_at a; updated_at := updated_at a |}.

Definition with_status (st : AppointmentStatus) (a : Appointment) : Appointment :=
  {| id := id a; patient_id := patient_id a; doctor_id := doctor_id a;
     starts_at := starts_at a; ends_at := ends_at a; status := st;
     notes := notes a; created_at := created_at a; updated_at := updated_at a |}.

(** Three reminders, as in the tests of the module. *)
Definition batch : list AppointmentEmails.BatchItem :=
  [ AppointmentEmails.mkBatchItem appointment_X doctor_garcia patient_juan
      AppointmentEmails.H24;
    AppointmentEmails.mkBatchItem (with_id "apt-456" appointment_X) doctor_garcia
      (AppointmentEmails.mkRecipient "Maria Lopez" "maria@email.com"
         (Some AppointmentEmails.patient_role))
      AppointmentEmails.H2;
    AppointmentEmails.mkBatchItem (with_id "apt-789" appointment_X) doctor_garcia
      (AppointmentEmails.mkRecipient "Carlos Ruiz" "carlos@email.com"
         (Some AppointmentEmails.patient_role))
      AppointmentEmails.H24 ].

(** Templates that render a fixed page, an encoder that leaves the text
    as it is, and a fixed clock. *)
Definition plain_deps : AppointmentEmails.Deps :=
  {| AppointmentEmails.confirmationTemplate :=
       fun _ => Js.Ok "<html><body>Confirmation email content</body></html>";
     AppointmentEmails.reminderTemplate :=
       fun _ => Js.Ok "<html><body>Reminder email content</body></html>";
     AppointmentEmails.base64 := fun text => text;
     AppointmentEmails.rt := ICSGenerator.mkRuntime (-10800000) t_10_00 "k3j9x0q2" |}.

Definition sent_ok : Js.Result Email.EmailProviderResponse :=
  Js.Ok (Email.mkResponse (Some "msg-123") (Some Email.sent) None).

(** The second call is rejected, the others are answered. *)
Definition second_call_fails : Email.Outcomes :=
  fun k _ => if Nat.eqb k 1 then Js.Throw (Js.ErrorObj "Network error")
             else sent_ok.

Definition all_answered : Email.Outcomes := fun _ _ => sent_ok.


Definition unreachable : Backend :=
  mkBackend one_appointment (Some (Unavailable "Failed to fetch")).

End Samples.

(* ================================================================== *)
(** * The constraints of the table, as a property of its rows *)
(* ================================================================== *)

Module Constraints.
Import Types Database.

(** Two rows the exclusion constraint does not allow together: the same
    doctor and slots that overlap. *)
Definition clash (a b : Appointment) : bool :=
  String.eqb (doctor_id a) (doctor_id b) && range_overlaps (slot a) (slot b).

(** A table that satisfies its primary key, its row check and its
    exclusion constraint. *)
Definition consistent (t : Table) : Prop :=
  NoDup (map id t)
  /\ (forall a, In a t -> row_check a = true)
  /\ (forall a b, In a t -> In b t -> id a <> id b -> clash a b = false).

End Constraints.

(* ================================================================== *)
(** * Requests, with what the caller is told *)
(* ================================================================== *)

Module Requests.
Import Js Types Database Supabase Lifecycle.

Definition rejected {A} (r : Result A) : bool :=
  match r with
  | Throw _ => true
  | Ok _ => false
  end.

(** Serving a request: whether the call rejected, and the table it
    leaves. *)
Definition outcome (t : Table) (r : Request) : bool * Table :=
  let sb := mkBackend t (request_fault r) in
  let now := at_time r in
  match operation r with
  | HookCreate new_id input =>
      let res := Hooks.createAppointment now new_id sb input in
      (rejected (fst res), table (snd res))
  | HookUpdate appointments x input =>
      let res := Hooks.updateAppointment now appointments sb x input in
      (rejected (fst res), table (snd res))
  | HookDelete x =>
      let res := Hooks.deleteAppointment sb x in
      (rejected (fst res), table (snd res))
  | ServiceCreate new_id input =>
      let res := AppointmentsService.createAppointmentSafe now new_id sb input in
      (rejected (fst res), table (snd res))
  | ServiceUpdate x patch =>
      let res := AppointmentsService.updateAppointment now sb x patch in
      (rejected (fst res), table (snd res))
  | ServiceCancel x reason =>
      let res := AppointmentsService.cancelAppointment now sb x reason in
      (rejected (fst res), table (snd res))
  | ServiceConfirm x =>
      let res := AppointmentsService.confirmAppointment now sb x in
      (rejected (fst res), table (snd res))
  | ServiceComplete x notes' =>
      let res := AppointmentsService.completeAppointment now sb x notes' in
      (rejected (fst res), table (snd res))
  | ServiceNoShow x =>
      let res := AppointmentsService.markNoShow now sb x in
      (rejected (fst res), table (snd res))
  | ServiceReschedule x s e =>
      let res := AppointmentsService.rescheduleAppointment now sb x s e in
      (rejected (fst res), table (snd res))
  end.

(** How a statement changed the table: a row was inserted, a row was
    updated, or rows were deleted. *)
Inductive changed (now : Z) (t t' : Table) : Prop :=
| by_insert (a : Appointment) : insert_row t a = SqlOk t' -> changed now t t'
| by_update (x : string) (p : Patch) (rows : list Appointment) :
    update_row now t x p = SqlOk (t', rows) -> changed now t t'
| by_delete (x : string) : t' = delete_row t x -> changed now t t'.

(** What a step of the module can do: nothing, or report success with
    the table changed by one statement. *)
Definition step_shape (t : Table) (r : Request) : Prop :=
  snd (outcome t r) = t
  \/ (fst (outcome t r) = false /\ request_fault r = None
      /\ changed (at_time r) t (snd (outcome t r))).

End Requests.

(* ================================================================== *)
(** * More sample data *)
(* ================================================================== *)

Module Scenarios.
Import Types Supabase Lifecycle.

(** A second booking for the same doctor, 10:15 to 10:45. *)
Definition overlapping_booking : CreateAppointmentInput :=
  {| ci_patient_id := "patient-999"; ci_doctor_id := "doctor-789";
     ci_starts_at := Samples.t_10_15; ci_ends_at := Samples.t_10_45;
     ci_status := None; ci_notes := None |}.

(** A booking for the slot right after X, 10:30 to 11:00. *)
Definition adjacent_booking : CreateAppointmentInput :=
  {| ci_patient_id := "patient-999"; ci_doctor_id := "doctor-789";
     ci_starts_at := Samples.t_10_30; ci_ends_at := Samples.t_11_00;
     ci_status := None; ci_notes := None |}.

(** X, cancelled. *)
Definition cancelled_X : Database.Table :=
  [Samples.with_status cancelled Samples.appointment_X].

(** A day at the practice: a booking next to X, a booking across X, a
    confirmation, a move of X onto part of its own slot, a delete. *)
Definition busy_day : list Request :=
  [ mkRequest (HookCreate "apt-200" adjacent_booking) Samples.t_10_00 None;
    mkRequest (ServiceCreate "apt-201" overlapping_booking) Samples.t_10_00 None;
    mkRequest (ServiceConfirm "apt-200") Samples.t_10_05 None;
    mkRequest (ServiceReschedule "apt-123" Samples.t_10_05 Samples.t_10_30)
              Samples.t_10_05 None;
    mkRequest (ServiceCancel "apt-123" None) Samples.t_10_15
              (Some (Unavailable "Failed to fetch"));
    mkRequest (HookDelete "apt-200") Samples.t_10_45 None ].

(** The first call is rejected, the others are answered. *)
Definition first_call_fails : Email.Outcomes :=
  fun k _ => if Nat.eqb k 0 then Js.Throw (Js.ErrorObj "Temporary error")
             else Samples.sent_ok.

End Scenarios.

(* ================================================================== *)
(** * What a create stores *)
(* ================================================================== *)

Module Booking.
Import Types.

(** The row a create writes for [input], under the uuid and the time
    the database gives it. *)
Definition new_row (now : Z) (new_id : string) (input : CreateAppointmentInput)
  : Appointment :=
  {| id := new_id;
     patient_id := ci_patient_id input;
     doctor_id := ci_doctor_id input;
     starts_at := ci_starts_at input;
     ends_at := ci_ends_at input;
     status := match ci_status input with Some v => v | None => scheduled end;
     notes := ci_notes input;
     created_at := now;
     updated_at := now |}.

(** The slot of [b] meets the half-open range [[lo, hi)]. *)
Definition meets (b : Appointment) (lo hi : Z) : Prop :=
  starts_at b < hi /\ lo < ends_at b.

End Booking.

(* ================================================================== *)
(** * email.service.ts: batches *)
(* ================================================================== *)

Module EmailBatch.
Import Js Email.

(** The entry [sendBatch] pushes for an email whose send threw. *)
Definition failed_response (error : Thrown) : EmailProviderResponse :=
  {| messageId := None;
     resp_status := Some failed;
     resp_error := Some (message_or "Unknown error" error) |}.

(** The [for (const email of emails)] loop of [sendBatch], with the
    [results] array it fills. *)
Fixpoint sendBatch_loop (svc : EmailService) (emails : list SendEmailOptions)
    (results : list EmailProviderResponse) : M (list EmailProviderResponse) :=
  match emails with
  | [] => ret results
  | email :: rest =>
      response <- try_catch (send svc email)
                    (fun error => ret (failed_response error)) ;;
      sendBatch_loop svc rest (results ++ [response])
  end.

(** [async sendBatch(emails)] *)
Definition sendBatch (svc : EmailService) (emails : list SendEmailOptions)
  : M (list EmailProviderResponse) :=
  sendBatch_loop svc emails [].



End EmailBatch.

(* ================================================================== *)
(** * appointmentEmails.ts: the cancellation email *)
(* ================================================================== *)

Module CancellationEmail.
Import Js Types Email AppointmentEmails.









End CancellationEmail.

(* ================================================================== *)
(** * Sample emails *)
(* ================================================================== *)

Module EmailScenarios.
Import Types.


(** Dependencies whose reminder template throws. *)
Definition broken_template_deps : AppointmentEmails.Deps :=
  {| AppointmentEmails.confirmationTemplate :=
       AppointmentEmails.confirmationTemplate Samples.plain_deps;
     AppointmentEmails.reminderTemplate :=
       fun _ => Js.Throw (Js.ErrorObj "MJML compilation failed: boom");
     AppointmentEmails.base64 := AppointmentEmails.base64 Samples.plain_deps;
     AppointmentEmails.rt := AppointmentEmails.rt Samples.plain_deps |}.

End EmailScenarios.

(* ================================================================== *)
(** * Sample zones *)
(* ================================================================== *)

Module ZoneSamples.
Import Zones.

Definition MINUS_3H : Z := -10800000.
Definition MINUS_2H : Z := -7200000.

(** Buenos Aires from 2000 on, after the zone database: UTC-03:00, and
    UTC-02:00 from 2007-12-30 to 2008-03-16 and from 2008-10-19 to
    2009-03-15 (the changes at local midnight). *)
Definition buenos_aires : Zone :=
  {| initial_offset := MINUS_3H;
     changes := [ (1198983600000, MINUS_2H);
                  (1205632800000, MINUS_3H);
                  (1224385200000, MINUS_2H);
                  (1237082400000, MINUS_3H) ] |}.

(** A host that puts its clocks forward one hour at 2024-03-31 01:00
    UTC and back at 2024-10-27 01:00 UTC, from UTC+01:00. *)
Definition central_europe : Zone :=
  {| initial_offset := 3600000;
     changes := [ (1711846800000, 7200000);
                  (1729990800000, 3600000) ] |}.

(** 2008-01-15, 20:30 in Buenos Aires (22:30 UTC). *)
Definition summer_2008_evening : Z := 1200436200000.
(** 2008-01-15, 10:00 in Buenos Aires (12:00 UTC). *)
Definition summer_2008_morning : Z := 1200398400000.

End ZoneSamples.

(* ================================================================== *)
(** * Reading escaped calendar text back *)
(* ================================================================== *)

Module CalendarText.
Import Js.

(** What [escapeText] makes of one character. *)
Definition escaped_char (c : ascii) : string :=
  if Ascii.eqb c "\" then "\\"
  else if Ascii.eqb c ";" then "\;"
  else if Ascii.eqb c "," then "\,"
  else if Ascii.eqb c LF_char then "\n"
  else if Ascii.eqb c CR_char then ""
  else String c "".

(** The reader's side (RFC 5545, TEXT values): a backslash announces an
    escaped character, and [\n] stands for a line feed. *)
Fixpoint unescapeText (s : string) : string :=
  match s with
  | EmptyString => EmptyString
  | String x rest =>
      if Ascii.eqb x "\"
      then match rest with
           | EmptyString => String x EmptyString
           | String c r =>
               String (if Ascii.eqb c "n" then LF_char else c) (unescapeText r)
           end
      else String x (unescapeText rest)
  end.

(** The characters of [s] other than [c]. *)
Definition free_of (c : ascii) (s : string) : bool :=
  forallb (fun x => negb (Ascii.eqb x c)) (list_ascii_of_string s).

End CalendarText.

(* ================================================================== *)
(** * AppointmentsService: listings and statistics *)
(* ================================================================== *)

Module AppointmentsQueries.
Import Js Types Database Supabase.

(** [AppointmentFilters]; the dates are the instants of the ISO texts
    the callers pass. *)
Record AppointmentFilters : Type := mkFilters {
  f_patient_id : option string;
  f_doctor_id : option string;
  f_status : option (list AppointmentStatus);
  f_date_from : option Z;
  f_date_to : option Z;
  f_limit : option Z;
  f_offset : option Z
}.

Definition no_filters : AppointmentFilters :=
  mkFilters None None None None None None None.

Definition q_eq_patient (p : string) (q : Query) : Query :=
  fun a => q a && String.eqb (patient_id a) p.
Definition q_in_status (l : list AppointmentStatus) (q : Query) : Query :=
  fun a => q a && existsb (status_eqb (status a)) l.
Definition q_gte_starts_at (lo : Z) (q : Query) : Query :=
  fun a => q a && (starts_at a >=? lo).
Definition q_lte_starts_at (hi : Z) (q : Query) : Query :=
  fun a => q a && (starts_at a <=? hi).

(** The chain of [if (filters.x) q = q.…] lines. *)
Definition list_query (filters : AppointmentFilters) : Query :=
  let q := q_all in
  let q := match f_patient_id filters with
           | Some p => if truthy p then q_eq_patient p q else q
           | None => q
           end in
  let q := match f_doctor_id filters with
           | Some d => if truthy d then q_eq_doctor d q else q
           | None => q
           end in
  let q := match f_status filters with
           | Some l => if (0 <? List.length l)%nat then q_in_status l q else q
           | None => q
           end in
  let q := match f_date_from filters with
           | Some lo => q_gte_starts_at lo q
           | None => q
           end in
  let q := match f_date_to filters with
           | Some hi => q_lte_starts_at hi q
           | None => q
           end in
  q.

(** [.order('starts_at', { ascending: true })]; rows that start together
    keep the order of the table. *)
Fixpoint insert_by_start (a : Appointment) (l : list Appointment)
  : list Appointment :=
  match l with
  | [] => [a]
  | b :: rest =>
      if starts_at a <=? starts_at b
      then a :: b :: rest
      else b :: insert_by_start a rest
  end.

Definition order_by_starts_at (l : list Appointment) : list Appointment :=
  fold_right insert_by_start [] l.

Section Listing.
(** [q.range(from, to)] of the query builder, whose code is not part of
    the repository. *)
Variable range : Z -> Z -> list Appointment -> SqlResult (list Appointment).

(** [static async listAppointments(filters = {})] *)
Definition listAppointments (sb : Backend) (filters : AppointmentFilters)
  : Result (option (list Appointment)) :=
  AppointmentsService.data_or_throw "Error listando citas"
    (respond sb
       (fun t =>
          let rows := order_by_starts_at (filter (list_query filters) t) in
          match f_limit filters, f_offset filters with
          | Some limit, Some offset =>
              if negb (limit =? 0)
              then range offset (offset + limit - 1) rows
              else SqlOk rows
          | _, _ => SqlOk rows
          end)).

(** [date.setHours(h, m, s, ms)] in the host zone at [host]. *)
Definition setHours (host : Z) (date h m s ms : Z) : Z :=
  Clock.MS_PER_DAY * (Clock.wall host date / Clock.MS_PER_DAY)
  + h * Clock.MS_PER_HOUR + m * 60000 + s * Clock.MS_PER_SECOND + ms - host.

(** [static async getDoctorDaySchedule(doctorId, date = new Date())] *)
Definition getDoctorDaySchedule (host : Z) (sb : Backend) (doctorId : string)
    (date : Z) : Result (option (list Appointment)) :=
  let startOfDay := setHours host date 0 0 0 0 in
  let endOfDay := setHours host date 23 59 59 999 in
  listAppointments sb
    {| f_patient_id := None; f_doctor_id := Some doctorId; f_status := None;
       f_date_from := Some startOfDay; f_date_to := Some endOfDay;
       f_limit := None; f_offset := None |}.

(** [static async getPatientUpcoming(patientId, limit = 10)]; [now] is
    the reading of [new Date()]. *)
Definition getPatientUpcoming (now : Z) (sb : Backend) (patientId : string)
    (limit : Z) : Result (option (list Appointment)) :=
  listAppointments sb
    {| f_patient_id := Some patientId; f_doctor_id := None;
       f_status := Some [scheduled; confirmed];
       f_date_from := Some now; f_date_to := None;
       f_limit := Some limit; f_offset := None |}.

Record Stats : Type := mkStats {
  s_total : nat;
  s_scheduled : nat;
  s_confirmed : nat;
  s_completed : nat;
  s_cancelled : nat;
  s_noShow : nat
}.

(** [appointments.filter(a => a.status === s).length] *)
Definition count_status (s : AppointmentStatus) (appointments : list Appointment)
  : nat :=
  List.length (filter (fun a => status_eqb (status a) s) appointments).

(** [static async getStats(doctorId?, patientId?)] *)
Definition getStats (sb : Backend) (doctorId patientId : option string)
  : Result Stats :=
  let filters :=
    {| f_patient_id := if truthy_opt patientId then patientId else None;
       f_doctor_id := if truthy_opt doctorId then doctorId else None;
       f_status := None; f_date_from := None; f_date_to := None;
       f_limit := None; f_offset := None |} in
  match listAppointments sb filters with
  | Throw e => Throw e
  | Ok None =>
      Throw (ErrorObj "Cannot read properties of null (reading 'length')")
  | Ok (Some appointments) =>
      Ok {| s_total := List.length appointments;
            s_scheduled := count_status scheduled appointments;
            s_confirmed := count_status confirmed appointments;
            s_completed := count_status completed appointments;
            s_cancelled := count_status cancelled appointments;
            s_noShow := count_status no_show appointments |}
  end.

End Listing.

(** A [range] that keeps the rows from index [from] to index [to]. *)
Definition range_rows (from to : Z) (rows : list Appointment)
  : SqlResult (list Appointment) :=
  SqlOk (firstn (Z.to_nat (to - from + 1)) (skipn (Z.to_nat from) rows)).

End AppointmentsQueries.

(* ================================================================== *)
(** * packages/utils: generateTimeSlots *)
(* ================================================================== *)

Module TimeSlots.
Import Js.

Record Slot : Type := mkSlot {
  value : Z;      (* the instant of the ISO text *)
  label : string
}.

Section Slots.
(** The host's offset from UTC, in milliseconds. *)
Variable host : Z.
(** [America/Argentina/Buenos_Aires] as the zone database has it. *)
Variable argentina : Zones.Zone.
(** [formatTimeForArgentina], the locale's rendering of the time. *)
Variable formatTimeForArgentina : Z -> string.

Definition slot_at (baseDate hour minute : Z) : Slot :=
  let slotDate := AppointmentsQueries.setHours host baseDate hour minute 0 0 in
  {| value := slotDate; label := formatTimeForArgentina slotDate |}.

(** [for (let minute = …; minute < 60; minute += intervalMinutes)]:
    [None] when the loop has not ended after [fuel] tests of its
    condition. *)
Fixpoint minute_loop (fuel : nat) (baseDate hour intervalMinutes minute : Z)
    (slots : list Slot) : option (list Slot) :=
  match fuel with
  | O => None
  | S fuel' =>
      if minute <? 60
      then minute_loop fuel' baseDate hour intervalMinutes
             (minute + intervalMinutes)
             (slots ++ [slot_at baseDate hour minute])%list
      else Some slots
  end.

(** [for (let hour = …; hour < endHour; hour++)], [count] hours to go. *)
Fixpoint hour_loop (fuel : nat) (baseDate intervalMinutes : Z) (count : nat)
    (hour : Z) (slots : list Slot) : option (list Slot) :=
  match count with
  | O => Some slots
  | S count' =>
      match minute_loop fuel baseDate hour intervalMinutes 0 slots with
      | None => None
      | Some slots' =>
          hour_loop fuel baseDate intervalMinutes count' (hour + 1) slots'
      end
  end.

(** [generateTimeSlots(date, startHour = 8, endHour = 20,
    intervalMinutes = 30)], for whole numbers. *)
Definition generateTimeSlots (fuel : nat) (date startHour endHour
    intervalMinutes : Z) : option (list Slot) :=
  let baseDate :=
    AppointmentsQueries.setHours host
      (TimePolicy.toArgentinaTimezone (Zones.fixed host) argentina date)
      0 0 0 0 in
  hour_loop fuel baseDate intervalMinutes (Z.to_nat (endHour - startHour))
    startHour [].

(** Passes of the inner loop from [minute] on, for a positive step. *)
Definition remaining (intervalMinutes minute : Z) : nat :=
  if minute <? 60 then Z.to_nat ((59 - minute) / intervalMinutes + 1) else O.

(** The slots of one hour from [minute] on. *)
Definition slots_of_hour (baseDate hour intervalMinutes minute : Z)
  : list Slot :=
  map (fun k => slot_at baseDate hour (minute + Z.of_nat k * intervalMinutes))
    (seq 0 (remaining intervalMinutes minute)).

End Slots.

End TimeSlots.

(* ================================================================== *)
(** * Properties *)
(* ================================================================== *)

(** ** The date arithmetic and the string helpers on known values *)

Example civil_epoch : Clock.civil_of_days 0 = (1970, 1, 1).
Proof. reflexivity. Qed.
Example civil_2024_01_15 : Clock.civil_of_days 19737 = (2024, 1, 15).
Proof. reflexivity. Qed.
Example civil_leap_day : Clock.civil_of_days 19782 = (2024, 2, 29).
Proof. reflexivity. Qed.
Example civil_before_epoch : Clock.civil_of_days (-1) = (1969, 12, 31).
Proof. reflexivity. Qed.
Example string_of_Z_0 : Js.string_of_Z 0 = "0".
Proof. reflexivity. Qed.
Example string_of_Z_2024 : Js.string_of_Z 2024 = "2024".
Proof. reflexivity. Qed.
Example string_of_nat_3 : Js.string_of_nat 3 = "3"%string.
Proof. reflexivity. Qed.
Example padStart_7 : Js.padStart 2 "0" (Js.string_of_Z 7) = "07".
Proof. reflexivity. Qed.
Example replace_first_ex : Js.replace_first "Tu cita" "La cita" "x Tu cita, Tu cita" = "x La cita, Tu cita".
Proof. reflexivity. Qed.
Example replace_first_dollar :
  Js.replace_first "Juan" "Dr. $& ($$)" "Hola Juan, Juan" = "Hola Dr. Juan ($), Juan".
Proof. reflexivity. Qed.
Example replace_first_absent : Js.replace_first "Ana" "Eva" "Hola Juan" = "Hola Juan".
Proof. reflexivity. Qed.

(* ================================================================== *)
(** * Time policy *)
(* ================================================================== *)

Section TimePolicyFacts.
Import Clock Zones TimePolicy.

(** Dropping the milliseconds of a reading does not change any field
    that is a whole number of seconds. *)
Lemma whole_seconds_div (w k : Z) :
  0 < k -> (MS_PER_SECOND * (w / MS_PER_SECOND)) / (MS_PER_SECOND * k) = w / (MS_PER_SECOND * k).
Proof.
  intro Hk. unfold MS_PER_SECOND.
  rewrite Z.div_mul_cancel_l by lia.
  rewrite Z.div_div by lia. reflexivity.
Qed.

Lemma hours_of_whole_seconds (w : Z) :
  hours_of (MS_PER_SECOND * (w / MS_PER_SECOND)) = hours_of w.
Proof.
  unfold hours_of. change MS_PER_HOUR with (MS_PER_SECOND * 3600).
  rewrite whole_seconds_div by lia. reflexivity.
Qed.

Lemma weekday_of_whole_seconds (w : Z) :
  weekday_of (MS_PER_SECOND * (w / MS_PER_SECOND)) = weekday_of w.
Proof.
  unfold weekday_of. change MS_PER_DAY with (MS_PER_SECOND * 86400).
  rewrite whole_seconds_div by lia. reflexivity.
Qed.

(** A host without zone changes reads every wall-clock time back as it
    was written. *)
Lemma fixed_host_reads_back (host : Zone) (w : Z) :
  changes host = [] ->
  utc_of host w = w - initial_offset host
  /\ local_time host (utc_of host w) = w.
Proof.
  intro H. unfold utc_of, local_time, offset_at. rewrite H.
  cbn [utc_from offset_from]. split; lia.
Qed.

(** On a host where the reading of [t] in Argentina exists as a local
    time, the fields the predicates look at are those of that reading. *)
Lemma getHours_toArgentinaTimezone (host argentina : Zone) (t : Z) :
  local_time host (utc_of host (MS_PER_SECOND * (local_time argentina t / MS_PER_SECOND)))
  = MS_PER_SECOND * (local_time argentina t / MS_PER_SECOND) ->
  Zones.getHours host (toArgentinaTimezone host argentina t)
  = hours_of (local_time argentina t).
Proof.
  intro H. unfold Zones.getHours, toArgentinaTimezone, reparse_in_zone.
  rewrite H. apply hours_of_whole_seconds.
Qed.

Lemma getDay_toArgentinaTimezone (host argentina : Zone) (t : Z) :
  local_time host (utc_of host (MS_PER_SECOND * (local_time argentina t / MS_PER_SECOND)))
  = MS_PER_SECOND * (local_time argentina t / MS_PER_SECOND) ->
  Zones.getDay host (toArgentinaTimezone host argentina t)
  = weekday_of (local_time argentina t).
Proof.
  intro H. unfold Zones.getDay, toArgentinaTimezone, reparse_in_zone.
  rewrite H. apply weekday_of_whole_seconds.
Qed.

(** On a host without zone changes the comparison of
    [isFutureInArgentina] is a comparison of the whole seconds of the
    two readings in Argentina. *)
Lemma isFutureInArgentina_seconds (host argentina : Zone) (now t : Z) :
  changes host = [] ->
  isFutureInArgentina host argentina now t = true
  <-> local_time argentina now / 1000 < local_time argentina t / 1000.
Proof.
  intro H.
  unfold isFutureInArgentina, toArgentinaTimezone, nowInArgentina, reparse_in_zone.
  rewrite !(proj1 (fixed_host_reads_back host _ H)).
  unfold MS_PER_SECOND. rewrite Z.gtb_ltb, Z.ltb_lt. lia.
Qed.

Lemma seconds_lt_instants (now t : Z) : now / 1000 < t / 1000 -> now < t.
Proof.
  intro H.
  pose proof (Z.mul_div_le t 1000 ltac:(lia)).
  pose proof (Z.mod_pos_bound now 1000 ltac:(lia)).
  pose proof (Z.div_mod now 1000 ltac:(lia)).
  lia.
Qed.

Lemma isValidMedicalHour_local_hour (host : Z) (argentina : Zone) (t : Z) :
  isValidMedicalHour (fixed host) argentina t = true
  <-> 8 <= hours_of (local_time argentina t) < 20.
Proof.
  unfold isValidMedicalHour. cbv zeta.
  rewrite getHours_toArgentinaTimezone
    by (apply (fixed_host_reads_back (fixed host)); reflexivity).
  rewrite andb_true_iff, Z.geb_le, Z.ltb_lt. tauto.
Qed.

(** C9, as the sources have it.  The zone is Argentina's as the zone
    database of the runtime gives it, and the predicates go through a
    text in that zone that the host reads back.  On a host where that
    reading exists as a local time (every reading does on a host
    without zone changes): [isWeekday t] holds exactly when the local
    day of [t] is Monday (1) to Friday (5), and [isValidMedicalHour t]
    exactly when the local hour of [t] is in [8, 20).  On a host
    without zone changes, [isFutureInArgentina t] holds exactly when
    the whole second of the reading of [t] is after the whole second of
    the reading of the current time; when Argentina's offset is the
    same at both instants this implies that [t] is strictly after the
    current time, but (the offset being a whole number of seconds) an
    instant later within the same second is not reported as future.  The three are total functions to [bool]: they
    change nothing and cannot fail. *)
Theorem time_policy_predicates (host argentina : Zone) (now t : Z) :
  let reading d := MS_PER_SECOND * (local_time argentina d / MS_PER_SECOND) in
  (local_time host (utc_of host (reading t)) = reading t ->
   (isWeekday host argentina t = true
      <-> 1 <= weekday_of (local_time argentina t) <= 5)
   /\ (isValidMedicalHour host argentina t = true
         <-> 8 <= hours_of (local_time argentina t) < 20))
  /\ (changes host = [] ->
      local_time host (utc_of host (reading t)) = reading t
      /\ (isFutureInArgentina host argentina now t = true
            <-> local_time argentina now / 1000 < local_time argentina t / 1000)
      /\ (offset_at argentina t = offset_at argentina now ->
          (isFutureInArgentina host argentina now t = true -> now < t)
          /\ (offset_at argentina now mod 1000 = 0 ->
              now / 1000 = t / 1000 ->
              isFutureInArgentina host argentina now t = false))).
Proof.
  cbv zeta. split.
  - intro Hread. split.
    + unfold isWeekday. cbv zeta. rewrite (getDay_toArgentinaTimezone _ _ _ Hread).
      rewrite andb_true_iff, Z.geb_le, Z.leb_le. tauto.
    + unfold isValidMedicalHour. cbv zeta.
      rewrite (getHours_toArgentinaTimezone _ _ _ Hread).
      rewrite andb_true_iff, Z.geb_le, Z.ltb_lt. tauto.
  - intro Hfixed. split; [apply fixed_host_reads_back, Hfixed|].
    split; [apply isFutureInArgentina_seconds, Hfixed|].
    intro Hsame. split.
    + intro H. apply (isFutureInArgentina_seconds _ _ _ _ Hfixed) in H.
      apply seconds_lt_instants in H. unfold local_time in H. lia.
    + intros Hwhole Hsec.
      destruct (isFutureInArgentina host argentina now t) eqn:E; [|reflexivity].
      apply (isFutureInArgentina_seconds _ _ _ _ Hfixed) in E.
      exfalso. unfold local_time in E. rewrite Hsame in E.
      revert E Hwhole. generalize (offset_at argentina now). intros o E Hwhole.
      pose proof (Z.div_mod o 1000 ltac:(lia)) as Ho. rewrite Hwhole in Ho.
      replace (now + o) with (now + (o / 1000) * 1000) in E by lia.
      replace (t + o) with (t + (o / 1000) * 1000) in E by lia.
      rewrite !Z.div_add in E by lia. lia.
Qed.

(** An instant half a second after the current time, in the same
    second, is strictly after it and yet not reported as future. *)
Lemma isFuture_same_second_counterexample :
  1705312800000 < 1705312800500
  /\ isFutureInArgentina (fixed 0) ZoneSamples.buenos_aires
       1705312800000 1705312800500 = false.
Proof. split; [lia | reflexivity]. Qed.

(** 2008-01-15 at 22:30 UTC is 20:30 in Buenos Aires, which was at
    UTC-02:00 that summer: outside medical hours, though 19:30 at
    UTC-03:00 would be inside. *)
Example isValidMedicalHour_summer_2008 :
  isValidMedicalHour (fixed 0) ZoneSamples.buenos_aires
    ZoneSamples.summer_2008_evening = false
  /\ isValidMedicalHour (fixed 0) (fixed ZoneSamples.MINUS_3H)
       ZoneSamples.summer_2008_evening = true.
Proof. split; reflexivity. Qed.

(** On a host that puts its clocks forward, a reading inside the hour
    that is skipped is read back after later readings: here [t] is two
    minutes before the current time and is reported as future. *)
Example isFuture_on_daylight_saving_host :
  1711864740000 < 1711864860000
  /\ isFutureInArgentina ZoneSamples.central_europe ZoneSamples.buenos_aires
       1711864860000 1711864740000 = true.
Proof. split; [lia | reflexivity]. Qed.

End TimePolicyFacts.

(* ================================================================== *)
(** * Overlap detection *)
(* ================================================================== *)

Section OverlapFacts.
Import Js Types Database Supabase Hooks Spec.

Lemma status_eqb_eq (a b : AppointmentStatus) : status_eqb a b = true <-> a = b.
Proof. destruct a, b; simpl; split; intro H; try reflexivity; discriminate. Qed.

Lemma status_eqb_neq (a b : AppointmentStatus) : status_eqb a b = false <-> a <> b.
Proof.
  split.
  - intros H E. apply status_eqb_eq in E. congruence.
  - intro N. destruct (status_eqb a b) eqn:E; [|reflexivity].
    apply status_eqb_eq in E. contradiction.
Qed.

(** The filters common to every call keep exactly the rows of the
    doctor that are not cancelled and meet the range. *)
Lemma base_query_true (startsAt endsAt : Z) (doctorId : string) (a : Appointment) :
  q_intersects startsAt endsAt
    (q_neq_status cancelled (q_eq_doctor doctorId q_all)) a = true
  <-> doctor_id a = doctorId /\ status a <> cancelled
      /\ starts_at a < endsAt /\ ends_at a > startsAt.
Proof.
  unfold q_intersects, q_neq_status, q_eq_doctor, q_all.
  rewrite !andb_true_iff, negb_true_iff, status_eqb_neq,
    String.eqb_eq, Z.ltb_lt, Z.gtb_ltb, Z.ltb_lt.
  intuition lia.
Qed.



(** What the check returns when the storage request goes through. *)
Lemma validateAppointmentOverlap_healthy (t : Table) (startsAt endsAt : Z)
    (doctorId : string) (excludeId : option string) :
  validateAppointmentOverlap (mkBackend t None) startsAt endsAt doctorId excludeId
  = let rows := map selected_columns
                  (filter (overlap_query startsAt endsAt doctorId excludeId) t) in
    Ok {| hasOverlap := (0 <? List.length rows)%nat;
          conflictingAppointments := rows;
          message := if (0 <? List.length rows)%nat
                     then Some (overlap_message (List.length rows))
                     else None |}.
Proof. reflexivity. Qed.








(** A cancelled appointment still counts for the stored procedure, and
    so for the service's [checkOverlap]. *)
Example checkOverlap_counts_cancelled :
  hasOverlap_of_service
    (AppointmentsService.checkOverlap
       (mkBackend [Samples.with_status cancelled Samples.appointment_X] None)
       "doctor-789" Samples.t_10_15 Samples.t_10_45 None)
  = Some true.
Proof. reflexivity. Qed.

(** C10.  The overlap check never throws: it always returns a result;
    and when the storage request fails, whichever way, the result says
    no overlap, lists no conflict, and carries the text of the failure
    as its message. *)
Theorem validateAppointmentOverlap_never_throws :
  (forall sb startsAt endsAt doctorId excludeId,
      exists v,
        validateAppointmentOverlap sb startsAt endsAt doctorId excludeId = Ok v)
  /\ (forall t f startsAt endsAt doctorId excludeId,
        validateAppointmentOverlap (mkBackend t (Some f))
          startsAt endsAt doctorId excludeId
        = Ok {| hasOverlap := false;
                conflictingAppointments := [];
                message :=
                  Some (match f with
                        | Unavailable m => m
                        | Rejects e => message_or "Error validando solapamientos" e
                        end) |}).
Proof.
  split.
  - intros [t [f|]] startsAt endsAt doctorId excludeId.
    + destruct f; eexists; reflexivity.
    + rewrite validateAppointmentOverlap_healthy. eexists. reflexivity.
  - intros t [m|e] startsAt endsAt doctorId excludeId; reflexivity.
Qed.

(** A request whose range is reversed (10:15 down to 10:05) gets an
    ordinary result, here a reported conflict, not an error. *)
Lemma reversed_range_counterexample :
  Samples.t_10_05 <= Samples.t_10_15
  /\ validateAppointmentOverlap Samples.healthy Samples.t_10_15 Samples.t_10_05
       "doctor-789" None
     = Ok {| hasOverlap := true;
             conflictingAppointments := [selected_columns Samples.appointment_X];
             message :=
               Some "Conflicto de horario detectado. Hay 1 cita(s) en ese horario." |}.
Proof. split; [discriminate | reflexivity]. Qed.

(** C6, as the sources have it.  The overlap check does not validate
    its range: when [endsAt <= startsAt] it still returns an ordinary
    result, and with the storage request answered the conflicts it lists
    are the rows the same query keeps. *)
Theorem validateAppointmentOverlap_accepts_any_range
    (sb : Backend) (startsAt endsAt : Z) (doctorId : string)
    (excludeId : option string) :
  endsAt <= startsAt ->
  exists v,
    validateAppointmentOverlap sb startsAt endsAt doctorId excludeId = Ok v
    /\ (fault sb = None ->
        conflictingAppointments v
        = map selected_columns
            (filter (overlap_query startsAt endsAt doctorId excludeId) (table sb))).
Proof.
  intros _. destruct sb as [t [f|]].
  - destruct f; eexists; (split; [reflexivity | discriminate]).
  - rewrite validateAppointmentOverlap_healthy. eexists.
    split; [reflexivity | intros _; reflexivity].
Qed.

Lemma validateAppointmentOverlap_accepts_any_range_witness :
  Samples.t_10_15 <= Samples.t_10_15
  /\ exists v,
       validateAppointmentOverlap Samples.healthy Samples.t_10_15 Samples.t_10_15
         "doctor-789" None = Ok v
       /\ (fault Samples.healthy = None ->
           conflictingAppointments v
           = map selected_columns
               (filter (overlap_query Samples.t_10_15 Samples.t_10_15
                          "doctor-789" None)
                       (table Samples.healthy))).
Proof.
  split; [discriminate|].
  apply (validateAppointmentOverlap_accepts_any_range Samples.healthy
           Samples.t_10_15 Samples.t_10_15 "doctor-789" None).
  discriminate.
Defined.

(** The message of the hook is not the wording of section 4.2 of the
    specification. *)
Lemma overlap_message_counterexample :
  validateAppointmentOverlap Samples.healthy Samples.t_10_15 Samples.t_10_45
    "doctor-789" None
  = Ok {| hasOverlap := true;
          conflictingAppointments := [selected_columns Samples.appointment_X];
          message :=
            Some "Conflicto de horario detectado. Hay 1 cita(s) en ese horario." |}
  /\ "Conflicto de horario detectado. Hay 1 cita(s) en ese horario."
     <> "Conflicto detectado: 1 cita(s) en ese horario".
Proof. split; [reflexivity | discriminate]. Qed.

(** C7, as the sources have it.  With the storage request answered, the
    hook reports [hasOverlap] exactly when it found N > 0 conflicts, and
    then its message is "Conflicto de horario detectado. Hay N cita(s)
    en ese horario."; with no conflict the message is absent.  The
    service's [checkOverlap], when it returns, reports the same flag
    with the message "Conflicto detectado: N cita(s) en ese horario",
    and none without conflicts. *)
Theorem overlap_result_message
    (t : Table) (startsAt endsAt : Z) (doctorId : string)
    (excludeId : option string) :
  (exists v,
     validateAppointmentOverlap (mkBackend t None) startsAt endsAt doctorId excludeId
       = Ok v
     /\ hasOverlap v = (0 <? List.length (conflictingAppointments v))%nat
     /\ message v
        = if (0 <? List.length (conflictingAppointments v))%nat
          then Some ("Conflicto de horario detectado. Hay "
                       ++ string_of_nat (List.length (conflictingAppointments v))
                       ++ " cita(s) en ese horario.")
          else None)
  /\ (forall v,
        AppointmentsService.checkOverlap (mkBackend t None)
          doctorId startsAt endsAt excludeId = Ok v ->
        hasOverlap v = (0 <? List.length (conflictingAppointments v))%nat
        /\ message v
           = if (0 <? List.length (conflictingAppointments v))%nat
             then Some ("Conflicto detectado: "
                          ++ string_of_nat (List.length (conflictingAppointments v))
                          ++ " cita(s) en ese horario")
             else None).
Proof.
  split.
  - rewrite validateAppointmentOverlap_healthy. cbv zeta. eexists.
    split; [reflexivity|]. split; reflexivity.
  - intros v. unfold AppointmentsService.checkOverlap, respond,
      AppointmentsService.data_or_throw. cbn [fault table].
    destruct (check_appointment_overlap t doctorId startsAt endsAt) as [rows|m];
      [|discriminate].
    intro H. inversion H. subst v. clear H. split; reflexivity.
Qed.

(** The service on the same request: one conflict, in its own wording. *)
Example checkOverlap_message_example :
  AppointmentsService.checkOverlap Samples.healthy "doctor-789"
    Samples.t_10_15 Samples.t_10_45 None
  = Ok {| hasOverlap := true;
          conflictingAppointments := [conflict_of_row Samples.appointment_X];
          message := Some "Conflicto detectado: 1 cita(s) en ese horario" |}.
Proof. reflexivity. Qed.

(** The slot right after X, [10:30, 11:00), is free. *)
Example adjacent_slot_is_free :
  validateAppointmentOverlap Samples.healthy Samples.t_10_30 Samples.t_11_00
    "doctor-789" None
  = Ok {| hasOverlap := false; conflictingAppointments := []; message := None |}.
Proof. reflexivity. Qed.

(** Validating a move of X itself leaves X out of the conflicts. *)
Example own_slot_is_excluded :
  validateAppointmentOverlap Samples.healthy Samples.t_10_15 Samples.t_10_45
    "doctor-789" (Some "apt-123")
  = Ok {| hasOverlap := false; conflictingAppointments := []; message := None |}.
Proof. reflexivity. Qed.

(** With the storage unreachable the same request reports no overlap. *)
Example unreachable_storage_reports_no_overlap :
  validateAppointmentOverlap Samples.unreachable Samples.t_10_15 Samples.t_10_45
    "doctor-789" None
  = Ok {| hasOverlap := false; conflictingAppointments := [];
          message := Some "Failed to fetch" |}.
Proof. reflexivity. Qed.

End OverlapFacts.

(* ================================================================== *)
(** * Persistence of appointments *)
(* ================================================================== *)

Section PersistenceFacts.
Import Js Types Database Supabase Lifecycle.

Lemma keeps_ids_refl (t : Table) : keeps_ids t t.
Proof. intros x H. exact H. Qed.

Lemma patched_id (now : Z) (p : Patch) (a : Appointment) :
  id (patched now p a) = id a.
Proof. reflexivity. Qed.

Lemma replace_row_ids (a' : Appointment) (t : Table) :
  ids (replace_row a' t) = ids t.
Proof.
  unfold ids, replace_row. rewrite map_map. apply map_ext_in.
  intros a _. destruct (has_id (id a') a) eqn:E; [|reflexivity].
  unfold has_id in E. apply String.eqb_eq in E. symmetry. exact E.
Qed.

Lemma update_row_ids (now : Z) (t t' : Table) (x : string) (p : Patch)
    (rows : list Appointment) :
  update_row now t x p = SqlOk (t', rows) -> ids t' = ids t.
Proof.
  unfold update_row. destruct (find_row x t) as [a|].
  - destruct (slot_error (patched now p a)); [discriminate|].
    destruct (negb (row_check (patched now p a))); [discriminate|].
    destruct (excluded_by (without_id x t) (patched now p a)); [discriminate|].
    intro H. inversion H. apply replace_row_ids.
  - intro H. inversion H. reflexivity.
Qed.

Lemma insert_row_ids (t t' : Table) (a : Appointment) :
  insert_row t a = SqlOk t' -> ids t' = (ids t ++ [id a])%list.
Proof.
  unfold insert_row.
  destruct (slot_error a); [discriminate|].
  destruct (negb (row_check a)); [discriminate|].
  destruct (existsb (has_id (id a)) t); [discriminate|].
  destruct (excluded_by t a); [discriminate|].
  intro H. inversion H. unfold ids. rewrite map_app. reflexivity.
Qed.

(** A write keeps the ids when its statement does. *)
Lemma perform_keeps_ids {A} (sb : Backend) (statement : Table -> SqlResult (Table * A)) :
  (forall t' a, statement (table sb) = SqlOk (t', a) -> keeps_ids (table sb) t') ->
  keeps_ids (table sb) (table (snd (perform sb statement))).
Proof.
  intro H. unfold perform. destruct (fault sb) as [[m|e]|].
  - apply keeps_ids_refl.
  - apply keeps_ids_refl.
  - destruct (statement (table sb)) as [[t' a]|m] eqn:E.
    + simpl. apply (H t' a). reflexivity.
    + apply keeps_ids_refl.
Qed.

Lemma single_update_keeps_ids (now : Z) (sb : Backend) (x : string) (p : Patch) :
  keeps_ids (table sb)
    (table (snd (perform sb (fun t => single (update_row now t x p))))).
Proof.
  apply perform_keeps_ids. intros t' a. unfold single.
  destruct (update_row now (table sb) x p) as [[t0 rows]|m] eqn:E; [|discriminate].
  destruct rows as [|r [|r' rows]]; try discriminate.
  intro H. inversion H. subst. intros y Hy.
  rewrite (update_row_ids _ _ _ _ _ _ E). exact Hy.
Qed.

Lemma update_one_keeps_ids (context : string) (now : Z) (sb : Backend)
    (x : string) (p : Patch) :
  keeps_ids (table sb)
    (table (snd (AppointmentsService.update_one context now sb x p))).
Proof.
  unfold AppointmentsService.update_one.
  pose proof (single_update_keeps_ids now sb x p) as H.
  destruct (perform sb (fun t => single (update_row now t x p))) as [reply sb'].
  exact H.
Qed.

Lemma service_update_keeps_ids (now : Z) (sb : Backend) (x : string)
    (patch : UpdateAppointmentInput) :
  keeps_ids (table sb)
    (table (snd (AppointmentsService.updateAppointment now sb x patch))).
Proof.
  unfold AppointmentsService.updateAppointment.
  match goal with |- context [match ?g with Ok _ => _ | Throw _ => _ end] =>
    destruct g end.
  - apply update_one_keeps_ids.
  - apply keeps_ids_refl.
Qed.

Lemma hook_create_keeps_ids (now : Z) (new_id : string) (sb : Backend)
    (input : CreateAppointmentInput) :
  keeps_ids (table sb) (table (snd (Hooks.createAppointment now new_id sb input))).
Proof.
  unfold Hooks.createAppointment.
  destruct (Hooks.validateAppointmentOverlap sb (ci_starts_at input)
              (ci_ends_at input) (ci_doctor_id input) None) as [overlap|e].
  - destruct (hasOverlap overlap); [apply keeps_ids_refl|].
    match goal with |- context [perform sb ?st] =>
      pose proof (perform_keeps_ids sb st) as H; destruct (perform sb st) end.
    apply H. intros t' a.
    match goal with |- context [insert_row ?t ?r] =>
      destruct (insert_row t r) as [t0|m] eqn:E end; [|discriminate].
    intro H0. inversion H0. subst. intros y Hy.
    rewrite (insert_row_ids _ _ _ E). apply in_or_app. now left.
  - apply keeps_ids_refl.
Qed.

Lemma hook_update_keeps_ids (now : Z) (appointments : list Appointment)
    (sb : Backend) (x : string) (input : UpdateAppointmentInput) :
  keeps_ids (table sb)
    (table (snd (Hooks.updateAppointment now appointments sb x input))).
Proof.
  unfold Hooks.updateAppointment.
  match goal with |- context [match ?g with Ok _ => _ | Throw _ => _ end] =>
    destruct g end.
  - pose proof (single_update_keeps_ids now sb x (Hooks.patch_of_input input)) as H.
    destruct (perform sb (fun t => single (update_row now t x (Hooks.patch_of_input input)))).
    exact H.
  - apply keeps_ids_refl.
Qed.

Lemma service_create_keeps_ids (now : Z) (new_id : string) (sb : Backend)
    (input : CreateAppointmentInput) :
  keeps_ids (table sb)
    (table (snd (AppointmentsService.createAppointmentSafe now new_id sb input))).
Proof.
  unfold AppointmentsService.createAppointmentSafe.
  match goal with |- context [perform sb ?st] =>
    pose proof (perform_keeps_ids sb st) as H; destruct (perform sb st) end.
  apply H. intros t' a. unfold create_appointment_safe.
  destruct (tstzrange (ci_starts_at input) (ci_ends_at input)); [|discriminate].
  match goal with |- context [if ?c then _ else _] => destruct c end;
    [discriminate|].
  match goal with |- context [insert_row ?t ?r] =>
    destruct (insert_row t r) as [t0|m] eqn:E end; [|discriminate].
  intro H0. inversion H0. subst. intros y Hy.
  rewrite (insert_row_ids _ _ _ E). apply in_or_app. now left.
Qed.

(** Every operation other than the delete keeps every id. *)
Lemma serve_keeps_ids (t : Table) (r : Request) :
  is_delete (operation r) = false -> keeps_ids t (serve t r).
Proof.
  intro H. unfold serve. destruct (operation r); try discriminate.
  - apply (hook_create_keeps_ids _ _ (mkBackend t (request_fault r))).
  - apply (hook_update_keeps_ids _ _ (mkBackend t (request_fault r))).
  - apply (service_create_keeps_ids _ _ (mkBackend t (request_fault r))).
  - apply (service_update_keeps_ids _ (mkBackend t (request_fault r))).
  - apply (update_one_keeps_ids _ _ (mkBackend t (request_fault r))).
  - apply (update_one_keeps_ids _ _ (mkBackend t (request_fault r))).
  - apply (update_one_keeps_ids _ _ (mkBackend t (request_fault r))).
  - apply (update_one_keeps_ids _ _ (mkBackend t (request_fault r))).
  - apply (service_update_keeps_ids _ (mkBackend t (request_fault r))).
Qed.

Lemma find_row_some (x : string) (t : Table) (a : Appointment) :
  find_row x t = Some a -> In a t /\ id a = x.
Proof.
  unfold find_row. intro H. apply find_some in H. destruct H as [H1 H2].
  split; [exact H1|]. unfold has_id in H2. apply String.eqb_eq. exact H2.
Qed.

Lemma replace_row_in (a a' : Appointment) (t : Table) :
  In a t -> id a = id a' -> In a' (replace_row a' t).
Proof.
  intros Ha Hid. unfold replace_row. apply in_map_iff. exists a.
  split; [|exact Ha]. unfold has_id. rewrite Hid, String.eqb_refl. reflexivity.
Qed.

Lemma delete_row_ids (t : Table) (x : string) : ~ In x (ids (delete_row t x)).
Proof.
  unfold ids, delete_row, without_id. intro H. apply in_map_iff in H.
  destruct H as (a & Ha & Hin). apply filter_In in Hin. destruct Hin as [_ Hf].
  unfold has_id in Hf. rewrite Ha, String.eqb_refl in Hf. discriminate.
Qed.

(** C8, as the sources have it.  Every operation of the module other
    than [deleteAppointment] keeps every appointment in the table: after
    any sequence of such requests, served or failed, every id that was
    in the table is still there.  Cancelling is an update: the row it
    returns is in the table, under the same id, with status cancelled.
    [deleteAppointment], when its request is served, removes the row. *)
Theorem appointments_persist_unless_deleted :
  (forall requests t x,
      (forall r, In r requests -> is_delete (operation r) = false) ->
      In x (ids t) -> In x (ids (run requests t)))
  /\ (forall now t f x reason a',
        fst (AppointmentsService.cancelAppointment now (mkBackend t f) x reason)
          = Ok (Some a') ->
        id a' = x /\ status a' = cancelled
        /\ In a' (table (snd (AppointmentsService.cancelAppointment now
                                (mkBackend t f) x reason))))
  /\ (forall t x, ~ In x (ids (table (snd (Hooks.deleteAppointment
                                             (mkBackend t None) x))))).
Proof.
  split; [|split].
  - induction requests as [|r rest IH]; intros t x Hno Hin; simpl.
    + exact Hin.
    + apply IH.
      * intros r' Hr'. apply Hno. now right.
      * apply serve_keeps_ids; [apply Hno; now left | exact Hin].
  - intros now t f x reason a'.
    unfold AppointmentsService.cancelAppointment, AppointmentsService.update_one,
      perform. cbn [fault table].
    destruct f as [[m|e]|]; cbn [fst snd AppointmentsService.data_or_throw];
      try discriminate.
    unfold single, update_row.
    destruct (find_row x t) as [a|] eqn:Ef; [|discriminate].
    match goal with |- context [slot_error ?r] => destruct (slot_error r) end;
      [discriminate|].
    match goal with |- context [negb ?c] => destruct (negb c) end;
      [discriminate|].
    match goal with |- context [excluded_by ?o ?r] => destruct (excluded_by o r) end;
      [discriminate|].
    cbn [fst snd AppointmentsService.data_or_throw table].
    intro H. inversion H. subst a'. clear H.
    apply find_row_some in Ef. destruct Ef as [Hin Hid].
    split; [exact Hid|]. split; [reflexivity|].
    apply (replace_row_in a); [exact Hin | reflexivity].
  - intros t x. apply delete_row_ids.
Qed.

(** Confirming and then cancelling X leaves X in the table. *)
Lemma appointments_persist_unless_deleted_witness :
  In "apt-123"
     (ids (run [ mkRequest (ServiceConfirm "apt-123") Samples.t_10_45 None;
                 mkRequest (ServiceCancel "apt-123" (Some "Emergencia"))
                           Samples.t_11_00 None ]
               Samples.one_appointment)).
Proof.
  apply (proj1 appointments_persist_unless_deleted).
  - intros r [<-|[<-|[]]]; reflexivity.
  - left. reflexivity.
Defined.

(** An appointment is created and then deleted: it is no longer in the
    table. *)
Lemma delete_removes_row_counterexample :
  ids (run [ mkRequest (HookCreate "apt-123" Samples.booking) Samples.t_10_00 None ]
           [])
    = ["apt-123"]
  /\ ids (run [ mkRequest (HookCreate "apt-123" Samples.booking) Samples.t_10_00 None;
                mkRequest (HookDelete "apt-123") Samples.t_10_45 None ]
              [])
     = [].
Proof. split; reflexivity. Qed.

(** Cancelling X keeps its row and marks it cancelled. *)
Example cancel_marks_row :
  map (fun a => (id a, status a))
      (table (snd (AppointmentsService.cancelAppointment Samples.t_10_45
                     Samples.healthy "apt-123" (Some "Emergencia"))))
  = [("apt-123", cancelled)].
Proof. reflexivity. Qed.

End PersistenceFacts.

(* ================================================================== *)
(** * Delivery with retries *)
(* ================================================================== *)

Section RetryFacts.
Import Js Email.

Variable svc : EmailService.
Variable outcomes : Outcomes.
Hypothesis provider_recorded : cfg_provider svc = recorded_send outcomes.
Variable normalized : SendEmailOptions.

Lemma send_loop_exhausted (remaining : nat) :
  forall (attempt : nat) (lastError : option Thrown) (w : World) (errs : nat -> Thrown),
    (attempt + remaining = S (cfg_retryAttempts svc))%nat ->
    (forall k, (k < remaining)%nat ->
       outcomes (List.length (calls w) + k)%nat normalized = Throw (errs k)) ->
    send_loop svc normalized remaining attempt lastError w
    = (Throw (ErrorObj (exhausted_message svc
                          (match remaining with
                           | O => lastError
                           | S r => Some (errs r)
                           end))),
       mkWorld (calls w ++ repeat normalized remaining)
               (sleeps w ++ waits_from svc attempt (remaining - 1))).
Proof.
  induction remaining as [|r IH]; intros attempt lastError w errs Hsum Hfail.
  - simpl. unfold throw, waits_from. simpl. rewrite !app_nil_r.
    destruct w; reflexivity.
  - cbn [send_loop]. unfold try_catch. rewrite provider_recorded.
    unfold recorded_send at 1.
    pose proof (Hfail 0%nat ltac:(lia)) as H0. rewrite Nat.add_0_r in H0.
    rewrite H0. unfold bind.
    destruct r as [|r'].
    + (* the last attempt: no wait *)
      assert (Hn : (attempt <? cfg_retryAttempts svc)%nat = false)
        by (apply Nat.ltb_ge; lia).
      rewrite Hn. unfold ret. cbn [send_loop]. unfold throw, waits_from.
      simpl. rewrite app_nil_r. reflexivity.
    + assert (Hn : (attempt <? cfg_retryAttempts svc)%nat = true)
        by (apply Nat.ltb_lt; lia).
      rewrite Hn. unfold delay.
      rewrite (IH (S attempt) (Some (errs 0%nat)) _ (fun k => errs (S k))).
      * cbn [calls sleeps]. unfold waits_from.
        replace (S (S r') - 1)%nat with (S r') by lia.
        replace (S r' - 1)%nat with r' by lia.
        cbn [seq map repeat]. rewrite <- !app_assoc. reflexivity.
      * lia.
      * intros k Hk. cbn [calls]. rewrite length_app. cbn [List.length].
        replace (List.length (calls w) + 1 + k)%nat
          with (List.length (calls w) + S k)%nat by lia.
        apply Hfail. lia.
Qed.

Lemma send_loop_succeeds (j : nat) :
  forall (remaining attempt : nat) (lastError : option Thrown) (w : World)
         (errs : nat -> Thrown) (r : EmailProviderResponse),
    (j < remaining)%nat ->
    (attempt + remaining = S (cfg_retryAttempts svc))%nat ->
    (forall i, (i < j)%nat ->
       outcomes (List.length (calls w) + i)%nat normalized = Throw (errs i)) ->
    outcomes (List.length (calls w) + j)%nat normalized = Ok r ->
    send_loop svc normalized remaining attempt lastError w
    = (Ok r,
       mkWorld (calls w ++ repeat normalized (S j))
               (sleeps w ++ waits_from svc attempt j)).
Proof.
  induction j as [|j IH];
    intros remaining attempt lastError w errs r Hlt Hsum Hfail Hok.
  - destruct remaining as [|rem]; [lia|].
    cbn [send_loop]. unfold try_catch. rewrite provider_recorded.
    unfold recorded_send at 1. rewrite Nat.add_0_r in Hok. rewrite Hok.
    unfold waits_from. simpl. rewrite app_nil_r. reflexivity.
  - destruct remaining as [|rem]; [lia|].
    cbn [send_loop]. unfold try_catch. rewrite provider_recorded.
    unfold recorded_send at 1.
    pose proof (Hfail 0%nat ltac:(lia)) as H0. rewrite Nat.add_0_r in H0.
    rewrite H0. unfold bind.
    assert (Hn : (attempt <? cfg_retryAttempts svc)%nat = true)
      by (apply Nat.ltb_lt; lia).
    rewrite Hn. unfold delay.
    rewrite (IH rem (S attempt) (Some (errs 0%nat)) _ (fun k => errs (S k)) r).
    + cbn [calls sleeps]. unfold waits_from.
      cbn [seq map repeat]. rewrite <- !app_assoc. reflexivity.
    + lia.
    + lia.
    + intros i Hi. cbn [calls]. rewrite length_app. cbn [List.length].
      replace (List.length (calls w) + 1 + i)%nat
        with (List.length (calls w) + S i)%nat by lia.
      apply Hfail. lia.
    + cbn [calls]. rewrite length_app. cbn [List.length].
      replace (List.length (calls w) + 1 + j)%nat
        with (List.length (calls w) + S j)%nat by lia.
      exact Hok.
Qed.

End RetryFacts.

Section RetryPolicy.
Import Js Email.

(** C2.  A service whose transport is a recorded [send], with
    [retryAttempts = N] and [retryDelayMs = d].
    If N >= 1 and the transport rejects each of the N calls, the send
    calls it exactly N times with the normalized message, waits
    [1 * d], ..., [(N - 1) * d] between the attempts (the wait before
    retry i + 1 is [i * d]) and rejects with
    "Failed to send email after N attempts: " followed by the message of
    the last error.
    If the transport rejects the first j calls and answers call j + 1
    (j < N), the send resolves with that answer after exactly j + 1
    calls and the waits [1 * d], ..., [j * d]; no further call is made. *)
Theorem send_retry_policy
    (svc : EmailService) (outcomes : Outcomes) (options : SendEmailOptions)
    (w : World) :
  cfg_provider svc = recorded_send outcomes ->
  (forall errs : nat -> Thrown,
      (1 <= cfg_retryAttempts svc)%nat ->
      (forall k, (k < cfg_retryAttempts svc)%nat ->
         outcomes (List.length (calls w) + k)%nat (normalize svc options)
         = Throw (errs k)) ->
      send svc options w
      = (Throw (ErrorObj
                  ("Failed to send email after "
                     ++ string_of_nat (cfg_retryAttempts svc) ++ " attempts: "
                     ++ optional_message
                          (Some (errs (cfg_retryAttempts svc - 1)%nat)))),
         mkWorld (calls w ++ repeat (normalize svc options) (cfg_retryAttempts svc))
                 (sleeps w
                    ++ map (fun i => cfg_retryDelayMs svc * Z.of_nat i)
                         (seq 1 (cfg_retryAttempts svc - 1)))))
  /\ (forall (errs : nat -> Thrown) (j : nat) (r : EmailProviderResponse),
        (j < cfg_retryAttempts svc)%nat ->
        (forall i, (i < j)%nat ->
           outcomes (List.length (calls w) + i)%nat (normalize svc options)
           = Throw (errs i)) ->
        outcomes (List.length (calls w) + j)%nat (normalize svc options) = Ok r ->
        send svc options w
        = (Ok r,
           mkWorld (calls w ++ repeat (normalize svc options) (S j))
                   (sleeps w
                      ++ map (fun i => cfg_retryDelayMs svc * Z.of_nat i)
                           (seq 1 j)))).
Proof.
  intro Hp. split.
  - intros errs HN Hfail. unfold send.
    rewrite (send_loop_exhausted svc outcomes Hp (normalize svc options)
               (cfg_retryAttempts svc) 1%nat None w errs); [|lia|exact Hfail].
    destruct (cfg_retryAttempts svc) as [|n] eqn:E; [lia|].
    unfold exhausted_message, waits_from. rewrite E.
    replace (S n - 1)%nat with n by lia. reflexivity.
  - intros errs j r Hj Hfail Hok. unfold send.
    apply (send_loop_succeeds svc outcomes Hp (normalize svc options) j
             (cfg_retryAttempts svc) 1%nat None w errs r);
      [exact Hj | lia | exact Hfail | exact Hok].
Qed.

(** With the default settings (3 attempts, 1000 ms) and a transport
    that always fails: three calls, waits of 1000 and 2000 ms, and the
    error "Failed to send email after 3 attempts: Provider error". *)
Lemma send_retry_policy_witness :
  send (Samples.default_service Samples.always_failing)
       Samples.message_to_patient initial_world
  = (Throw (ErrorObj "Failed to send email after 3 attempts: Provider error"),
     mkWorld (repeat (normalize (Samples.default_service Samples.always_failing)
                        Samples.message_to_patient) 3)
             [1000; 2000]).
Proof.
  apply (proj1 (send_retry_policy
                  (Samples.default_service Samples.always_failing)
                  Samples.always_failing Samples.message_to_patient
                  initial_world eq_refl)
               (fun _ => ErrorObj "Provider error")).
  - simpl. lia.
  - intros k _. reflexivity.
Defined.

End RetryPolicy.

(* ================================================================== *)
(** * Batches of reminders *)
(* ================================================================== *)

Section BatchFacts.
Import Js Types Email AppointmentEmails Spec.

Variable deps : Deps.
Variable emailService : SendFn.
Variable commonOptions : PartialEmailOptions.

(** Whatever a reminder send throws, it is an [Error] whose message
    starts with the sender's own prefix. *)
Lemma sendReminderEmail_throws_wrapped (options : ReminderEmailOptions)
    (w w' : World) (e : Thrown) :
  sendReminderEmail deps emailService options w = (Throw e, w') ->
  exists m, e = ErrorObj ("Failed to send reminder email: " ++ m).
Proof.
  unfold sendReminderEmail, try_catch.
  match goal with |- context [match ?c w with _ => _ end] =>
    destruct (c w) as [[u|e0] w0] end.
  - discriminate.
  - unfold throw. intro H. inversion H. eexists. reflexivity.
Qed.

Lemma attempted_items (items : list BatchItem) (w : World) :
  map fst (fst (attempt_each_in_order deps emailService commonOptions items w))
  = items.
Proof.
  revert w. induction items as [|item rest IH]; intro w; [reflexivity|].
  cbn [attempt_each_in_order].
  destruct (sendReminderEmail deps emailService
              (merge_options item commonOptions) w) as [r w1].
  specialize (IH w1).
  destruct (attempt_each_in_order deps emailService commonOptions rest w1)
    as [outs w2].
  cbn [fst map] in *. rewrite IH. reflexivity.
Qed.

Lemma successes_failures_length (outs : list (BatchItem * Result unit)) :
  (List.length (successes outs) + List.length (failures outs))%nat
  = List.length outs.
Proof.
  induction outs as [|[item [u|e]] rest IH]; simpl; lia.
Qed.

Lemma failures_wrapped (items : list BatchItem) (w : World) :
  Forall (fun f => exists m,
            snd f = ErrorObj ("Failed to send reminder email: " ++ m))
    (failures (fst (attempt_each_in_order deps emailService commonOptions items w))).
Proof.
  revert w. induction items as [|item rest IH]; intro w; [constructor|].
  cbn [attempt_each_in_order].
  destruct (sendReminderEmail deps emailService
              (merge_options item commonOptions) w) as [r w1] eqn:E.
  specialize (IH w1).
  destruct (attempt_each_in_order deps emailService commonOptions rest w1)
    as [outs w2].
  cbn [fst] in *. destruct r as [u|e]; cbn [failures]; [exact IH|].
  constructor; [|exact IH].
  apply sendReminderEmail_throws_wrapped in E. exact E.
Qed.

(** The loop adds to its counters the successes and the failures of the
    attempts, and appends one entry per failure. *)
Lemma batch_loop_tally (items : list BatchItem) :
  forall (results : BatchResult) (w : World),
    batch_loop deps emailService commonOptions items results w
    = (Ok {| successful :=
               (successful results
                + List.length (successes (fst (attempt_each_in_order deps
                                  emailService commonOptions items w))))%nat;
             failed :=
               (failed results
                + List.length (failures (fst (attempt_each_in_order deps
                                  emailService commonOptions items w))))%nat;
             errors :=
               (errors results
                ++ map (fun f => error_entry (fst f) (snd f))
                     (failures (fst (attempt_each_in_order deps emailService
                                       commonOptions items w))))%list |},
       snd (attempt_each_in_order deps emailService commonOptions items w)).
Proof.
  induction items as [|item rest IH]; intros results w.
  - cbn. rewrite !Nat.add_0_r, app_nil_r. destruct results; reflexivity.
  - cbn [batch_loop attempt_each_in_order]. unfold bind at 1. unfold try_catch.
    unfold bind at 1.
    destruct (sendReminderEmail deps emailService
                (merge_options item commonOptions) w) as [[u|e] w1].
    + unfold ret at 1. rewrite IH.
      destruct (attempt_each_in_order deps emailService commonOptions rest w1)
        as [outs w2].
      cbn [fst snd successes failures count_success successful failed errors
             List.length].
      rewrite Nat.add_succ_r. reflexivity.
    + unfold ret at 1. rewrite IH.
      destruct (attempt_each_in_order deps emailService commonOptions rest w1)
        as [outs w2].
      cbn [fst snd successes failures count_failure successful failed errors
             List.length map].
      rewrite <- app_assoc. cbn [app]. rewrite Nat.add_succ_r. reflexivity.
Qed.

(** With a recorded service and a template that renders, a reminder
    send makes exactly one call, addressed to the patient. *)
Lemma sendReminderEmail_one_call (outcomes : Outcomes)
    (options : ReminderEmailOptions) (w : World) :
  (forall p, exists html, reminderTemplate deps p = Ok html) ->
  map to (calls (snd (sendReminderEmail deps (recorded_send outcomes) options w)))
  = (map to (calls w) ++ [recipient_address (patient (base options))])%list.
Proof.
  intro Hrender. unfold sendReminderEmail, try_catch, bind, lift.
  match goal with |- context [reminderTemplate deps ?p] =>
    destruct (Hrender p) as [html Hh]; rewrite Hh end.
  unfold recorded_send.
  match goal with |- context [outcomes ?k ?m] => destruct (outcomes k m) end;
    cbn [snd calls ret throw]; rewrite map_app; reflexivity.
Qed.

End BatchFacts.

Section BatchSummary.
Import Js Types Email AppointmentEmails Spec.

Lemma failures_are_attempts (outs : list (BatchItem * Result unit))
    (f : BatchItem * Thrown) :
  In f (failures outs) -> In (fst f) (map fst outs).
Proof.
  induction outs as [|[item [u|e]] rest IH]; cbn [failures map In fst].
  - intros [].
  - intro H. right. exact (IH H).
  - intros [<-|H]; [left; reflexivity | right; exact (IH H)].
Qed.

(** One reminder over a transport that answers by the number of the
    call, with a template that renders: one call, addressed to the
    patient of the options and labelled with their appointment. *)
Lemma sendReminderEmail_recorded (deps : Deps)
    (answers : nat -> Result EmailProviderResponse)
    (options : ReminderEmailOptions) (w : World) :
  (forall p, exists html, reminderTemplate deps p = Ok html) ->
  exists msg,
    sendReminderEmail deps (recorded_send (fun k _ => answers k)) options w
    = (match answers (List.length (calls w)) with
       | Ok _ => Ok tt
       | Throw e =>
           Throw (ErrorObj ("Failed to send reminder email: "
                              ++ message_or "Unknown error" e))
       end,
       mkWorld (calls w ++ [msg]) (sleeps w))
    /\ to msg = AddrObj (Some (name (patient (base options))))
                        (email (patient (base options)))
    /\ headers msg
       = [ ("X-Appointment-ID", id (appointment (base options)));
           ("X-Appointment-Type", "reminder");
           ("X-Reminder-Hours", hours_text (hoursBefore options));
           ("X-Priority", match hoursBefore options with
                          | H2 => "high" | H24 => "normal" end) ].
Proof.
  intro Hrender. unfold sendReminderEmail, try_catch, bind, lift.
  match goal with |- context [reminderTemplate deps ?p] =>
    destruct (Hrender p) as [html Hh]; rewrite Hh end.
  eexists. split; [|split].
  - unfold recorded_send.
    destruct (answers (List.length (calls w))); reflexivity.
  - reflexivity.
  - cbn [headers reminder_message]. destruct (hoursBefore options); reflexivity.
Qed.

(** The loop over a transport that answers by the number of the call. *)
Lemma batch_loop_recorded (deps : Deps)
    (answers : nat -> Result EmailProviderResponse)
    (common : PartialEmailOptions) :
  (forall p, exists html, reminderTemplate deps p = Ok html) ->
  forall (items : list BatchItem) (results : BatchResult) (w : World),
    let verdicts :=
      combine items (map answers (seq (List.length (calls w)) (List.length items))) in
    exists sent,
      batch_loop deps (recorded_send (fun k _ => answers k)) common items results w
      = (Ok {| successful :=
                 (successful results
                  + List.length
                      (filter (fun v => match snd v with
                                        | Ok _ => true | Throw _ => false end)
                         verdicts))%nat;
               failed :=
                 (failed results
                  + List.length
                      (filter (fun v => match snd v with
                                        | Ok _ => false | Throw _ => true end)
                         verdicts))%nat;
               errors :=
                 List.app (errors results)
                   (flat_map
                      (fun v => match snd v with
                                | Ok _ => []
                                | Throw e =>
                                    [ "Appointment " ++ id (item_appointment (fst v))
                                        ++ ": Failed to send reminder email: "
                                        ++ message_or "Unknown error" e ]
                                end) verdicts) |},
         mkWorld (List.app (calls w) sent) (sleeps w))
      /\ map to sent
         = map (fun item =>
                  let p := match po_patient common with
                           | Some p => p | None => item_patient item end in
                  AddrObj (Some (name p)) (email p)) items
      /\ map headers sent
         = map (fun item =>
                  let a := match po_appointment common with
                           | Some a => a | None => item_appointment item end in
                  [ ("X-Appointment-ID", id a);
                    ("X-Appointment-Type", "reminder");
                    ("X-Reminder-Hours", hours_text (item_hoursBefore item));
                    ("X-Priority", match item_hoursBefore item with
                                   | H2 => "high" | H24 => "normal" end) ]) items.
Proof.
  intro Hrender. induction items as [|item rest IH]; intros results w; cbv zeta.
  - exists []. cbn. rewrite !Nat.add_0_r, !app_nil_r.
    destruct results, w; auto.
  - cbn [batch_loop]. unfold bind at 1. unfold try_catch at 1. unfold bind at 1.
    destruct (sendReminderEmail_recorded deps answers
                (merge_options item common) w Hrender)
      as (msg & Hsend & Hto & Hheaders).
    rewrite Hsend.
    cbn [List.length seq map combine filter flat_map snd fst].
    destruct (answers (List.length (calls w))) as [r|e]; unfold ret at 1.
    + destruct (IH (count_success results)
                  (mkWorld (calls w ++ [msg]) (sleeps w)))
        as (sent & Hrun & Hts & Hhs).
      cbv zeta in Hrun. cbn [calls sleeps] in Hrun.
      rewrite length_app in Hrun. cbn [List.length] in Hrun.
      rewrite Nat.add_1_r in Hrun.
      exists (msg :: sent). rewrite Hrun. split; [|split].
      * cbn [count_success successful failed errors List.length app].
        rewrite <- app_assoc, Nat.add_succ_r. reflexivity.
      * cbn [map]. rewrite Hts, Hto. reflexivity.
      * cbn [map]. rewrite Hhs, Hheaders. reflexivity.
    + destruct (IH (count_failure item
                      (ErrorObj ("Failed to send reminder email: "
                                   ++ message_or "Unknown error" e)) results)
                  (mkWorld (calls w ++ [msg]) (sleeps w)))
        as (sent & Hrun & Hts & Hhs).
      cbv zeta in Hrun. cbn [calls sleeps] in Hrun.
      rewrite length_app in Hrun. cbn [List.length] in Hrun.
      rewrite Nat.add_1_r in Hrun.
      exists (msg :: sent). rewrite Hrun. split; [|split].
      * cbn [count_failure successful failed errors List.length app error_entry
             message_or].
        rewrite <- !app_assoc, Nat.add_succ_r. reflexivity.
      * cbn [map]. rewrite Hts, Hto. reflexivity.
      * cbn [map]. rewrite Hhs, Hheaders. reflexivity.
Qed.

(** C3, as the sources have it.  [sendBatchReminders] always resolves,
    whatever the service and the templates do; [successful] and
    [failed] add up to the length of the list, and [errors] has one
    entry per failed item, each "Appointment <id>: Failed to send
    reminder email: <message>" with the id of an item of the list.
    Over a transport that answers the k-th call by [answers k], with a
    template that renders: the items are attempted one after the other
    in input order, one call each, whatever the earlier calls did, the
    call for an item goes to that item's patient and carries that
    item's appointment id and hours (those of the common options where
    they give them); [successful] counts the items whose call was
    answered, [failed] those whose call was rejected, and [errors]
    lists, in input order, one entry per rejected item, reading
    "Appointment <id of the item>: Failed to send reminder email:
    <message of the rejection>": the message of the rejection does not
    follow the id directly. *)
Theorem sendBatchReminders_summary
    (deps : Deps) (emailService : SendFn) (items : list BatchItem)
    (commonOptions : option PartialEmailOptions) (w : World) :
  (exists results w',
     sendBatchReminders deps emailService items commonOptions w = (Ok results, w')
     /\ (successful results + failed results)%nat = List.length items
     /\ List.length (errors results) = failed results
     /\ Forall (fun entry =>
                  exists item m,
                    In item items
                    /\ entry = "Appointment " ++ id (item_appointment item)
                                 ++ ": Failed to send reminder email: " ++ m)
          (errors results))
  /\ (forall answers : nat -> Result EmailProviderResponse,
        emailService = recorded_send (fun k _ => answers k) ->
        (forall p, exists html, reminderTemplate deps p = Ok html) ->
        let verdicts :=
          combine items
            (map answers (seq (List.length (calls w)) (List.length items))) in
        exists sent,
          sendBatchReminders deps emailService items commonOptions w
          = (Ok {| successful :=
                     List.length
                       (filter (fun v => match snd v with
                                         | Ok _ => true | Throw _ => false end)
                          verdicts);
                   failed :=
                     List.length
                       (filter (fun v => match snd v with
                                         | Ok _ => false | Throw _ => true end)
                          verdicts);
                   errors :=
                     flat_map
                       (fun v => match snd v with
                                 | Ok _ => []
                                 | Throw e =>
                                     [ "Appointment "
                                         ++ id (item_appointment (fst v))
                                         ++ ": Failed to send reminder email: "
                                         ++ message_or "Unknown error" e ]
                                 end) verdicts |},
             mkWorld (List.app (calls w) sent) (sleeps w))
          /\ map to sent
             = map (fun item =>
                      let p := match commonOptions with
                               | Some {| po_patient := Some p |} => p
                               | _ => item_patient item
                               end in
                      AddrObj (Some (name p)) (email p)) items
          /\ map headers sent
             = map (fun item =>
                      let a := match commonOptions with
                               | Some {| po_appointment := Some a |} => a
                               | _ => item_appointment item
                               end in
                      [ ("X-Appointment-ID", id a);
                        ("X-Appointment-Type", "reminder");
                        ("X-Reminder-Hours", hours_text (item_hoursBefore item));
                        ("X-Priority", match item_hoursBefore item with
                                       | H2 => "high" | H24 => "normal" end) ])
                 items).
Proof.
  split.
  - unfold sendBatchReminders. rewrite batch_loop_tally.
    set (attempts := attempt_each_in_order deps emailService _ items w).
    eexists. eexists. split; [reflexivity|].
    cbn [successful failed errors Nat.add app]. split; [|split].
    + rewrite successes_failures_length.
      transitivity (List.length (map fst (fst attempts)));
        [symmetry; apply length_map|].
      unfold attempts. rewrite attempted_items. reflexivity.
    + apply length_map.
    + apply Forall_forall. intros entry Hentry. apply in_map_iff in Hentry.
      destruct Hentry as (f & <- & Hf).
      pose proof (failures_are_attempts _ _ Hf) as Hitem.
      unfold attempts in Hitem. rewrite attempted_items in Hitem.
      pose proof (failures_wrapped deps emailService
                    (match commonOptions with
                     | Some c => c | None => no_common_options end) items w) as Hw.
      rewrite Forall_forall in Hw. destruct (Hw f Hf) as [m Hm].
      exists (fst f), m. split; [exact Hitem|].
      unfold error_entry. rewrite Hm. reflexivity.
  - intros answers -> Hrender. cbv zeta. unfold sendBatchReminders.
    destruct (batch_loop_recorded deps answers
                (match commonOptions with Some c => c | None => no_common_options end)
                Hrender items (mkBatchResult 0 0 []) w)
      as (sent & Hrun & Hto & Hheaders).
    exists sent. rewrite Hrun. split; [reflexivity|]. split.
    + rewrite Hto. apply map_ext. intro item.
      destruct commonOptions as [[? ? [p|] ? ? ? ? ?]|]; reflexivity.
    + rewrite Hheaders. apply map_ext. intro item.
      destruct commonOptions as [[[a|] ? ? ? ? ? ? ?]|]; reflexivity.
Qed.

(** The batch of the tests: three reminders, the second call is
    rejected with "Network error".  Two succeed, one fails; the one
    entry names the second appointment and does not contain the text
    the test of the module looks for in it. *)
Lemma sendBatchReminders_summary_witness :
  fst (sendBatchReminders Samples.plain_deps
         (recorded_send Samples.second_call_fails) Samples.batch None initial_world)
  = Ok {| successful := 2;
          failed := 1;
          errors :=
            ["Appointment apt-456: Failed to send reminder email: Network error"] |}
  /\ includes "Appointment apt-456: Network error"
       "Appointment apt-456: Failed to send reminder email: Network error"
     = false.
Proof.
  destruct (proj2 (sendBatchReminders_summary Samples.plain_deps
                     (recorded_send Samples.second_call_fails) Samples.batch None
                     initial_world)
              (fun k => if Nat.eqb k 1 then Throw (ErrorObj "Network error")
                        else Samples.sent_ok)
              eq_refl
              (fun p => ex_intro _ _ eq_refl))
    as (sent & Hrun & _).
  rewrite Hrun. split; vm_compute; reflexivity.
Defined.

End BatchSummary.

(* ================================================================== *)
(** * Confirmation emails *)
(* ================================================================== *)

Section ConfirmationFacts.
Import Js Types Email AppointmentEmails.





End ConfirmationFacts.

(* ================================================================== *)
(** * Calendar artifacts *)
(* ================================================================== *)

Section CalendarFacts.
Import Js Types ICSGenerator.

Lemma truthy_append_suffix (s : string) : truthy (s ++ "@autamedica.com") = true.
Proof. destruct s; reflexivity. Qed.

Lemma substring_whole (s : string) : String.substring 0 (String.length s) s = s.
Proof. induction s as [|c s IH]; simpl; [reflexivity | now rewrite IH]. Qed.

Lemma property_of_app (key : string) (l1 l2 : list string) :
  property_of key (l1 ++ l2)
  = match property_of key l1 with
    | Some v => Some v
    | None => property_of key l2
    end.
Proof.
  induction l1 as [|l l1 IH]; simpl; [reflexivity|].
  destruct (String.prefix key l); [reflexivity | exact IH].
Qed.

Lemma property_of_skip (key l : string) (rest : list string) :
  String.prefix key l = false ->
  property_of key (l :: rest) = property_of key rest.
Proof. intro H. simpl. rewrite H. reflexivity. Qed.

Lemma prefix_append (key v : string) : String.prefix key (key ++ v) = true.
Proof.
  induction key as [|c key IH]; simpl; [now destruct v|].
  destruct (ascii_dec c c) as [_|N]; [exact IH | contradiction].
Qed.

Lemma substring_after (key v : string) :
  String.substring (String.length key)
    (String.length (key ++ v) - String.length key) (key ++ v) = v.
Proof.
  induction key as [|c key IH]; simpl.
  - rewrite Nat.sub_0_r. apply substring_whole.
  - exact IH.
Qed.

Lemma property_of_hit (key v : string) (rest : list string) :
  property_of key ((key ++ v) :: rest) = Some v.
Proof. simpl. rewrite prefix_append, substring_after. reflexivity. Qed.

(** Skip the lines that do not start with the key. *)
Ltac skip_lines := repeat (rewrite property_of_skip by reflexivity).

Lemma uid_of_lines (rt : Runtime) (event : ICSEventData) (x : string) :
  uid event = Some (x ++ "@autamedica.com") ->
  property_of "UID:" (generateICS_lines rt event) = Some (x ++ "@autamedica.com").
Proof.
  intro Hu. unfold generateICS_lines. rewrite Hu.
  cbn [truthy_opt]. rewrite truthy_append_suffix.
  rewrite !property_of_app. skip_lines. rewrite property_of_hit. reflexivity.
Qed.

Lemma method_of_lines (rt : Runtime) (event : ICSEventData) :
  property_of "METHOD:" (generateICS_lines rt event) = Some "REQUEST".
Proof.
  unfold generateICS_lines. rewrite !property_of_app. skip_lines.
  rewrite (property_of_hit "METHOD:" "REQUEST"). reflexivity.
Qed.

Lemma property_of_nil (key : string) : property_of key [] = None.
Proof. reflexivity. Qed.

(** Skip the lines of one optional block and move to the next. *)
Ltac next_block :=
  cbn [push_if]; skip_lines; rewrite ?property_of_nil; cbv beta iota.

Lemma status_of_lines (rt : Runtime) (event : ICSEventData) (st : EventStatus) :
  ev_status event = Some st ->
  property_of "STATUS:" (generateICS_lines rt event) = Some (event_status_text st).
Proof.
  intro Hs. unfold generateICS_lines. rewrite Hs.
  rewrite !property_of_app. next_block.
  destruct (description event) as [d|]; [destruct (truthy d)|]; next_block;
    (destruct (location event) as [l|]; [destruct (truthy l)|]); next_block;
    destruct (organizer event) as [o|]; next_block;
    destruct (attendee event) as [a|]; next_block;
    rewrite property_of_hit; reflexivity.
Qed.

Lemma sequence_of_lines (rt : Runtime) (event : ICSEventData)
    (st : EventStatus) (n : Z) :
  ev_status event = Some st -> sequence event = Some n ->
  property_of "SEQUENCE:" (generateICS_lines rt event) = Some (string_of_Z n).
Proof.
  intros Hs Hn. unfold generateICS_lines. rewrite Hs, Hn.
  rewrite !property_of_app. next_block.
  destruct (description event) as [d|]; [destruct (truthy d)|]; next_block;
    (destruct (location event) as [l|]; [destruct (truthy l)|]); next_block;
    destruct (organizer event) as [o|]; next_block;
    destruct (attendee event) as [a|]; next_block;
    rewrite property_of_hit; reflexivity.
Qed.

(** C5, at the code.  For every appointment, the confirmation and the
    cancellation artifacts carry the same UID, the appointment id
    followed by "@autamedica.com"; their sequence numbers are 0 and 1;
    the cancellation has STATUS CANCELLED; and the METHOD of both is
    REQUEST: the cancellation artifact does not say CANCEL. *)
Theorem confirmation_then_cancellation_artifacts
    (rt : Runtime) (appointment : Appointment) (doctorName patientName : string)
    (doctorEmail patientEmail reason : option string) :
  let confirmation :=
    generateICS_lines rt
      (appointmentEvent appointment doctorName patientName doctorEmail patientEmail) in
  let cancellation :=
    generateICS_lines rt (cancellationEvent appointment doctorName reason) in
  generateAppointmentICS rt appointment doctorName patientName doctorEmail patientEmail
    = join CRLF confirmation
  /\ generateCancellationICS rt appointment doctorName patientName reason
     = join CRLF cancellation
  /\ property_of "UID:" confirmation = Some (id appointment ++ "@autamedica.com")
  /\ property_of "UID:" cancellation = Some (id appointment ++ "@autamedica.com")
  /\ property_of "SEQUENCE:" confirmation = Some "0"
  /\ property_of "SEQUENCE:" cancellation = Some "1"
  /\ property_of "STATUS:" cancellation = Some "CANCELLED"
  /\ property_of "METHOD:" confirmation = Some "REQUEST"
  /\ property_of "METHOD:" cancellation = Some "REQUEST".
Proof.
  intros confirmation cancellation.
  split; [reflexivity|]. split; [reflexivity|].
  split; [apply uid_of_lines; reflexivity|].
  split; [apply uid_of_lines; reflexivity|].
  split.
  { apply (sequence_of_lines rt _
             (if status_eqb (status appointment) confirmed
              then CONFIRMED else TENTATIVE) 0); reflexivity. }
  split; [apply (sequence_of_lines rt _ CANCELLED 1); reflexivity|].
  split; [apply (status_of_lines rt _ CANCELLED); reflexivity|].
  split; apply method_of_lines.
Qed.

(** The cancellation of appointment X: its METHOD line reads REQUEST
    while the attachment built around it is labelled method=CANCEL. *)
Lemma cancellation_method_is_request :
  property_of "METHOD:"
    (generateICS_lines (AppointmentEmails.rt Samples.plain_deps)
       (cancellationEvent Samples.appointment_X "Dr. Garcia"
          (Some "Emergencia")))
  = Some "REQUEST"
  /\ Email.contentType
       (IcsEmail.generateCancellationICS (fun text => text)
          (AppointmentEmails.rt Samples.plain_deps)
          (IcsEmail.mkICSOptions Samples.appointment_X "Dr. Garcia" "Juan Perez"
             None None None (Some "Emergencia")))
     = Some "text/calendar; charset=utf-8; method=CANCEL".
Proof. split; reflexivity. Qed.

End CalendarFacts.

(* ================================================================== *)
(** * Writes: what changes the table, and when *)
(* ================================================================== *)

Section WriteFacts.
Import Js Types Database Supabase Lifecycle Constraints Requests.

Lemma outcome_table (t : Table) (r : Request) : snd (outcome t r) = serve t r.
Proof. unfold outcome, serve. destruct (operation r); reflexivity. Qed.

(** A write either goes through, with the statement's table and row and
    a reply without error, or leaves the backend as it was and replies
    with an error or a rejection. *)
Lemma perform_cases {A} (sb : Backend) (st : Table -> SqlResult (Table * A)) :
  (exists t' a, fault sb = None /\ st (table sb) = SqlOk (t', a)
                /\ perform sb st = (Reply (Some a) None, mkBackend t' None))
  \/ (snd (perform sb st) = sb
      /\ ((exists m, fst (perform sb st) = Reply None (Some m))
          \/ (exists e, fst (perform sb st) = Rejected e))).
Proof.
  unfold perform. destruct (fault sb) as [[m|e]|] eqn:Ef.
  - right. split; [reflexivity|]. left. eexists. reflexivity.
  - right. split; [reflexivity|]. right. eexists. reflexivity.
  - destruct (st (table sb)) as [[t' a]|m] eqn:Es.
    + left. exists t', a. repeat split; reflexivity.
    + right. split; [reflexivity|]. left. eexists. reflexivity.
Qed.

Lemma update_statement_shape (now : Z) (f : option Fault) (t : Table)
    (x : string) (p : Patch) :
  let res := perform (mkBackend t f) (fun t0 => single (update_row now t0 x p)) in
  (snd res = mkBackend t f
   /\ ((exists m, fst res = Reply None (Some m)) \/ (exists e, fst res = Rejected e)))
  \/ (exists a t', f = None /\ res = (Reply (Some a) None, mkBackend t' None)
                   /\ changed now t t').
Proof.
  cbv zeta.
  destruct (perform_cases (mkBackend t f) (fun t0 => single (update_row now t0 x p)))
    as [(t' & a & Hf & Hs & Hp)|H].
  - right. exists a, t'. cbn [fault table] in *. split; [exact Hf|].
    split; [exact Hp|].
    unfold single in Hs.
    destruct (update_row now t x p) as [[t0 rows]|m] eqn:E; [|discriminate].
    destruct rows as [|r0 [|r1 rows]]; try discriminate.
    inversion Hs. subst. exact (by_update now t t' x p [a] E).
  - left. exact H.
Qed.

Lemma update_one_shape (context : string) (now : Z) (f : option Fault)
    (t : Table) (x : string) (p : Patch) :
  let res := AppointmentsService.update_one context now (mkBackend t f) x p in
  table (snd res) = t
  \/ (rejected (fst res) = false /\ f = None /\ changed now t (table (snd res))).
Proof.
  cbv zeta. unfold AppointmentsService.update_one.
  destruct (update_statement_shape now f t x p) as [[Hs _]|(row' & t' & Hf & Hr & Hc)];
    cbv zeta in *.
  - left.
    destruct (perform (mkBackend t f) (fun t0 => single (update_row now t0 x p)))
      as [reply sb'].
    cbn [snd] in *. rewrite Hs. reflexivity.
  - right. rewrite Hr. cbn. auto.
Qed.

Lemma service_update_shape (now : Z) (f : option Fault) (t : Table)
    (x : string) (patch : UpdateAppointmentInput) :
  let res := AppointmentsService.updateAppointment now (mkBackend t f) x patch in
  table (snd res) = t
  \/ (rejected (fst res) = false /\ f = None /\ changed now t (table (snd res))).
Proof.
  cbv zeta. unfold AppointmentsService.updateAppointment.
  match goal with |- context [match ?g with Ok _ => _ | Throw _ => _ end] =>
    destruct g end.
  - apply update_one_shape.
  - left. reflexivity.
Qed.

Lemma hook_update_shape (now : Z) (appointments : list Appointment)
    (f : option Fault) (t : Table) (x : string) (input : UpdateAppointmentInput) :
  let res := Hooks.updateAppointment now appointments (mkBackend t f) x input in
  table (snd res) = t
  \/ (rejected (fst res) = false /\ f = None /\ changed now t (table (snd res))).
Proof.
  cbv zeta. unfold Hooks.updateAppointment.
  match goal with |- context [match ?g with Ok _ => _ | Throw _ => _ end] =>
    destruct g end; [|left; reflexivity].
  destruct (update_statement_shape now f t x (Hooks.patch_of_input input))
    as [[Hs _]|(row' & t' & Hf & Hr & Hc)]; cbv zeta in *.
  - left.
    destruct (perform (mkBackend t f)
                (fun t0 => single (update_row now t0 x (Hooks.patch_of_input input))))
      as [reply sb'].
    cbn [snd] in *. rewrite Hs. reflexivity.
  - right. rewrite Hr. cbn. auto.
Qed.

Lemma hook_create_shape (now : Z) (new_id : string) (f : option Fault)
    (t : Table) (input : CreateAppointmentInput) :
  let res := Hooks.createAppointment now new_id (mkBackend t f) input in
  table (snd res) = t
  \/ (rejected (fst res) = false /\ f = None /\ changed now t (table (snd res))).
Proof.
  cbv zeta. unfold Hooks.createAppointment.
  destruct (Hooks.validateAppointmentOverlap (mkBackend t f) (ci_starts_at input)
              (ci_ends_at input) (ci_doctor_id input) None) as [overlap|e];
    [|left; reflexivity].
  destruct (hasOverlap overlap); [left; reflexivity|].
  match goal with |- context [perform ?sb ?st] =>
    destruct (perform_cases sb st) as [(t' & row' & Hf & Hs & Hp)|[Hs _]];
    [rewrite Hp | destruct (perform sb st) as [reply sb']] end.
  - right. cbn [fault table] in *. cbn. repeat split; trivial.
    match type of Hs with context [insert_row ?t0 ?row] =>
      destruct (insert_row t0 row) as [t0'|m] eqn:E end; [|discriminate].
    inversion Hs. subst. eapply by_insert. exact E.
  - left. cbn [snd] in *. rewrite Hs. reflexivity.
Qed.

Lemma hook_delete_shape (f : option Fault) (t : Table) (x : string) :
  let res := Hooks.deleteAppointment (mkBackend t f) x in
  table (snd res) = t
  \/ (rejected (fst res) = false /\ f = None
      /\ table (snd res) = delete_row t x).
Proof.
  cbv zeta. unfold Hooks.deleteAppointment.
  match goal with |- context [perform ?sb ?st] =>
    destruct (perform_cases sb st) as [(t' & row' & Hf & Hs & Hp)|[Hs _]];
    [rewrite Hp | destruct (perform sb st) as [reply sb']] end.
  - right. cbn [fault table] in *. cbn. inversion Hs. auto.
  - left. cbn [snd] in *. rewrite Hs. reflexivity.
Qed.

Lemma service_create_shape (now : Z) (new_id : string) (f : option Fault)
    (t : Table) (input : CreateAppointmentInput) :
  let res := AppointmentsService.createAppointmentSafe now new_id
               (mkBackend t f) input in
  table (snd res) = t
  \/ (rejected (fst res) = false /\ f = None /\ changed now t (table (snd res))).
Proof.
  cbv zeta. unfold AppointmentsService.createAppointmentSafe.
  match goal with |- context [perform ?sb ?st] =>
    destruct (perform_cases sb st) as [(t' & row' & Hf & Hs & Hp)|[Hs _]];
    [rewrite Hp | destruct (perform sb st) as [reply sb']] end.
  - right. cbn [fault table] in *. cbn. repeat split; trivial.
    unfold create_appointment_safe in Hs.
    destruct (tstzrange (ci_starts_at input) (ci_ends_at input)); [|discriminate].
    match type of Hs with context [if ?c then _ else _] => destruct c end;
      [discriminate|].
    match type of Hs with context [insert_row ?t0 ?row] =>
      destruct (insert_row t0 row) as [t0'|m] eqn:E end; [|discriminate].
    inversion Hs. subst. eapply by_insert. exact E.
  - left. cbn [snd] in *. rewrite Hs. reflexivity.
Qed.

(** Every request has the shape of a step. *)
Lemma outcome_shape (t : Table) (r : Request) : step_shape t r.
Proof.
  unfold step_shape, outcome. destruct (operation r); cbv zeta; cbn [fst snd].
  - apply hook_create_shape.
  - apply hook_update_shape.
  - destruct (hook_delete_shape (request_fault r) t x) as [H|(H1 & H2 & H3)];
      cbv zeta in *; [left; exact H | right].
    repeat split; trivial. apply (by_delete _ _ _ x). exact H3.
  - apply service_create_shape.
  - apply service_update_shape.
  - apply update_one_shape.
  - apply update_one_shape.
  - apply update_one_shape.
  - apply update_one_shape.
  - apply service_update_shape.
Qed.

End WriteFacts.

Section ConsistencyFacts.
Import Js Types Database Supabase Lifecycle Constraints Requests.

Lemma excluded_by_false (others : Table) (a : Appointment) :
  excluded_by others a = false <-> forall b, In b others -> clash b a = false.
Proof.
  unfold excluded_by, clash. split.
  - intros H b Hb.
    destruct (String.eqb (doctor_id b) (doctor_id a)
              && range_overlaps (slot b) (slot a)) eqn:E; [|reflexivity].
    assert (X : existsb (fun b0 => String.eqb (doctor_id b0) (doctor_id a)
                           && range_overlaps (slot b0) (slot a)) others = true).
    { apply existsb_exists. exists b. split; assumption. }
    congruence.
  - intro H.
    destruct (existsb _ others) eqn:E; [|reflexivity].
    apply existsb_exists in E. destruct E as (b & Hb & Hc).
    rewrite (H b Hb) in Hc. discriminate.
Qed.

Lemma has_id_existsb_false (x : string) (t : Table) :
  existsb (has_id x) t = false <-> ~ In x (map id t).
Proof.
  split.
  - intros H Hin. apply in_map_iff in Hin. destruct Hin as (a & Ha & Hin).
    assert (X : existsb (has_id x) t = true).
    { apply existsb_exists. exists a. split; [exact Hin|].
      unfold has_id. rewrite Ha. apply String.eqb_refl. }
    congruence.
  - intro H. destruct (existsb (has_id x) t) eqn:E; [|reflexivity].
    apply existsb_exists in E. destruct E as (a & Ha & Hid).
    unfold has_id in Hid. apply String.eqb_eq in Hid.
    exfalso. apply H. apply in_map_iff. exists a. split; assumption.
Qed.

Lemma in_without_id (x : string) (b : Appointment) (t : Table) :
  In b (without_id x t) <-> In b t /\ id b <> x.
Proof.
  unfold without_id. rewrite filter_In. unfold has_id.
  rewrite negb_true_iff, String.eqb_neq. tauto.
Qed.

End ConsistencyFacts.

Section ConsistencyWitness.
Import Js Types Database Supabase Lifecycle Constraints Requests.

Lemma one_row_consistent (a : Appointment) :
  row_check a = true -> consistent [a].
Proof.
  intro H. split; [|split].
  - repeat constructor. intros [].
  - intros b [<-|[]]. exact H.
  - intros b c [<-|[]] [<-|[]] Hne. contradiction.
Qed.

Example busy_day_table :
  map (fun a => (id a, starts_at a, ends_at a, status a))
      (run Scenarios.busy_day Samples.one_appointment)
  = [("apt-123", Samples.t_10_05, Samples.t_10_30, rescheduled)].
Proof. reflexivity. Qed.

(** X2.  A request that rejects changes nothing: whenever an operation
    of the module reports an error to its caller, the table is exactly
    as it was before the request. *)
Theorem rejected_request_changes_nothing (t : Table) (r : Request) :
  fst (outcome t r) = true -> serve t r = t.
Proof.
  intro H. rewrite <- outcome_table.
  destruct (outcome_shape t r) as [Hs|(Hf & _)]; [exact Hs|].
  congruence.
Qed.

Lemma rejected_request_changes_nothing_witness :
  fst (outcome Samples.one_appointment
         (mkRequest (ServiceCreate "apt-201" Scenarios.overlapping_booking)
                    Samples.t_10_00 None)) = true
  /\ serve Samples.one_appointment
       (mkRequest (ServiceCreate "apt-201" Scenarios.overlapping_booking)
                  Samples.t_10_00 None)
     = Samples.one_appointment.
Proof.
  split; [reflexivity|].
  apply (rejected_request_changes_nothing Samples.one_appointment
           (mkRequest (ServiceCreate "apt-201" Scenarios.overlapping_booking)
                      Samples.t_10_00 None)).
  reflexivity.
Defined.

(** X3.  When the storage request fails, whichever way it fails, every
    write operation of the module rejects, and the table is unchanged;
    this includes the hook's create, whose overlap check reports "no
    overlap" on the same failure. *)
Theorem failed_storage_rejects_every_write (t : Table) (r : Request) (f : Fault) :
  request_fault r = Some f ->
  fst (outcome t r) = true /\ serve t r = t.
Proof.
  intro H.
  assert (Hr : fst (outcome t r) = true).
  { unfold outcome. rewrite H.
    destruct (operation r) as [new_id input|appointments x input|x|new_id input
                              |x patch|x reason|x|x notes'|x|x s e];
      cbv zeta; cbn [fst].
    - destruct f; reflexivity.
    - unfold Hooks.updateAppointment.
      destruct (Hooks.is_some (ui_starts_at input)
                || Hooks.is_some (ui_ends_at input));
        [destruct (find (has_id x) appointments)|]; destruct f; reflexivity.
    - destruct f; reflexivity.
    - destruct f as [m|e]; [|reflexivity].
      unfold AppointmentsService.createAppointmentSafe, perform.
      cbn [fault fst]. destruct (includes "OVERLAP" m); reflexivity.
    - unfold AppointmentsService.updateAppointment.
      destruct (Hooks.is_some (ui_starts_at patch)
                || Hooks.is_some (ui_ends_at patch)); destruct f; reflexivity.
    - destruct f; reflexivity.
    - destruct f; reflexivity.
    - destruct f; reflexivity.
    - destruct f; reflexivity.
    - destruct f; reflexivity. }
  split; [exact Hr|].
  rewrite <- outcome_table.
  destruct (outcome_shape t r) as [Hs|(Hf & _)]; [exact Hs | congruence].
Qed.

Lemma failed_storage_rejects_every_write_witness :
  fst (outcome Samples.one_appointment
         (mkRequest (HookCreate "apt-200" Scenarios.adjacent_booking)
                    Samples.t_10_00 (Some (Unavailable "Failed to fetch")))) = true
  /\ serve Samples.one_appointment
       (mkRequest (HookCreate "apt-200" Scenarios.adjacent_booking)
                  Samples.t_10_00 (Some (Unavailable "Failed to fetch")))
     = Samples.one_appointment.
Proof.
  apply (failed_storage_rejects_every_write Samples.one_appointment
           (mkRequest (HookCreate "apt-200" Scenarios.adjacent_booking)
                      Samples.t_10_00 (Some (Unavailable "Failed to fetch")))
           (Unavailable "Failed to fetch")).
  reflexivity.
Defined.

End ConsistencyWitness.

(* ================================================================== *)
(** * Booking *)
(* ================================================================== *)

Section BookingFacts.
Import Js Types Database Supabase Hooks Constraints Requests Booking.

Lemma clash_true (b a : Appointment) :
  clash b a = true
  <-> doctor_id b = doctor_id a /\ meets b (starts_at a) (ends_at a).
Proof.
  unfold clash, meets, slot, range_overlaps.
  rewrite !andb_true_iff, String.eqb_eq, !Z.ltb_lt. tauto.
Qed.

(** The pre-check of the hook flags nothing exactly when no row of the
    doctor that is not cancelled meets the range. *)
Lemma precheck_free (t : Table) (lo hi : Z) (doctorId : string) :
  filter (overlap_query lo hi doctorId None) t = []
  <-> forall b, In b t -> doctor_id b = doctorId -> status b <> cancelled ->
                ~ meets b lo hi.
Proof.
  split.
  - intros H b Hb Hd Hs Hm.
    assert (X : In b (filter (overlap_query lo hi doctorId None) t)).
    { apply filter_In. split; [exact Hb|]. unfold overlap_query.
      apply base_query_true. unfold meets in Hm. repeat split; trivial; lia. }
    rewrite H in X. destruct X.
  - intro H. destruct (filter (overlap_query lo hi doctorId None) t) as [|b l] eqn:E;
      [reflexivity|].
    assert (X : In b (filter (overlap_query lo hi doctorId None) t))
      by (rewrite E; now left).
    apply filter_In in X. destruct X as [Hb Hq]. unfold overlap_query in Hq.
    apply base_query_true in Hq. destruct Hq as (Hd & Hs & H1 & H2).
    exfalso. apply (H b Hb Hd Hs). unfold meets. lia.
Qed.

Lemma slot_error_none (a : Appointment) :
  starts_at a <= ends_at a -> slot_error a = None.
Proof.
  intro H. unfold slot_error, tstzrange.
  destruct (Z.gtb_spec (starts_at a) (ends_at a)); [lia|].
  destruct (starts_at a =? ends_at a); reflexivity.
Qed.

Lemma slot_error_reversed (a : Appointment) :
  ends_at a < starts_at a ->
  slot_error a
  = Some "range lower bound must be less than or equal to range upper bound".
Proof.
  intro H. unfold slot_error, tstzrange.
  destruct (Z.gtb_spec (starts_at a) (ends_at a)); [reflexivity | lia].
Qed.

Lemma insert_row_ok (t : Table) (a : Appointment) :
  (exists t', insert_row t a = SqlOk t')
  <-> ~ In (id a) (map id t) /\ starts_at a < ends_at a
      /\ forall b, In b t -> doctor_id b = doctor_id a ->
                   ~ meets b (starts_at a) (ends_at a).
Proof.
  unfold insert_row. split.
  - intros [t' H].
    destruct (slot_error a); [discriminate|].
    destruct (negb (row_check a)) eqn:E2; [discriminate|].
    destruct (existsb (has_id (id a)) t) eqn:E1; [discriminate|].
    destruct (excluded_by t a) eqn:E3; [discriminate|].
    apply has_id_existsb_false in E1. apply negb_false_iff in E2.
    unfold row_check in E2. rewrite Z.gtb_ltb, Z.ltb_lt in E2.
    split; [exact E1|]. split; [exact E2|].
    intros b Hb Hd Hm.
    pose proof (proj1 (excluded_by_false t a) E3 b Hb) as Hc.
    assert (X : clash b a = true) by (apply clash_true; tauto). congruence.
  - intros (H1 & H2 & H3).
    rewrite slot_error_none by lia.
    assert (E2 : row_check a = true)
      by (unfold row_check; rewrite Z.gtb_ltb, Z.ltb_lt; exact H2).
    rewrite E2. cbn [negb].
    apply has_id_existsb_false in H1. rewrite H1.
    assert (E3 : excluded_by t a = false).
    { apply excluded_by_false. intros b Hb.
      destruct (clash b a) eqn:E; [|reflexivity].
      apply clash_true in E. destruct E as [Hd Hm]. exfalso. exact (H3 b Hb Hd Hm). }
    rewrite E3. eexists. reflexivity.
Qed.

Lemma insert_row_value (t t' : Table) (a : Appointment) :
  insert_row t a = SqlOk t' -> t' = (t ++ [a])%list.
Proof.
  unfold insert_row.
  destruct (slot_error a); [discriminate|].
  destruct (negb (row_check a)); [discriminate|].
  destruct (existsb (has_id (id a)) t); [discriminate|].
  destruct (excluded_by t a); [discriminate|].
  intro H. inversion H. reflexivity.
Qed.

(** The hook's create, on a storage that answers, step by step. *)
Lemma hook_create_healthy (now : Z) (new_id : string) (t : Table)
    (input : CreateAppointmentInput) :
  Hooks.createAppointment now new_id (mkBackend t None) input
  = match filter (overlap_query (ci_starts_at input) (ci_ends_at input)
                    (ci_doctor_id input) None) t with
    | [] =>
        match insert_row t (new_row now new_id input) with
        | SqlOk t' => (Ok (Some (new_row now new_id input)), mkBackend t' None)
        | SqlError m => (Throw (ErrorObj m), mkBackend t None)
        end
    | c :: l =>
        (Throw (ErrorObj (overlap_message (List.length (c :: l)))),
         mkBackend t None)
    end.
Proof.
  unfold Hooks.createAppointment. rewrite validateAppointmentOverlap_healthy.
  cbv zeta. cbn [hasOverlap message].
  destruct (filter (overlap_query (ci_starts_at input) (ci_ends_at input)
                      (ci_doctor_id input) None) t) as [|c l].
  - cbn [map List.length Nat.ltb Nat.leb]. unfold perform. cbn [fault table].
    fold (new_row now new_id input).
    destruct (insert_row t (new_row now new_id input)); reflexivity.
  - cbn [map List.length]. rewrite length_map. reflexivity.
Qed.

(** X4.  On a storage that answers, the hook's [createAppointment]
    succeeds exactly when the uuid is new, the range ends after it
    starts, and no existing appointment of the doctor, whatever its
    status, meets the requested range; it then returns the new row
    (status scheduled unless one was given) and appends it to the table. *)
Theorem createAppointment_succeeds_exactly_when
    (now : Z) (new_id : string) (t : Table) (input : CreateAppointmentInput) :
  let res := Hooks.createAppointment now new_id (mkBackend t None) input in
  let free :=
    ~ In new_id (map id t)
    /\ ci_starts_at input < ci_ends_at input
    /\ (forall b, In b t -> doctor_id b = ci_doctor_id input ->
                  ~ meets b (ci_starts_at input) (ci_ends_at input)) in
  (rejected (fst res) = false <-> free)
  /\ (free ->
      res = (Ok (Some (new_row now new_id input)),
             mkBackend (t ++ [new_row now new_id input])%list None)).
Proof.
  cbv zeta. rewrite hook_create_healthy.
  pose proof (insert_row_ok t (new_row now new_id input)) as Hins.
  cbn [id starts_at ends_at doctor_id new_row] in Hins.
  pose proof (precheck_free t (ci_starts_at input) (ci_ends_at input)
                (ci_doctor_id input)) as Hpre.
  assert (Hfree : ~ In new_id (map id t)
                  /\ ci_starts_at input < ci_ends_at input
                  /\ (forall b, In b t -> doctor_id b = ci_doctor_id input ->
                        ~ meets b (ci_starts_at input) (ci_ends_at input)) ->
                  filter (overlap_query (ci_starts_at input) (ci_ends_at input)
                            (ci_doctor_id input) None) t = []).
  { intros (_ & _ & H3). apply Hpre. intros b Hb Hd _. exact (H3 b Hb Hd). }
  split.
  - split.
    + destruct (filter _ t) as [|c l]; [|discriminate].
      destruct (insert_row t (new_row now new_id input)) as [t'|m] eqn:E;
        [|discriminate].
      intros _. apply Hins. exists t'. reflexivity.
    + intro H. rewrite (Hfree H).
      apply Hins in H. destruct H as [t' E]. rewrite E. reflexivity.
  - intro H. rewrite (Hfree H).
    apply Hins in H. destruct H as [t' E]. rewrite E.
    apply insert_row_value in E. subst t'. reflexivity.
Qed.

Example createAppointment_adjacent_example :
  map id (table (snd (Hooks.createAppointment Samples.t_10_00 "apt-200"
                        Samples.healthy Scenarios.adjacent_booking)))
  = ["apt-123"; "apt-200"].
Proof. reflexivity. Qed.

Lemma insert_row_clash (t : Table) (a b : Appointment) :
  In b t -> clash b a = true -> exists m, insert_row t a = SqlError m.
Proof.
  intros Hb Hc. unfold insert_row.
  destruct (slot_error a); [eexists; reflexivity|].
  destruct (negb (row_check a)); [eexists; reflexivity|].
  destruct (existsb (has_id (id a)) t); [eexists; reflexivity|].
  destruct (excluded_by t a) eqn:E; [eexists; reflexivity|].
  pose proof (proj1 (excluded_by_false t a) E b Hb). congruence.
Qed.

(** X5.  Cancelling does not free the slot.  If the table holds an
    appointment of the doctor that meets the requested range, cancelled
    or not, both creates reject and store nothing.  And when every such
    appointment is cancelled, the hook's overlap check still answers
    "no overlap" for that range: for a new id and a range that ends
    after it starts, the refusal then comes from the exclusion
    constraint of the table, whose error the hook throws as it is. *)
Theorem occupied_slot_cannot_be_booked
    (now : Z) (new_id : string) (t : Table) (input : CreateAppointmentInput)
    (b : Appointment) :
  In b t ->
  doctor_id b = ci_doctor_id input ->
  meets b (ci_starts_at input) (ci_ends_at input) ->
  (exists m, Hooks.createAppointment now new_id (mkBackend t None) input
             = (Throw (ErrorObj m), mkBackend t None))
  /\ (exists m, AppointmentsService.createAppointmentSafe now new_id
                  (mkBackend t None) input
                = (Throw (ErrorObj m), mkBackend t None))
  /\ ((forall c, In c t -> doctor_id c = ci_doctor_id input ->
                 meets c (ci_starts_at input) (ci_ends_at input) ->
                 status c = cancelled) ->
      Hooks.validateAppointmentOverlap (mkBackend t None)
        (ci_starts_at input) (ci_ends_at input) (ci_doctor_id input) None
      = Ok {| hasOverlap := false; conflictingAppointments := []; message := None |}
      /\ (ci_starts_at input < ci_ends_at input ->
          ~ In new_id (map id t) ->
          Hooks.createAppointment now new_id (mkBackend t None) input
          = (Throw (ErrorObj
               ("conflicting key value violates exclusion constraint "
                  ++ quoted "no_overlap_per_doctor")),
             mkBackend t None))).
Proof.
  intros Hb Hd Hm.
  assert (Hc : clash b (new_row now new_id input) = true)
    by (apply clash_true; split; assumption).
  split; [|split].
  - rewrite hook_create_healthy.
    destruct (filter _ t) as [|c l]; [|eexists; reflexivity].
    destruct (insert_row_clash t _ b Hb Hc) as [m E]. rewrite E.
    eexists. reflexivity.
  - unfold AppointmentsService.createAppointmentSafe, perform.
    cbn [fault table]. unfold create_appointment_safe.
    destruct (tstzrange (ci_starts_at input) (ci_ends_at input)) as [r|m].
    + destruct (existsb _ t).
      * cbn. eexists. reflexivity.
      * match goal with |- context [insert_row t ?row] =>
          change row with (new_row now new_id input) end.
        destruct (insert_row_clash t _ b Hb Hc) as [m E]. rewrite E.
        cbn. destruct (includes "OVERLAP" m); eexists; reflexivity.
    + cbn. destruct (includes "OVERLAP" m); eexists; reflexivity.
  - intro Hall.
    assert (Hfree : filter (overlap_query (ci_starts_at input) (ci_ends_at input)
                              (ci_doctor_id input) None) t = []).
    { apply precheck_free. intros c Hin Hdc Hs Hmc.
      apply Hs. exact (Hall c Hin Hdc Hmc). }
    split.
    + rewrite validateAppointmentOverlap_healthy, Hfree. reflexivity.
    + intros Hse Hnew. rewrite hook_create_healthy, Hfree. unfold insert_row.
      rewrite slot_error_none by (cbn [new_row starts_at ends_at]; lia).
      unfold row_check. cbn [new_row starts_at ends_at id].
      destruct (Z.gtb_spec (ci_ends_at input) (ci_starts_at input)); [|lia].
      cbn [negb]. apply has_id_existsb_false in Hnew. rewrite Hnew.
      assert (E : excluded_by t (new_row now new_id input) = true).
      { destruct (excluded_by t (new_row now new_id input)) eqn:E; [reflexivity|].
        pose proof (proj1 (excluded_by_false t _) E b Hb). congruence. }
      rewrite E. reflexivity.
Qed.

Lemma occupied_slot_cannot_be_booked_witness :
  In (Samples.with_status cancelled Samples.appointment_X) Scenarios.cancelled_X
  /\ Hooks.validateAppointmentOverlap (mkBackend Scenarios.cancelled_X None)
       Samples.t_10_15 Samples.t_10_45 "doctor-789" None
     = Ok {| hasOverlap := false; conflictingAppointments := []; message := None |}
  /\ Hooks.createAppointment Samples.t_10_00 "apt-201"
       (mkBackend Scenarios.cancelled_X None) Scenarios.overlapping_booking
     = (Throw (ErrorObj
          ("conflicting key value violates exclusion constraint "
             ++ quoted "no_overlap_per_doctor")),
        mkBackend Scenarios.cancelled_X None).
Proof.
  assert (H : In (Samples.with_status cancelled Samples.appointment_X)
                 Scenarios.cancelled_X) by (left; reflexivity).
  split; [exact H|].
  destruct (proj2 (proj2 (occupied_slot_cannot_be_booked Samples.t_10_00 "apt-201"
                            Scenarios.cancelled_X Scenarios.overlapping_booking
                            (Samples.with_status cancelled Samples.appointment_X)
                            H eq_refl (conj eq_refl eq_refl))))
    as [Hcheck Hcreate].
  - intros c [<-|[]] _ _. reflexivity.
  - split; [exact Hcheck|]. apply Hcreate.
    + reflexivity.
    + intros [E|[]]. discriminate.
Defined.

End BookingFacts.

(* ================================================================== *)
(** * Status changes and reschedules *)
(* ================================================================== *)

Section StatusFacts.
Import Js Types Database Supabase Constraints Requests Booking.

Lemma clash_same_slot (b a a' : Appointment) :
  doctor_id a' = doctor_id a -> starts_at a' = starts_at a ->
  ends_at a' = ends_at a -> clash b a' = clash b a.
Proof.
  intros H1 H2 H3. unfold clash, slot. rewrite H1, H2, H3. reflexivity.
Qed.

(** An update that assigns only status and notes goes through on a
    consistent table. *)
Lemma update_one_status_only (context : string) (now : Z) (t : Table)
    (x : string) (a : Appointment) (st : AppointmentStatus) (n : option string) :
  consistent t -> find_row x t = Some a ->
  AppointmentsService.update_one context now (mkBackend t None) x
    (mkPatch None None (Some st) n)
  = (Ok (Some (patched now (mkPatch None None (Some st) n) a)),
     mkBackend (replace_row (patched now (mkPatch None None (Some st) n) a) t) None).
Proof.
  intros (Hnd & Hck & Hex) Hf.
  unfold AppointmentsService.update_one, perform, single, update_row.
  cbn [fault table]. rewrite Hf.
  pose proof (find_row_some _ _ _ Hf) as [Hin Hid].
  assert (E1 : row_check (patched now (mkPatch None None (Some st) n) a) = true)
    by (exact (Hck a Hin)).
  assert (E0 : slot_error (patched now (mkPatch None None (Some st) n) a) = None).
  { apply slot_error_none. unfold row_check in E1.
    rewrite Z.gtb_ltb, Z.ltb_lt in E1. lia. }
  rewrite E0, E1. cbn [negb].
  assert (E2 : excluded_by (without_id x t)
                 (patched now (mkPatch None None (Some st) n) a) = false).
  { apply excluded_by_false. intros b Hb. apply in_without_id in Hb.
    destruct Hb as [Hb Hne].
    rewrite (clash_same_slot b a (patched now (mkPatch None None (Some st) n) a)
               eq_refl eq_refl eq_refl).
    apply Hex; [exact Hb | exact Hin | congruence]. }
  rewrite E2. reflexivity.
Qed.

(** X6.  The status operations of the service do not look at the
    current status.  On a consistent table and a storage that answers,
    confirming, cancelling, completing or marking as no-show an existing
    appointment always succeeds, from every status (also from cancelled
    or completed): the row keeps its id, doctor and times and takes the
    new status. *)
Theorem status_operations_ignore_current_status
    (now : Z) (t : Table) (x : string) (a : Appointment)
    (reason notes' : option string) :
  consistent t -> find_row x t = Some a ->
  let result st (res : Result (option Appointment) * Backend) :=
    exists a', res = (Ok (Some a'), mkBackend (replace_row a' t) None)
               /\ status a' = st /\ id a' = id a /\ doctor_id a' = doctor_id a
               /\ starts_at a' = starts_at a /\ ends_at a' = ends_at a in
  result confirmed (AppointmentsService.confirmAppointment now (mkBackend t None) x)
  /\ result cancelled
       (AppointmentsService.cancelAppointment now (mkBackend t None) x reason)
  /\ result completed
       (AppointmentsService.completeAppointment now (mkBackend t None) x notes')
  /\ result no_show (AppointmentsService.markNoShow now (mkBackend t None) x).
Proof.
  intros Hc Hf result.
  unfold result, AppointmentsService.confirmAppointment,
    AppointmentsService.cancelAppointment,
    AppointmentsService.completeAppointment, AppointmentsService.markNoShow.
  repeat split;
    (eexists; split;
     [apply (update_one_status_only _ now t x a _ _ Hc Hf)
     | repeat split; reflexivity]).
Qed.

Lemma status_operations_ignore_current_status_witness :
  consistent Scenarios.cancelled_X
  /\ exists a',
       AppointmentsService.confirmAppointment Samples.t_10_45
         (mkBackend Scenarios.cancelled_X None) "apt-123"
       = (Ok (Some a'), mkBackend (replace_row a' Scenarios.cancelled_X) None)
       /\ status a' = confirmed /\ id a' = "apt-123".
Proof.
  assert (H : consistent Scenarios.cancelled_X)
    by (apply one_row_consistent; reflexivity).
  split; [exact H|].
  destruct (proj1 (status_operations_ignore_current_status Samples.t_10_45
                     Scenarios.cancelled_X "apt-123"
                     (Samples.with_status cancelled Samples.appointment_X)
                     None None H eq_refl))
    as (a' & Hr & Hs & Hi & _).
  exists a'. split; [exact Hr|]. split; [exact Hs | exact Hi].
Defined.

Lemma tstzrange_proper (lo hi : Z) : lo < hi -> tstzrange lo hi = SqlOk (Bounded lo hi).
Proof.
  intro H. unfold tstzrange.
  destruct (lo >? hi) eqn:E1; [rewrite Z.gtb_ltb, Z.ltb_lt in E1; lia|].
  destruct (lo =? hi) eqn:E2; [apply Z.eqb_eq in E2; lia|]. reflexivity.
Qed.

Lemma filter_has_id_unique (x : string) (t : Table) (a : Appointment) :
  NoDup (map id t) -> find_row x t = Some a -> filter (has_id x) t = [a].
Proof.
  unfold find_row. induction t as [|b t IH]; simpl; [discriminate|].
  intros Hnd Hf. inversion Hnd as [|? ? Hn Hd]. subst.
  destruct (has_id x b) eqn:E.
  - inversion Hf. subst b. f_equal.
    destruct (filter (has_id x) t) as [|c l] eqn:Ec; [reflexivity|].
    assert (X : In c (filter (has_id x) t)) by (rewrite Ec; now left).
    apply filter_In in X. destruct X as [Hc Hx].
    unfold has_id in E, Hx. apply String.eqb_eq in E. apply String.eqb_eq in Hx.
    exfalso. apply Hn. apply in_map_iff. exists c. split; [congruence | exact Hc].
  - apply IH; assumption.
Qed.

(** The rows the stored procedure returns for a proper range, once the
    row under [x] is taken out, when no other row of the doctor meets
    the range. *)
Lemma other_conflicts_none (t : Table) (x d : string) (s e : Z) :
  (forall b, In b t -> id b <> x -> doctor_id b = d -> ~ meets b s e) ->
  filter (fun apt => negb (String.eqb (c_id apt) x))
    (map conflict_of_row
       (filter (fun a => String.eqb (doctor_id a) d
                         && range_overlaps (Bounded s e) (slot a)) t))
  = [].
Proof.
  induction t as [|b t IH]; intro H; [reflexivity|].
  cbn [filter].
  assert (IH' : filter (fun apt => negb (String.eqb (c_id apt) x))
                  (map conflict_of_row
                     (filter (fun a => String.eqb (doctor_id a) d
                                       && range_overlaps (Bounded s e) (slot a)) t))
                = [])
    by (apply IH; intros c Hc; apply H; now right).
  destruct (String.eqb (doctor_id b) d && range_overlaps (Bounded s e) (slot b))
    eqn:E; [|exact IH'].
  cbn [map filter conflict_of_row c_id].
  destruct (String.eqb (id b) x) eqn:Ex; cbn [negb]; [exact IH'|].
  exfalso. apply andb_true_iff in E. destruct E as [Ed Eo].
  apply String.eqb_eq in Ed. apply String.eqb_neq in Ex.
  unfold range_overlaps, slot in Eo. apply andb_true_iff in Eo.
  rewrite !Z.ltb_lt in Eo.
  apply (H b (or_introl eq_refl) Ex Ed). unfold meets. lia.
Qed.

(** X7.  An appointment can be moved onto a range that overlaps its own
    old slot.  On a consistent table and a storage that answers,
    [rescheduleAppointment] of an existing appointment to a range that
    ends after it starts succeeds whenever no other appointment of the
    same doctor meets the new range: the overlap check leaves the
    appointment itself out, and so does the exclusion constraint.  The
    row takes the new times and the status rescheduled. *)
Theorem reschedule_excludes_own_slot
    (now : Z) (t : Table) (x : string) (a : Appointment) (s e : Z) :
  consistent t -> find_row x t = Some a -> x <> "" -> s < e ->
  (forall b, In b t -> id b <> x -> doctor_id b = doctor_id a -> ~ meets b s e) ->
  exists a',
    AppointmentsService.rescheduleAppointment now (mkBackend t None) x s e
    = (Ok (Some a'), mkBackend (replace_row a' t) None)
    /\ id a' = id a /\ doctor_id a' = doctor_id a
    /\ starts_at a' = s /\ ends_at a' = e /\ status a' = rescheduled.
Proof.
  intros (Hnd & Hck & Hex) Hf Hx Hse Hfree.
  exists (patched now (mkPatch (Some s) (Some e) (Some rescheduled) None) a).
  split; [|repeat split; reflexivity].
  pose proof (find_row_some _ _ _ Hf) as [Hin Hid].
  unfold AppointmentsService.rescheduleAppointment,
    AppointmentsService.updateAppointment.
  cbn [ui_starts_at ui_ends_at Hooks.is_some orb].
  unfold respond at 1. cbn [fault table]. unfold single at 1.
  rewrite (filter_has_id_unique x t a Hnd Hf).
  cbn [AppointmentsService.data_or_throw].
  unfold AppointmentsService.checkOverlap, respond. cbn [fault table].
  unfold check_appointment_overlap. rewrite (tstzrange_proper s e Hse).
  cbn [AppointmentsService.data_or_throw].
  assert (Ht : truthy x = true).
  { unfold truthy. apply negb_true_iff. apply String.eqb_neq. exact Hx. }
  rewrite Ht. rewrite (other_conflicts_none t x (doctor_id a) s e Hfree).
  cbn [List.length Nat.ltb Nat.leb hasOverlap].
  unfold AppointmentsService.update_one, perform, single, update_row.
  cbn [fault table].
  change (Hooks.patch_of_input
            (mkUpdateInput (Some s) (Some e) (Some rescheduled) None))
    with (mkPatch (Some s) (Some e) (Some rescheduled) None).
  rewrite Hf.
  assert (E1 : row_check (patched now
                 (mkPatch (Some s) (Some e) (Some rescheduled) None) a) = true).
  { unfold row_check. cbn. rewrite Z.gtb_ltb. apply Z.ltb_lt. exact Hse. }
  rewrite slot_error_none by (cbn; lia).
  rewrite E1. cbn [negb].
  assert (E2 : excluded_by (without_id x t)
                 (patched now (mkPatch (Some s) (Some e) (Some rescheduled) None) a)
               = false).
  { apply excluded_by_false. intros b Hb. apply in_without_id in Hb.
    destruct Hb as [Hb Hne].
    destruct (clash b (patched now
                (mkPatch (Some s) (Some e) (Some rescheduled) None) a)) eqn:E;
      [|reflexivity].
    apply clash_true in E. destruct E as [Hd Hm]. cbn in Hd, Hm.
    exfalso. exact (Hfree b Hb Hne Hd Hm). }
  rewrite E2. reflexivity.
Qed.

(** X moves from [10:00, 10:30) to [10:15, 10:45), across its own slot. *)
Lemma reschedule_excludes_own_slot_witness :
  consistent Samples.one_appointment
  /\ exists a',
       AppointmentsService.rescheduleAppointment Samples.t_10_05 Samples.healthy
         "apt-123" Samples.t_10_15 Samples.t_10_45
       = (Ok (Some a'), mkBackend (replace_row a' Samples.one_appointment) None)
       /\ starts_at a' = Samples.t_10_15 /\ ends_at a' = Samples.t_10_45
       /\ status a' = rescheduled.
Proof.
  assert (H : consistent Samples.one_appointment)
    by (apply one_row_consistent; reflexivity).
  split; [exact H|].
  destruct (reschedule_excludes_own_slot Samples.t_10_05 Samples.one_appointment
              "apt-123" Samples.appointment_X Samples.t_10_15 Samples.t_10_45
              H eq_refl)
    as (a' & Hr & _ & _ & Hs & He & Hst).
  - discriminate.
  - reflexivity.
  - intros b [<-|[]] Hne. exfalso. apply Hne. reflexivity.
  - exists a'. split; [exact Hr|]. split; [exact Hs|]. split; [exact He | exact Hst].
Defined.

End StatusFacts.

(* ================================================================== *)
(** * The two overlap checks side by side *)
(* ================================================================== *)

Section OverlapChecks.
Import Js Types Database Supabase Hooks.


Lemma filter_map_swap {A B} (p : B -> bool) (f : A -> B) (l : list A) :
  filter p (map f l) = map f (filter (fun a => p (f a)) l).
Proof.
  induction l as [|a l IH]; [reflexivity|]. simpl.
  destruct (p (f a)); simpl; rewrite IH; reflexivity.
Qed.

Lemma filter_filter {A} (p q : A -> bool) (l : list A) :
  filter p (filter q l) = filter (fun a => q a && p a) l.
Proof.
  induction l as [|a l IH]; [reflexivity|]. simpl.
  destruct (q a); simpl; [destruct (p a)|]; rewrite IH; reflexivity.
Qed.


(** X9.  When the doctor has no cancelled appointment, the hook's check
    and the service's check agree on every proper range: the same flag,
    and the same conflicting appointments (id, start, end) in the same
    order. *)
Theorem overlap_checks_agree
    (t : Table) (doctorId : string) (startsAt endsAt : Z)
    (excludeId : option string) :
  startsAt < endsAt ->
  (forall a, In a t -> doctor_id a = doctorId -> status a <> cancelled) ->
  exists v w,
    validateAppointmentOverlap (mkBackend t None) startsAt endsAt doctorId excludeId
      = Ok v
    /\ AppointmentsService.checkOverlap (mkBackend t None) doctorId startsAt endsAt
         excludeId = Ok w
    /\ hasOverlap v = hasOverlap w
    /\ map (fun c => (c_id c, c_starts_at c, c_ends_at c)) (conflictingAppointments v)
       = map (fun c => (c_id c, c_starts_at c, c_ends_at c)) (conflictingAppointments w).
Proof.
  intros Hse Hnc.
  rewrite validateAppointmentOverlap_healthy. cbv zeta.
  unfold AppointmentsService.checkOverlap, respond, check_appointment_overlap.
  cbn [fault table]. rewrite (tstzrange_proper startsAt endsAt Hse).
  cbn [AppointmentsService.data_or_throw].
  assert (Hsvc : match excludeId with
                 | Some x =>
                     if truthy x
                     then filter (fun apt => negb (String.eqb (c_id apt) x))
                            (map conflict_of_row
                               (filter (fun a => String.eqb (doctor_id a) doctorId
                                  && range_overlaps (Bounded startsAt endsAt) (slot a)) t))
                     else map conflict_of_row
                            (filter (fun a => String.eqb (doctor_id a) doctorId
                               && range_overlaps (Bounded startsAt endsAt) (slot a)) t)
                 | None => map conflict_of_row
                             (filter (fun a => String.eqb (doctor_id a) doctorId
                                && range_overlaps (Bounded startsAt endsAt) (slot a)) t)
                 end
                 = map conflict_of_row
                     (filter (overlap_query startsAt endsAt doctorId excludeId) t)).
  { assert (Hbase : forall a, In a t ->
              (String.eqb (doctor_id a) doctorId
               && range_overlaps (Bounded startsAt endsAt) (slot a))
              = q_intersects startsAt endsAt
                  (q_neq_status cancelled (q_eq_doctor doctorId q_all)) a).
    { intros a Ha. unfold q_intersects, q_neq_status, q_eq_doctor, q_all,
        range_overlaps, slot. cbn [andb].
      destruct (String.eqb (doctor_id a) doctorId) eqn:Ed; [|reflexivity].
      apply String.eqb_eq in Ed.
      assert (Es : status_eqb (status a) cancelled = false)
        by (apply status_eqb_neq; exact (Hnc a Ha Ed)).
      rewrite Es. cbn [negb andb]. rewrite Z.gtb_ltb. apply andb_comm. }
    unfold overlap_query.
    destruct excludeId as [x|]; [destruct (truthy x)|].
    - rewrite filter_map_swap, filter_filter. f_equal.
      apply filter_ext_in. intros a Ha. unfold q_neq_id.
      rewrite (Hbase a Ha). reflexivity.
    - f_equal. apply filter_ext_in. exact Hbase.
    - f_equal. apply filter_ext_in. exact Hbase. }
  rewrite Hsvc.
  eexists. eexists. split; [reflexivity|]. split; [reflexivity|].
  cbn [hasOverlap conflictingAppointments]. rewrite !length_map.
  split; [reflexivity|]. rewrite !map_map. reflexivity.
Qed.

Lemma overlap_checks_agree_witness :
  Samples.t_10_15 < Samples.t_10_45
  /\ exists v w,
       validateAppointmentOverlap Samples.healthy Samples.t_10_15 Samples.t_10_45
         "doctor-789" None = Ok v
       /\ AppointmentsService.checkOverlap Samples.healthy "doctor-789"
            Samples.t_10_15 Samples.t_10_45 None = Ok w
       /\ hasOverlap v = hasOverlap w
       /\ map (fun c => (c_id c, c_starts_at c, c_ends_at c))
            (conflictingAppointments v)
          = map (fun c => (c_id c, c_starts_at c, c_ends_at c))
              (conflictingAppointments w).
Proof.
  split; [reflexivity|].
  apply (overlap_checks_agree Samples.one_appointment "doctor-789"
           Samples.t_10_15 Samples.t_10_45 None).
  - reflexivity.
  - intros a [<-|[]] _. discriminate.
Defined.

End OverlapChecks.

(* ================================================================== *)
(** * The email service beyond one failing transport *)
(* ================================================================== *)

Section ServiceFacts.
Import Js Email EmailBatch.

Lemma world_eta (w : World) : mkWorld (calls w) (sleeps w) = w.
Proof. destruct w; reflexivity. Qed.

Lemma waits_from_cons (svc : EmailService) (attempt k : nat) :
  waits_from svc attempt (S k)
  = (cfg_retryDelayMs svc * Z.of_nat attempt) :: waits_from svc (S attempt) k.
Proof. reflexivity. Qed.

(** One turn of the loop of [send] over a recorded transport. *)
Lemma send_loop_step (svc : EmailService) (outcomes : Outcomes)
    (normalized : SendEmailOptions) (rem attempt : nat)
    (lastError : option Thrown) (w : World) :
  cfg_provider svc = recorded_send outcomes ->
  send_loop svc normalized (S rem) attempt lastError w
  = match outcomes (List.length (calls w)) normalized with
    | Ok r => (Ok r, mkWorld (calls w ++ [normalized]) (sleeps w))
    | Throw e =>
        send_loop svc normalized rem (S attempt) (Some e)
          (mkWorld (calls w ++ [normalized])
                   (if (attempt <? cfg_retryAttempts svc)%nat
                    then sleeps w ++ [cfg_retryDelayMs svc * Z.of_nat attempt]
                    else sleeps w))
    end.
Proof.
  intro Hp. cbn [send_loop]. unfold try_catch. rewrite Hp.
  unfold recorded_send at 1.
  destruct (outcomes (List.length (calls w)) normalized) as [r|e]; [reflexivity|].
  unfold bind. destruct (attempt <? cfg_retryAttempts svc)%nat; reflexivity.
Qed.

(** The loop of [send], whatever the transport answers. *)
Lemma send_loop_bounded (svc : EmailService) (outcomes : Outcomes)
    (normalized : SendEmailOptions) :
  cfg_provider svc = recorded_send outcomes ->
  forall (remaining attempt : nat) (lastError : option Thrown) (w : World),
    (attempt + remaining = S (cfg_retryAttempts svc))%nat ->
    exists k,
      (k <= remaining)%nat
      /\ ((1 <= remaining)%nat -> (1 <= k)%nat)
      /\ snd (send_loop svc normalized remaining attempt lastError w)
         = mkWorld (calls w ++ repeat normalized k)
                   (sleeps w ++ waits_from svc attempt (k - 1))
      /\ match fst (send_loop svc normalized remaining attempt lastError w) with
         | Ok r =>
             (1 <= k)%nat
             /\ outcomes (List.length (calls w) + (k - 1))%nat normalized = Ok r
         | Throw _ => k = remaining
         end.
Proof.
  intros Hp. induction remaining as [|rem IH]; intros attempt lastError w Hsum.
  - exists 0%nat. cbn. rewrite !app_nil_r, world_eta. repeat split; lia.
  - rewrite (send_loop_step svc outcomes normalized rem attempt lastError w Hp).
    destruct (outcomes (List.length (calls w)) normalized) as [r|e] eqn:Eo.
    + exists 1%nat. cbn [fst snd repeat Nat.sub waits_from seq map].
      rewrite app_nil_r, Nat.add_0_r. repeat split; try lia. exact Eo.
    + destruct (IH (S attempt) (Some e)
                  (mkWorld (calls w ++ [normalized])
                     (if (attempt <? cfg_retryAttempts svc)%nat
                      then sleeps w ++ [cfg_retryDelayMs svc * Z.of_nat attempt]
                      else sleeps w))
                  ltac:(lia)) as (k & Hk & Hk1 & Hw & Hr).
      exists (S k). cbn [calls sleeps] in *.
      split; [lia|]. split; [lia|]. split.
      * rewrite Hw. cbn [repeat Nat.sub]. rewrite Nat.sub_0_r, <- app_assoc.
        cbn [app]. f_equal.
        destruct rem as [|rem'].
        -- assert (k = 0)%nat by lia. subst k.
           assert (Hn : (attempt <? cfg_retryAttempts svc)%nat = false)
             by (apply Nat.ltb_ge; lia).
           rewrite Hn. reflexivity.
        -- assert (Hk' : (1 <= k)%nat) by (apply Hk1; lia).
           assert (Hn : (attempt <? cfg_retryAttempts svc)%nat = true)
             by (apply Nat.ltb_lt; lia).
           rewrite Hn. destruct k as [|k']; [lia|].
           cbn [Nat.sub]. rewrite Nat.sub_0_r, waits_from_cons, <- app_assoc.
           reflexivity.
      * destruct (fst (send_loop svc normalized rem (S attempt) (Some e) _))
          as [r|e'].
        -- destruct Hr as [Hk' Hr]. split; [lia|].
           rewrite length_app in Hr. cbn [List.length] in Hr.
           replace (List.length (calls w) + (S k - 1))%nat
             with (List.length (calls w) + 1 + (k - 1))%nat by lia.
           exact Hr.
        -- lia.
Qed.

(** X10.  Whatever the transport answers, [send] calls it at most
    [retryAttempts] times, and at least once when [retryAttempts] is not
    zero, always with the same normalized message.  Between two
    consecutive calls it waits exactly once: after k calls the waits are
    [1 * d], ..., [(k - 1) * d], so there is no wait after the last
    attempt.  It resolves with the answer of its last call, and rejects
    only after [retryAttempts] calls. *)
Theorem send_attempts_are_bounded
    (svc : EmailService) (outcomes : Outcomes) (options : SendEmailOptions)
    (w : World) :
  cfg_provider svc = recorded_send outcomes ->
  exists k,
    (k <= cfg_retryAttempts svc)%nat
    /\ ((1 <= cfg_retryAttempts svc)%nat -> (1 <= k)%nat)
    /\ snd (send svc options w)
       = mkWorld (calls w ++ repeat (normalize svc options) k)
                 (sleeps w
                    ++ map (fun i => cfg_retryDelayMs svc * Z.of_nat i)
                         (seq 1 (k - 1)))
    /\ match fst (send svc options w) with
       | Ok r =>
           (1 <= k)%nat
           /\ outcomes (List.length (calls w) + (k - 1))%nat (normalize svc options)
              = Ok r
       | Throw _ => k = cfg_retryAttempts svc
       end.
Proof.
  intro Hp. unfold send.
  apply (send_loop_bounded svc outcomes (normalize svc options) Hp
           (cfg_retryAttempts svc) 1%nat None w).
  lia.
Qed.

(** The transport rejects the first call and answers the second: two
    calls, one wait of 1000 ms. *)
Lemma send_attempts_are_bounded_witness :
  exists k,
    (k <= 3)%nat
    /\ snd (send (Samples.default_service Scenarios.first_call_fails)
              Samples.message_to_patient initial_world)
       = mkWorld (repeat (normalize (Samples.default_service Scenarios.first_call_fails)
                            Samples.message_to_patient) k)
                 (map (fun i => 1000 * Z.of_nat i) (seq 1 (k - 1))).
Proof.
  destruct (send_attempts_are_bounded
              (Samples.default_service Scenarios.first_call_fails)
              Scenarios.first_call_fails Samples.message_to_patient
              initial_world eq_refl) as (k & Hk & _ & Hw & _).
  exists k. split; [exact Hk | exact Hw].
Defined.

Example send_second_attempt_example :
  List.length (calls (snd (send (Samples.default_service Scenarios.first_call_fails)
                             Samples.message_to_patient initial_world))) = 2%nat
  /\ sleeps (snd (send (Samples.default_service Scenarios.first_call_fails)
                    Samples.message_to_patient initial_world)) = [1000].
Proof. split; reflexivity. Qed.

End ServiceFacts.

Section BatchOfEmails.
Import Js Email EmailBatch.




(** Two emails over a transport that rejects every call: two failed
    entries, each after three attempts. *)
Example sendBatch_all_fail_example :
  fst (sendBatch (Samples.default_service Samples.always_failing)
         [Samples.message_to_patient; Samples.message_to_patient] initial_world)
  = Ok [ failed_response
           (ErrorObj "Failed to send email after 3 attempts: Provider error");
         failed_response
           (ErrorObj "Failed to send email after 3 attempts: Provider error") ]
  /\ List.length (calls (snd (sendBatch (Samples.default_service Samples.always_failing)
                                [Samples.message_to_patient; Samples.message_to_patient]
                                initial_world))) = 6%nat.
Proof. split; reflexivity. Qed.

End BatchOfEmails.

(* ================================================================== *)
(** * Cancellation emails and failing templates *)
(* ================================================================== *)

Section CancellationFacts.
Import Js Types Email AppointmentEmails CancellationEmail.




(** With a template that throws, nothing is sent for any item. *)
Lemma batch_loop_template_fails (deps : Deps) (emailService : SendFn)
    (commonOptions : PartialEmailOptions) (e : Thrown) :
  (forall p, reminderTemplate deps p = Throw e) ->
  forall (items : list BatchItem) (results : BatchResult) (w : World),
    batch_loop deps emailService commonOptions items results w
    = (Ok {| successful := successful results;
             failed := (failed results + List.length items)%nat;
             errors :=
               List.app (errors results)
                 (map (fun item =>
                         "Appointment " ++ id (item_appointment item)
                           ++ ": Failed to send reminder email: "
                           ++ message_or "Unknown error" e) items) |},
       w).
Proof.
  intros Ht. induction items as [|item rest IH]; intros results w.
  - cbn. rewrite Nat.add_0_r, app_nil_r. destruct results; reflexivity.
  - cbn [batch_loop]. unfold bind at 1. unfold try_catch at 1.
    unfold bind at 1. unfold sendReminderEmail, try_catch, bind, lift.
    rewrite Ht. unfold throw, ret. rewrite IH.
    cbn [count_failure successful failed errors List.length map].
    rewrite <- app_assoc, Nat.add_succ_r. reflexivity.
Qed.

(** X13.  When the reminder template throws, a batch of reminders sends
    nothing at all and still resolves: every item is counted as failed,
    none as successful, and the errors list one entry per item, in
    order, "Appointment <id>: Failed to send reminder email: <message>". *)
Theorem sendBatchReminders_template_fails
    (deps : Deps) (emailService : SendFn) (items : list BatchItem)
    (commonOptions : option PartialEmailOptions) (w : World) (e : Thrown) :
  (forall p, reminderTemplate deps p = Throw e) ->
  sendBatchReminders deps emailService items commonOptions w
  = (Ok {| successful := 0;
           failed := List.length items;
           errors :=
             map (fun item =>
                    "Appointment " ++ id (item_appointment item)
                      ++ ": Failed to send reminder email: "
                      ++ message_or "Unknown error" e) items |},
     w).
Proof.
  intro Ht. unfold sendBatchReminders.
  rewrite (batch_loop_template_fails deps emailService _ e Ht). reflexivity.
Qed.

Lemma sendBatchReminders_template_fails_witness :
  sendBatchReminders EmailScenarios.broken_template_deps
    (recorded_send Samples.all_answered) Samples.batch None initial_world
  = (Ok {| successful := 0;
           failed := 3;
           errors :=
             [ "Appointment apt-123: Failed to send reminder email: MJML compilation failed: boom";
               "Appointment apt-456: Failed to send reminder email: MJML compilation failed: boom";
               "Appointment apt-789: Failed to send reminder email: MJML compilation failed: boom" ] |},
     initial_world).
Proof.
  apply (sendBatchReminders_template_fails EmailScenarios.broken_template_deps
           (recorded_send Samples.all_answered) Samples.batch None initial_world
           (ErrorObj "MJML compilation failed: boom")).
  intro p. reflexivity.
Defined.

End CancellationFacts.

(* ================================================================== *)
(** * Escaping of calendar text *)
(* ================================================================== *)

Section EscapeFacts.
Import Js ICSGenerator CalendarText.

Lemma append_associative (a b c : string) : (a ++ b) ++ c = a ++ b ++ c.
Proof.
  induction a as [|x a IH]; cbn [append]; [reflexivity|].
  rewrite IH. reflexivity.
Qed.

Lemma replace_all_char_app (c : ascii) (by_ a b : string) :
  replace_all_char c by_ (a ++ b)
  = replace_all_char c by_ a ++ replace_all_char c by_ b.
Proof.
  induction a as [|x a IH]; cbn [append replace_all_char]; [reflexivity|].
  rewrite IH. destruct (Ascii.eqb x c); cbn [append].
  - rewrite append_associative. reflexivity.
  - reflexivity.
Qed.

Lemma escapeText_char (c : ascii) :
  escapeText (String c "") = escaped_char c.
Proof.
  destruct c as [[] [] [] [] [] [] [] []]; reflexivity.
Qed.

Lemma escapeText_app (a b : string) :
  escapeText (a ++ b) = escapeText a ++ escapeText b.
Proof.
  unfold escapeText. rewrite !replace_all_char_app. reflexivity.
Qed.

Lemma escapeText_cons (c : ascii) (rest : string) :
  escapeText (String c rest) = escaped_char c ++ escapeText rest.
Proof.
  change (String c rest) with (String c "" ++ rest).
  rewrite escapeText_app, escapeText_char. reflexivity.
Qed.

Lemma list_ascii_of_string_app (a b : string) :
  list_ascii_of_string (a ++ b)
  = (list_ascii_of_string a ++ list_ascii_of_string b)%list.
Proof.
  induction a as [|x a IH]; cbn; [reflexivity|]. rewrite IH. reflexivity.
Qed.

Lemma free_of_app (c : ascii) (a b : string) :
  free_of c (a ++ b) = free_of c a && free_of c b.
Proof.
  unfold free_of. rewrite list_ascii_of_string_app, forallb_app. reflexivity.
Qed.

Lemma escaped_char_one_line (c : ascii) :
  free_of CR_char (escaped_char c) = true
  /\ free_of LF_char (escaped_char c) = true.
Proof.
  destruct c as [[] [] [] [] [] [] [] []]; split; reflexivity.
Qed.

Lemma escaped_char_plain (c : ascii) :
  free_of c "\;," = true -> free_of c CRLF = true ->
  escaped_char c = String c "".
Proof.
  destruct c as [[] [] [] [] [] [] [] []]; intros H1 H2;
    try reflexivity; discriminate.
Qed.

(** X14.  [escapeText] always yields a single line: its result holds no
    carriage return and no line feed, whatever the text.  Text without
    backslash, semicolon, comma, carriage return and line feed is
    returned as it is. *)
Theorem escapeText_single_line (text : string) :
  free_of CR_char (escapeText text) = true
  /\ free_of LF_char (escapeText text) = true
  /\ (forallb (fun c => free_of c "\;," && free_of c CRLF)
        (list_ascii_of_string text) = true ->
      escapeText text = text).
Proof.
  induction text as [|c text IH].
  - repeat split.
  - rewrite escapeText_cons, !free_of_app.
    destruct IH as (I1 & I2 & I3).
    destruct (escaped_char_one_line c) as (E1 & E2).
    rewrite I1, I2, E1, E2. repeat split.
    cbn [list_ascii_of_string forallb]. intro H.
    apply andb_true_iff in H. destruct H as [Hc Hrest].
    apply andb_true_iff in Hc. destruct Hc as [Hc1 Hc2].
    rewrite (escaped_char_plain c Hc1 Hc2), (I3 Hrest). reflexivity.
Qed.

Lemma unescape_escaped (c : ascii) (rest : string) :
  Ascii.eqb c CR_char = false ->
  unescapeText (escaped_char c ++ rest) = String c (unescapeText rest).
Proof.
  destruct c as [[] [] [] [] [] [] [] []]; intro H;
    try reflexivity; discriminate.
Qed.

Lemma unescape_escapeText (text : string) :
  free_of CR_char text = true -> unescapeText (escapeText text) = text.
Proof.
  induction text as [|c text IH]; intro H; [reflexivity|].
  unfold free_of in H. cbn [list_ascii_of_string forallb] in H.
  apply andb_true_iff in H. destruct H as [Hc Hrest].
  rewrite escapeText_cons, unescape_escaped.
  - rewrite (IH Hrest). reflexivity.
  - destruct (Ascii.eqb c CR_char); [discriminate | reflexivity].
Qed.

(** X15.  On text without carriage returns [escapeText] loses nothing:
    reading the result back by the calendar rules gives the text again,
    so two such texts with the same escaped form are equal.  Carriage
    returns are dropped without a trace. *)
Theorem escapeText_round_trip (a b : string) :
  free_of CR_char a = true ->
  free_of CR_char b = true ->
  unescapeText (escapeText a) = a
  /\ (escapeText a = escapeText b -> a = b)
  /\ escapeText (a ++ String CR_char b) = escapeText (a ++ b).
Proof.
  intros Ha Hb. split; [|split].
  - apply unescape_escapeText, Ha.
  - intro E. rewrite <- (unescape_escapeText a Ha), <- (unescape_escapeText b Hb), E.
    reflexivity.
  - rewrite !escapeText_app, escapeText_cons. reflexivity.
Qed.

Lemma escapeText_round_trip_witness :
  unescapeText (escapeText "Dr. Garcia; Sala 2, piso 1\ala B")
  = "Dr. Garcia; Sala 2, piso 1\ala B".
Proof.
  apply (escapeText_round_trip "Dr. Garcia; Sala 2, piso 1\ala B" "");
    reflexivity.
Defined.

End EscapeFacts.

(* ================================================================== *)
(** * Listings and statistics *)
(* ================================================================== *)

Section ListingFacts.
Import Js Types Database Supabase AppointmentsQueries.

Variable range : Z -> Z -> list Appointment -> SqlResult (list Appointment).

Lemma in_insert_by_start (x a : Appointment) (l : list Appointment) :
  In x (insert_by_start a l) <-> x = a \/ In x l.
Proof.
  induction l as [|b l IH]; cbn [insert_by_start].
  - cbn. intuition congruence.
  - destruct (starts_at a <=? starts_at b); cbn [In] in *.
    + intuition congruence.
    + rewrite IH. intuition congruence.
Qed.

Lemma in_order_by_starts_at (x : Appointment) (l : list Appointment) :
  In x (order_by_starts_at l) <-> In x l.
Proof.
  induction l as [|a l IH]; [reflexivity|].
  change (order_by_starts_at (a :: l))
    with (insert_by_start a (order_by_starts_at l)).
  rewrite in_insert_by_start, IH. cbn. intuition congruence.
Qed.

Lemma count_insert_by_start (f : Appointment -> bool) (a : Appointment)
    (l : list Appointment) :
  List.length (filter f (insert_by_start a l))
  = List.length (filter f (a :: l)).
Proof.
  induction l as [|b l IH]; [reflexivity|].
  cbn [insert_by_start]. destruct (starts_at a <=? starts_at b); [reflexivity|].
  cbn [filter] in *. destruct (f b), (f a); cbn [List.length] in *; lia.
Qed.

Lemma count_order_by_starts_at (f : Appointment -> bool) (l : list Appointment) :
  List.length (filter f (order_by_starts_at l)) = List.length (filter f l).
Proof.
  induction l as [|a l IH]; [reflexivity|].
  change (order_by_starts_at (a :: l))
    with (insert_by_start a (order_by_starts_at l)).
  rewrite count_insert_by_start. cbn [filter].
  destruct (f a); cbn [List.length]; lia.
Qed.

Lemma length_order_by_starts_at (l : list Appointment) :
  List.length (order_by_starts_at l) = List.length l.
Proof.
  pose proof (count_order_by_starts_at (fun _ => true) l) as H.
  assert (all : forall l' : list Appointment, filter (fun _ => true) l' = l').
  { induction l' as [|b l' IH]; [reflexivity|]. cbn. rewrite IH. reflexivity. }
  rewrite !all in H. exact H.
Qed.

(** Every row has exactly one status. *)
Lemma statuses_partition (l : list Appointment) :
  List.length l
  = (count_status scheduled l + count_status confirmed l
     + count_status completed l + count_status cancelled l
     + count_status no_show l
     + (count_status in_progress l + count_status rescheduled l))%nat.
Proof.
  unfold count_status. induction l as [|a l IH]; [reflexivity|].
  cbn [filter List.length]. destruct (status a); cbn [status_eqb List.length]; lia.
Qed.

(** X16.  Statistics on a reachable database.  The rows counted are
    those of the doctor and of the patient given, an absent or empty
    identifier selecting everyone.  The five counters do not add up to
    the total: rows in progress and rescheduled rows are in the total
    and in no counter. *)
Theorem getStats_counters (sb : Backend) (doctorId patientId : option string) :
  fault sb = None ->
  let wanted (who : option string) (x : string) :=
    match who with
    | Some v => negb (truthy v) || String.eqb x v
    | None => true
    end in
  let rows :=
    filter (fun a => wanted patientId (patient_id a)
                     && wanted doctorId (doctor_id a)) (table sb) in
  exists stats,
    getStats range sb doctorId patientId = Ok stats
    /\ s_total stats = List.length rows
    /\ s_total stats
       = (s_scheduled stats + s_confirmed stats + s_completed stats
          + s_cancelled stats + s_noShow stats
          + (count_status in_progress rows + count_status rescheduled rows))%nat.
Proof.
  intros Hfault wanted rows.
  unfold getStats, listAppointments, respond. rewrite Hfault.
  cbn [f_limit f_offset AppointmentsService.data_or_throw].
  set (filters := mkFilters _ _ _ _ _ _ _).
  assert (Hrows : filter (list_query filters) (table sb) = rows).
  { unfold rows. apply filter_ext. intro a. unfold list_query, filters.
    cbn [f_patient_id f_doctor_id f_status f_date_from f_date_to].
    unfold wanted, q_eq_patient, q_eq_doctor, q_all.
    destruct patientId as [p|], doctorId as [d|]; cbn [truthy_opt];
      try (destruct (truthy p) eqn:Ep); try (destruct (truthy d) eqn:Ed);
      cbn [negb orb andb]; rewrite ?Ep, ?Ed; cbn [negb orb andb];
      rewrite ?andb_true_r; reflexivity. }
  rewrite Hrows. eexists. split; [reflexivity|].
  cbn [s_total s_scheduled s_confirmed s_completed s_cancelled s_noShow].
  unfold count_status. rewrite !count_order_by_starts_at.
  rewrite length_order_by_starts_at. split; [reflexivity|].
  apply statuses_partition.
Qed.

(** X17.  The limit of [getPatientUpcoming] has no effect: the listing
    applies a limit only together with an offset, and none is passed.
    On a reachable database every limit gives the same rows: all the
    scheduled and confirmed appointments of the patient that start at
    the current instant or later. *)
Theorem getPatientUpcoming_ignores_limit (now : Z) (sb : Backend)
    (patientId : string) :
  fault sb = None ->
  exists rows,
    (forall limit, getPatientUpcoming range now sb patientId limit = Ok (Some rows))
    /\ (forall a,
          In a rows <->
          In a (table sb)
          /\ (patientId = "" \/ patient_id a = patientId)
          /\ now <= starts_at a
          /\ (status a = scheduled \/ status a = confirmed)).
Proof.
  intro Hfault.
  exists (order_by_starts_at
            (filter (list_query
                       (mkFilters (Some patientId) None
                          (Some [scheduled; confirmed]) (Some now) None None None))
               (table sb))).
  split.
  - intro limit. unfold getPatientUpcoming, listAppointments, respond.
    rewrite Hfault. cbn [f_limit f_offset AppointmentsService.data_or_throw].
    reflexivity.
  - intro a. rewrite in_order_by_starts_at, filter_In.
    unfold list_query.
    cbn [f_patient_id f_doctor_id f_status f_date_from f_date_to List.length
         Nat.ltb Nat.leb].
    unfold q_gte_starts_at, q_in_status, q_eq_patient, q_all, truthy.
    cbn [existsb].
    destruct (String.eqb_spec patientId "") as [Hp|Hp]; cbn [negb];
      rewrite ?andb_true_iff, ?orb_true_iff, ?Z.geb_le, ?String.eqb_eq;
      rewrite ?status_eqb_eq; intuition (try discriminate).
Qed.

Lemma day_bounds (host date s : Z) :
  (s >=? setHours host date 0 0 0 0) && (s <=? setHours host date 23 59 59 999)
  = true
  <-> Clock.wall host s / Clock.MS_PER_DAY = Clock.wall host date / Clock.MS_PER_DAY.
Proof.
  unfold setHours, Clock.wall, Clock.MS_PER_DAY, Clock.MS_PER_HOUR,
    Clock.MS_PER_SECOND.
  rewrite andb_true_iff, Z.geb_le, Z.leb_le.
  generalize ((date + host) / 86400000). intro k.
  split.
  - intros [H1 H2]. symmetry. apply Z.div_unique with (r := s + host - 86400000 * k); lia.
  - intro H. subst k.
    pose proof (Z.div_mod (s + host) 86400000 ltac:(lia)).
    pose proof (Z.mod_pos_bound (s + host) 86400000 ltac:(lia)). lia.
Qed.

(** X18.  The day schedule of a doctor on a reachable database: the
    rows of that doctor (of every doctor when the identifier is empty)
    whose start falls on the same calendar day as the given date, the
    day being that of the zone the code runs in.  Cancelled rows are
    listed like the others. *)
Theorem getDoctorDaySchedule_local_day (host : Z) (sb : Backend)
    (doctorId : string) (date : Z) :
  fault sb = None ->
  exists rows,
    getDoctorDaySchedule range host sb doctorId date = Ok (Some rows)
    /\ (forall a,
          In a rows <->
          In a (table sb)
          /\ (doctorId = "" \/ doctor_id a = doctorId)
          /\ Clock.wall host (starts_at a) / Clock.MS_PER_DAY
             = Clock.wall host date / Clock.MS_PER_DAY).
Proof.
  intro Hfault. eexists. split.
  - unfold getDoctorDaySchedule, listAppointments, respond.
    rewrite Hfault. cbn [f_limit f_offset AppointmentsService.data_or_throw].
    reflexivity.
  - intro a. rewrite in_order_by_starts_at, filter_In.
    unfold list_query.
    cbn [f_patient_id f_doctor_id f_status f_date_from f_date_to].
    unfold q_gte_starts_at, q_lte_starts_at, q_eq_doctor, q_all, truthy.
    rewrite <- (day_bounds host date (starts_at a)).
    destruct (String.eqb_spec doctorId "") as [Hd|Hd]; cbn [negb andb];
      rewrite ?andb_true_iff, ?String.eqb_eq; intuition.
Qed.

End ListingFacts.

Section ListingWitness.
Import Js Types Database Supabase AppointmentsQueries.

Lemma getStats_counters_witness :
  exists stats,
    getStats range_rows Samples.healthy (Some "doctor-789") None = Ok stats
    /\ s_total stats = 1%nat.
Proof.
  destruct (getStats_counters range_rows Samples.healthy (Some "doctor-789") None
              eq_refl) as (stats & H1 & H2 & _).
  exists stats. split; [exact H1 | exact H2].
Defined.

Lemma getPatientUpcoming_ignores_limit_witness :
  exists rows,
    getPatientUpcoming range_rows Samples.t_10_00 Samples.healthy
      (patient_id Samples.appointment_X) 0 = Ok (Some rows)
    /\ getPatientUpcoming range_rows Samples.t_10_00 Samples.healthy
         (patient_id Samples.appointment_X) 10 = Ok (Some rows).
Proof.
  destruct (getPatientUpcoming_ignores_limit range_rows Samples.t_10_00
              Samples.healthy (patient_id Samples.appointment_X) eq_refl)
    as (rows & H & _).
  exists rows. split; apply H.
Defined.

Lemma getDoctorDaySchedule_local_day_witness :
  exists rows,
    getDoctorDaySchedule range_rows ZoneSamples.MINUS_3H
      Samples.healthy (doctor_id Samples.appointment_X) Samples.t_10_45
    = Ok (Some rows).
Proof.
  destruct (getDoctorDaySchedule_local_day range_rows
              ZoneSamples.MINUS_3H Samples.healthy
              (doctor_id Samples.appointment_X) Samples.t_10_45 eq_refl)
    as (rows & H & _).
  exists rows. exact H.
Defined.

End ListingWitness.

(* ================================================================== *)
(** * Time slots *)
(* ================================================================== *)

Section TimeSlotFacts.
Import Clock TimePolicy TimeSlots.

Variable host : Z.
Variable argentina : Zones.Zone.
Variable formatTimeForArgentina : Z -> string.

Local Abbreviation slot_at := (TimeSlots.slot_at host formatTimeForArgentina).
Local Abbreviation minute_loop := (TimeSlots.minute_loop host formatTimeForArgentina).
Local Abbreviation hour_loop := (TimeSlots.hour_loop host formatTimeForArgentina).
Local Abbreviation slots_of_hour := (TimeSlots.slots_of_hour host formatTimeForArgentina).

Lemma remaining_step (interval minute : Z) :
  0 < interval -> minute < 60 ->
  remaining interval minute = S (remaining interval (minute + interval)).
Proof.
  intros Hi Hm. unfold remaining.
  destruct (Z.ltb_spec minute 60); [|lia].
  destruct (Z.ltb_spec (minute + interval) 60).
  - replace (59 - minute) with (59 - (minute + interval) + 1 * interval) by lia.
    rewrite Z.div_add by lia.
    assert (0 <= (59 - (minute + interval)) / interval)
      by (apply Z.div_pos; lia).
    lia.
  - rewrite Z.div_small by lia. reflexivity.
Qed.

Lemma slots_of_hour_step (baseDate hour interval minute : Z) :
  0 < interval -> minute < 60 ->
  slots_of_hour baseDate hour interval minute
  = slot_at baseDate hour minute
    :: slots_of_hour baseDate hour interval (minute + interval).
Proof.
  intros Hi Hm. unfold TimeSlots.slots_of_hour.
  rewrite (remaining_step interval minute Hi Hm).
  cbn [seq map]. f_equal.
  - f_equal. lia.
  - rewrite <- seq_shift, map_map. apply map_ext. intro k. f_equal. lia.
Qed.

Lemma slots_of_hour_done (baseDate hour interval minute : Z) :
  60 <= minute -> slots_of_hour baseDate hour interval minute = [].
Proof.
  intro H. unfold TimeSlots.slots_of_hour, remaining.
  destruct (Z.ltb_spec minute 60); [lia | reflexivity].
Qed.

(** The inner loop, for a positive step: it ends exactly when the fuel
    exceeds its number of passes. *)
Lemma minute_loop_runs (baseDate hour interval : Z) :
  0 < interval ->
  forall (fuel : nat) (minute : Z) (slots : list TimeSlots.Slot),
    minute_loop fuel baseDate hour interval minute slots
    = if (remaining interval minute <? fuel)%nat
      then Some (slots ++ slots_of_hour baseDate hour interval minute)%list
      else None.
Proof.
  intro Hi. induction fuel as [|fuel IH]; intros minute slots.
  - cbn [TimeSlots.minute_loop]. destruct (Nat.ltb_spec (remaining interval minute) 0);
      [lia | reflexivity].
  - cbn [TimeSlots.minute_loop]. destruct (Z.ltb_spec minute 60) as [Hm|Hm].
    + rewrite IH, (remaining_step interval minute Hi Hm),
        (slots_of_hour_step baseDate hour interval minute Hi Hm).
      change (S (remaining interval (minute + interval)) <? S fuel)%nat
        with (remaining interval (minute + interval) <? fuel)%nat.
      rewrite <- app_assoc. reflexivity.
    + rewrite slots_of_hour_done by lia. rewrite app_nil_r.
      unfold remaining. destruct (Z.ltb_spec minute 60); [lia | reflexivity].
Qed.

(** The inner loop, for a step that is not positive: the minute never
    reaches 60. *)
Lemma minute_loop_never_ends (baseDate hour interval : Z) :
  interval <= 0 ->
  forall (fuel : nat) (minute : Z) (slots : list TimeSlots.Slot),
    minute < 60 ->
    minute_loop fuel baseDate hour interval minute slots = None.
Proof.
  intro Hi. induction fuel as [|fuel IH]; intros minute slots Hm;
    [reflexivity|].
  cbn [TimeSlots.minute_loop]. destruct (Z.ltb_spec minute 60); [|lia].
  apply IH. lia.
Qed.

Lemma hour_loop_runs (baseDate interval : Z) (fuel : nat) :
  0 < interval -> (remaining interval 0 < fuel)%nat ->
  forall (count : nat) (hour : Z) (slots : list TimeSlots.Slot),
    hour_loop fuel baseDate interval count hour slots
    = Some (slots
            ++ flat_map (fun i => slots_of_hour baseDate (hour + Z.of_nat i) interval 0)
                 (seq 0 count))%list.
Proof.
  intros Hi Hfuel. induction count as [|count IH]; intros hour slots.
  - cbn. rewrite app_nil_r. reflexivity.
  - cbn [TimeSlots.hour_loop]. rewrite (minute_loop_runs _ _ _ Hi).
    destruct (Nat.ltb_spec (remaining interval 0) fuel); [|lia].
    rewrite IH. cbn [seq flat_map]. rewrite <- app_assoc.
    replace (hour + Z.of_nat 0) with hour by lia.
    rewrite <- seq_shift, (flat_map_concat_map _ (map S _)), map_map,
      <- flat_map_concat_map.
    do 3 f_equal. apply flat_map_ext. intro i. f_equal. lia.
Qed.

Lemma hour_loop_none (baseDate interval : Z) (fuel : nat) :
  0 < interval ->
  forall (count : nat) (hour : Z) (slots : list TimeSlots.Slot),
    (fuel <= remaining interval 0)%nat -> (0 < count)%nat ->
    hour_loop fuel baseDate interval count hour slots = None.
Proof.
  intros Hi count hour slots Hfuel Hc. destruct count as [|count]; [lia|].
  cbn [TimeSlots.hour_loop]. rewrite (minute_loop_runs _ _ _ Hi).
  destruct (Nat.ltb_spec (remaining interval 0) fuel); [lia | reflexivity].
Qed.

Lemma length_slots_of_hour (baseDate hour interval minute : Z) :
  List.length (slots_of_hour baseDate hour interval minute)
  = remaining interval minute.
Proof. unfold TimeSlots.slots_of_hour. rewrite length_map, length_seq. reflexivity. Qed.

Lemma length_flat_map_const {A B} (f : A -> list B) (n : nat) (l : list A) :
  (forall a, List.length (f a) = n) ->
  List.length (flat_map f l) = (List.length l * n)%nat.
Proof.
  intro H. induction l as [|a l IH]; [reflexivity|].
  cbn [flat_map List.length]. rewrite length_app, H, IH. lia.
Qed.

Lemma remaining_bound (interval : Z) :
  0 < interval -> (remaining interval 0 <= 60)%nat.
Proof.
  intro Hi. unfold remaining. cbn [Z.ltb Z.compare].
  assert ((59 - 0) / interval <= 59).
  { apply Z.div_le_upper_bound; nia. }
  assert (0 <= (59 - 0) / interval) by (apply Z.div_pos; lia).
  lia.
Qed.

(** X19.  With a positive interval (whole numbers), [generateTimeSlots]
    returns once the inner loop is allowed its passes, at most 60 an
    hour.  It yields, for each hour from the first to the one before
    the end and in that order, the slots at minutes 0, interval,
    2 x interval, …, below 60: (endHour - startHour) x
    (59 / interval + 1) slots in all, none when the end hour is not
    after the start hour. *)
Theorem generateTimeSlots_slots (fuel : nat) (date startHour endHour interval : Z) :
  0 < interval -> (60 < fuel)%nat ->
  let baseDate :=
    AppointmentsQueries.setHours host
      (toArgentinaTimezone (Zones.fixed host) argentina date) 0 0 0 0 in
  exists slots,
    generateTimeSlots host argentina formatTimeForArgentina fuel date
      startHour endHour interval
    = Some slots
    /\ slots
       = flat_map
           (fun i =>
              map (fun k => slot_at baseDate (startHour + Z.of_nat i)
                              (Z.of_nat k * interval))
                (seq 0 (Z.to_nat (59 / interval + 1))))
           (seq 0 (Z.to_nat (endHour - startHour)))
    /\ List.length slots
       = (Z.to_nat (endHour - startHour) * Z.to_nat (59 / interval + 1))%nat.
Proof.
  intros Hi Hfuel baseDate.
  pose proof (remaining_bound interval Hi) as Hb.
  unfold generateTimeSlots. fold baseDate.
  rewrite (hour_loop_runs baseDate interval fuel Hi) by lia.
  eexists. split; [reflexivity|]. cbn [app]. split.
  - reflexivity.
  - rewrite (length_flat_map_const _ (remaining interval 0)).
    + rewrite length_seq. reflexivity.
    + intro i. apply length_slots_of_hour.
Qed.

(** X20.  With an interval of zero or less and at least one hour to
    cover, [generateTimeSlots] never returns: the minute of the inner
    loop stays below 60, however many passes are allowed. *)
Theorem generateTimeSlots_never_returns (fuel : nat)
    (date startHour endHour interval : Z) :
  interval <= 0 -> startHour < endHour ->
  generateTimeSlots host argentina formatTimeForArgentina fuel date
    startHour endHour interval
  = None.
Proof.
  intros Hi Hh. unfold generateTimeSlots.
  destruct (Z.to_nat (endHour - startHour)) as [|count] eqn:E; [lia|].
  cbn [TimeSlots.hour_loop].
  rewrite (minute_loop_never_ends _ _ _ Hi) by lia. reflexivity.
Qed.

End TimeSlotFacts.

Section TimeSlotZones.
Import Clock Zones TimePolicy TimeSlots.

(** The hour of a slot on Argentina's clock, for a host at [host]:
    the hour asked for, moved by the difference between Argentina's
    offset at the slot and the host's. *)
Lemma slot_argentina_hour (argentina : Zone) (host date hour minute : Z) :
  let slot := AppointmentsQueries.setHours host date hour minute 0 0 in
  hours_of (local_time argentina slot)
  = hours_of (hour * MS_PER_HOUR + minute * 60000
              + (offset_at argentina slot - host)).
Proof.
  cbv zeta. unfold local_time.
  generalize (offset_at argentina
                (AppointmentsQueries.setHours host date hour minute 0 0)).
  intro o.
  unfold AppointmentsQueries.setHours, hours_of, wall, MS_PER_DAY,
    MS_PER_HOUR, MS_PER_SECOND.
  generalize ((date + host) / 86400000). intro k.
  replace (86400000 * k + hour * 3600000 + minute * 60000 + 0 * 1000 + 0 - host
           + o)
    with (hour * 3600000 + minute * 60000 + (o - host)
          + (k * 24) * 3600000) by lia.
  rewrite Z.div_add by lia.
  rewrite Z.add_mod by lia. rewrite Z.mod_mul by lia.
  rewrite Z.add_0_r. rewrite Z.mod_mod by lia. reflexivity.
Qed.

Lemma in_generated_slots (host : Z) (argentina : Zone) (fmt : Z -> string)
    (fuel : nat) (date startHour endHour interval : Z) (slots : list Slot)
    (s : Slot) :
  0 < interval ->
  generateTimeSlots host argentina fmt fuel date startHour endHour interval
  = Some slots ->
  In s slots ->
  exists hour minute,
    startHour <= hour < endHour /\ 0 <= minute < 60
    /\ value s
       = AppointmentsQueries.setHours host
           (AppointmentsQueries.setHours host
              (toArgentinaTimezone (fixed host) argentina date) 0 0 0 0)
           hour minute 0 0.
Proof.
  intros Hi Hgen Hs. unfold generateTimeSlots in Hgen.
  destruct (Nat.ltb_spec (remaining interval 0) fuel) as [Hf|Hf].
  - rewrite (hour_loop_runs host fmt _ interval fuel Hi Hf) in Hgen.
    injection Hgen as <-. cbn [app] in Hs.
    apply in_flat_map in Hs. destruct Hs as (i & Hin & Hs).
    unfold TimeSlots.slots_of_hour in Hs. apply in_map_iff in Hs.
    destruct Hs as (k & <- & Hk).
    apply in_seq in Hin. apply in_seq in Hk.
    exists (startHour + Z.of_nat i), (0 + Z.of_nat k * interval).
    unfold remaining in Hk. cbn [Z.ltb Z.compare] in Hk.
    assert (0 <= (59 - 0) / interval) by (apply Z.div_pos; lia).
    pose proof (Z.mul_div_le (59 - 0) interval Hi).
    split; [lia|]. split; [nia | reflexivity].
  - destruct (Z.to_nat (endHour - startHour)) as [|count] eqn:E.
    + injection Hgen as <-. destruct Hs.
    + rewrite (hour_loop_none host fmt _ interval fuel Hi) in Hgen;
        [discriminate | exact Hf | lia].
Qed.

(** X21.  On a host at a fixed offset, when Argentina's offset at every
    slot generated is the host's (the host keeps Argentina's time on
    that day), every slot [generateTimeSlots] yields for hours within 8
    to 20 is accepted by [isValidMedicalHour], on whatever host without
    zone changes that check runs. *)
Theorem generated_slots_are_medical_hours (host checker : Z) (argentina : Zone)
    (fmt : Z -> string) (fuel : nat) (date startHour endHour interval : Z)
    (slots : list Slot) :
  0 < interval -> 8 <= startHour -> endHour <= 20 ->
  generateTimeSlots host argentina fmt fuel date startHour endHour interval
  = Some slots ->
  (forall s, In s slots -> offset_at argentina (value s) = host) ->
  forallb (fun s => isValidMedicalHour (fixed checker) argentina (value s)) slots
  = true.
Proof.
  intros Hi Hs He Hgen Hoff. apply forallb_forall. intros s Hin.
  pose proof (Hoff s Hin) as Ho.
  destruct (in_generated_slots _ _ _ _ _ _ _ _ _ s Hi Hgen Hin)
    as (hour & minute & Hh & Hm & Hv).
  apply isValidMedicalHour_local_hour. rewrite Hv in *.
  rewrite slot_argentina_hour. rewrite Ho.
  unfold hours_of, MS_PER_HOUR. rewrite Z.sub_diag, Z.add_0_r.
  rewrite Z.div_add_l by lia. rewrite (Z.div_small (minute * 60000)) by lia.
  rewrite Z.add_0_r, Z.mod_small by lia. lia.
Qed.

Lemma generated_slots_are_medical_hours_witness :
  exists slots,
    generateTimeSlots ZoneSamples.MINUS_3H ZoneSamples.buenos_aires
      (fun _ => "08:00") 61 Samples.t_10_00 8 20 30 = Some slots
    /\ List.length slots = 24%nat
    /\ forallb (fun s => isValidMedicalHour (fixed 0) ZoneSamples.buenos_aires
                           (value s)) slots = true.
Proof.
  eexists. split; [vm_compute; reflexivity|]. split; [reflexivity|].
  apply (generated_slots_are_medical_hours ZoneSamples.MINUS_3H 0
           ZoneSamples.buenos_aires (fun _ => "08:00") 61
           Samples.t_10_00 8 20 30); [lia | lia | lia | |].
  - vm_compute. reflexivity.
  - intros s Hs.
    assert (Hall : forallb (fun s => offset_at ZoneSamples.buenos_aires (value s)
                                     =? ZoneSamples.MINUS_3H)
                     (match generateTimeSlots ZoneSamples.MINUS_3H
                              ZoneSamples.buenos_aires (fun _ => "08:00") 61
                              Samples.t_10_00 8 20 30 with
                      | Some l => l | None => [] end) = true)
      by (vm_compute; reflexivity).
    apply Z.eqb_eq. revert s Hs. apply forallb_forall. exact Hall.
Defined.

(** In January 2008 Buenos Aires was at UTC-02:00: a host fixed at
    UTC-03:00 builds its last slots after 20:00 in Buenos Aires, and
    they are refused. *)
Example generated_slots_summer_2008 :
  exists slots,
    generateTimeSlots ZoneSamples.MINUS_3H ZoneSamples.buenos_aires
      (fun _ => "08:00") 61 ZoneSamples.summer_2008_morning 8 20 30 = Some slots
    /\ map (fun s => isValidMedicalHour (fixed 0) ZoneSamples.buenos_aires (value s))
         (skipn 20 slots)
       = [true; true; false; false].
Proof.
  eexists. split; [vm_compute; reflexivity|]. vm_compute. reflexivity.
Qed.

(** X22.  On a host at a fixed offset, a slot for hour h and minute m
    is accepted by [isValidMedicalHour] exactly when h:m, moved by the
    difference between Argentina's offset at the slot and the host's,
    falls in hours 8 to 19.  On a host on universal time: while
    Argentina is at UTC-03:00 the slots of hours 11 to 22 are accepted
    and the others refused; while it is at UTC-02:00, those of hours 10
    to 21. *)
Theorem slot_medical_hour_depends_on_host (host checker : Z) (argentina : Zone)
    (fmt : Z -> string) (baseDate hour minute : Z) :
  let slot := slot_at host fmt baseDate hour minute in
  (isValidMedicalHour (fixed checker) argentina (value slot) = true
   <-> 8 <= hours_of (hour * MS_PER_HOUR + minute * 60000
                      + (offset_at argentina (value slot) - host)) < 20)
  /\ (host = 0 -> 0 <= hour < 24 -> 0 <= minute < 60 ->
      (offset_at argentina (value slot) = -10800000 ->
       (isValidMedicalHour (fixed checker) argentina (value slot) = true
        <-> 11 <= hour <= 22))
      /\ (offset_at argentina (value slot) = -7200000 ->
          (isValidMedicalHour (fixed checker) argentina (value slot) = true
           <-> 10 <= hour <= 21))).
Proof.
  cbv zeta.
  assert (Hgen : isValidMedicalHour (fixed checker) argentina
                   (value (slot_at host fmt baseDate hour minute)) = true
                 <-> 8 <= hours_of (hour * MS_PER_HOUR + minute * 60000
                        + (offset_at argentina
                             (value (slot_at host fmt baseDate hour minute))
                           - host)) < 20).
  { rewrite isValidMedicalHour_local_hour. cbn [slot_at value].
    rewrite slot_argentina_hour. reflexivity. }
  split; [exact Hgen|].
  intros -> Hh Hm. split; intro Ho; rewrite Hgen, Ho;
    unfold hours_of, MS_PER_HOUR.
  - replace (hour * 3600000 + minute * 60000 + (-10800000 - 0))
      with (minute * 60000 + (hour - 3) * 3600000) by lia.
    rewrite Z.div_add by lia. rewrite (Z.div_small (minute * 60000)) by lia.
    rewrite Z.add_0_l.
    destruct (Z.lt_ge_cases hour 3).
    + replace (hour - 3) with (hour + 21 + (-1) * 24) by lia.
      rewrite Z.mod_add by lia. rewrite Z.mod_small by lia. lia.
    + rewrite Z.mod_small by lia. lia.
  - replace (hour * 3600000 + minute * 60000 + (-7200000 - 0))
      with (minute * 60000 + (hour - 2) * 3600000) by lia.
    rewrite Z.div_add by lia. rewrite (Z.div_small (minute * 60000)) by lia.
    rewrite Z.add_0_l.
    destruct (Z.lt_ge_cases hour 2).
    + replace (hour - 2) with (hour + 22 + (-1) * 24) by lia.
      rewrite Z.mod_add by lia. rewrite Z.mod_small by lia. lia.
    + rewrite Z.mod_small by lia. lia.
Qed.

Lemma generateTimeSlots_slots_witness :
  exists slots,
    generateTimeSlots 0 ZoneSamples.buenos_aires (fun _ => "08:00") 61
      Samples.t_10_00 8 20 30 = Some slots
    /\ List.length slots = 24%nat.
Proof.
  destruct (generateTimeSlots_slots 0 ZoneSamples.buenos_aires (fun _ => "08:00")
              61 Samples.t_10_00 8 20 30)
    as (slots & H & _ & L); [lia | lia |].
  exists slots. split; [exact H | exact L].
Defined.

Lemma generateTimeSlots_never_returns_witness :
  generateTimeSlots 0 ZoneSamples.buenos_aires (fun _ => "08:00") 1000
    Samples.t_10_00 8 20 0 = None.
Proof.
  apply (generateTimeSlots_never_returns 0 ZoneSamples.buenos_aires
           (fun _ => "08:00") 1000 Samples.t_10_00 8 20 0); lia.
Defined.

End TimeSlotZones.

(* ================================================================== *)
(** * The service's create *)
(* ================================================================== *)

Section ServiceCreateFacts.
Import Js Types Database Supabase Constraints Requests Booking.

Lemma tstzrange_bounded (lo hi : Z) :
  lo < hi -> tstzrange lo hi = SqlOk (Bounded lo hi).
Proof.
  intro H. unfold tstzrange.
  destruct (Z.gtb_spec lo hi); [lia|].
  destruct (Z.eqb_spec lo hi); [lia | reflexivity].
Qed.

Lemma tstzrange_reversed (lo hi : Z) :
  hi < lo ->
  tstzrange lo hi
  = SqlError "range lower bound must be less than or equal to range upper bound".
Proof.
  intro H. unfold tstzrange. destruct (Z.gtb_spec lo hi); [reflexivity | lia].
Qed.

Lemma procedure_finds_overlap (t : Table) (d : string) (lo hi : Z) :
  existsb (fun a => String.eqb (doctor_id a) d
                    && range_overlaps (Bounded lo hi) (slot a)) t = true
  <-> exists b, In b t /\ doctor_id b = d /\ meets b lo hi.
Proof.
  rewrite existsb_exists. unfold slot, range_overlaps, meets.
  split; intros (b & Hb & H); exists b; (split; [exact Hb|]).
  - apply andb_true_iff in H. destruct H as [H1 H2].
    apply andb_true_iff in H2. rewrite String.eqb_eq in H1.
    rewrite !Z.ltb_lt in H2. tauto.
  - rewrite !andb_true_iff, String.eqb_eq, !Z.ltb_lt. tauto.
Qed.

Lemma empty_range_meets_nothing (t : Table) (d : string) :
  existsb (fun a => String.eqb (doctor_id a) d
                    && range_overlaps EmptyRange (slot a)) t = false.
Proof.
  induction t as [|a t IH]; [reflexivity|].
  cbn [existsb range_overlaps]. rewrite andb_false_r. exact IH.
Qed.

(** The service's create on a storage that answers, for a range that
    ends after it starts. *)
Lemma service_create_healthy (now : Z) (new_id : string) (t : Table)
    (input : CreateAppointmentInput) :
  ci_starts_at input < ci_ends_at input ->
  AppointmentsService.createAppointmentSafe now new_id (mkBackend t None) input
  = if existsb (fun a => String.eqb (doctor_id a) (ci_doctor_id input)
                         && range_overlaps
                              (Bounded (ci_starts_at input) (ci_ends_at input))
                              (slot a)) t
    then (Throw (ErrorObj
            "Conflicto de horario: el médico ya tiene una cita en ese horario"),
          mkBackend t None)
    else match insert_row t (new_row now new_id input) with
         | SqlOk t' => (Ok (Some new_id), mkBackend t' None)
         | SqlError m =>
             (if includes "OVERLAP" m
              then Throw (ErrorObj
                     "Conflicto de horario: el médico ya tiene una cita en ese horario")
              else Throw (ErrorObj ("Error creando cita: " ++ m)),
              mkBackend t None)
         end.
Proof.
  intro Hse.
  unfold AppointmentsService.createAppointmentSafe, perform.
  cbn [fault table]. unfold create_appointment_safe.
  rewrite (tstzrange_bounded _ _ Hse).
  destruct (existsb _ t); [reflexivity|].
  match goal with |- context [insert_row t ?row] =>
    change row with (new_row now new_id input) end.
  destruct (insert_row t (new_row now new_id input)); reflexivity.
Qed.

(** X23.  The service's [createAppointmentSafe] on a storage that
    answers.  It succeeds exactly when the hook's create does: the uuid
    is new, the range ends after it starts and no appointment of the
    doctor, whatever its status, meets the range; it then returns the
    new id and appends the row.  Otherwise it throws and stores
    nothing: "Conflicto de horario: …" when the range is proper and an
    appointment of the doctor meets it, "Error creando cita: range
    lower bound …" when the range is reversed. *)
Theorem createAppointmentSafe_outcomes
    (now : Z) (new_id : string) (t : Table) (input : CreateAppointmentInput) :
  let res :=
    AppointmentsService.createAppointmentSafe now new_id (mkBackend t None) input in
  let free :=
    ~ In new_id (map id t)
    /\ ci_starts_at input < ci_ends_at input
    /\ (forall b, In b t -> doctor_id b = ci_doctor_id input ->
                  ~ meets b (ci_starts_at input) (ci_ends_at input)) in
  (rejected (fst res) = false <-> free)
  /\ (free ->
      res = (Ok (Some new_id),
             mkBackend (t ++ [new_row now new_id input])%list None))
  /\ (rejected (fst res) = true -> snd res = mkBackend t None)
  /\ (ci_starts_at input < ci_ends_at input ->
      (exists b, In b t /\ doctor_id b = ci_doctor_id input
                 /\ meets b (ci_starts_at input) (ci_ends_at input)) ->
      fst res = Throw (ErrorObj
                  "Conflicto de horario: el médico ya tiene una cita en ese horario"))
  /\ (ci_ends_at input < ci_starts_at input ->
      fst res = Throw (ErrorObj
                  "Error creando cita: range lower bound must be less than or equal to range upper bound")).
Proof.
  cbv zeta.
  pose proof (insert_row_ok t (new_row now new_id input)) as Hins.
  cbn [id starts_at ends_at doctor_id new_row] in Hins.
  assert (Hfree :
    ~ In new_id (map id t)
    /\ ci_starts_at input < ci_ends_at input
    /\ (forall b, In b t -> doctor_id b = ci_doctor_id input ->
                  ~ meets b (ci_starts_at input) (ci_ends_at input)) ->
    AppointmentsService.createAppointmentSafe now new_id (mkBackend t None) input
    = (Ok (Some new_id), mkBackend (t ++ [new_row now new_id input])%list None)).
  { intro H. pose proof H as (_ & Hse & Hno).
    rewrite (service_create_healthy _ _ _ _ Hse).
    destruct (existsb _ t) eqn:E.
    - apply procedure_finds_overlap in E. destruct E as (b & Hb & Hd & Hm).
      exfalso. exact (Hno b Hb Hd Hm).
    - apply Hins in H. destruct H as [t' Et]. rewrite Et.
      apply insert_row_value in Et. subst t'. reflexivity. }
  assert (Hrej :
    rejected (fst (AppointmentsService.createAppointmentSafe now new_id
                     (mkBackend t None) input)) = false ->
    ~ In new_id (map id t)
    /\ ci_starts_at input < ci_ends_at input
    /\ (forall b, In b t -> doctor_id b = ci_doctor_id input ->
                  ~ meets b (ci_starts_at input) (ci_ends_at input))).
  { destruct (Z.lt_ge_cases (ci_starts_at input) (ci_ends_at input)) as [Hse|Hse].
    - rewrite (service_create_healthy _ _ _ _ Hse).
      destruct (existsb _ t); [discriminate|].
      destruct (insert_row t (new_row now new_id input)) as [t'|m] eqn:Et.
      + intros _. apply Hins. exists t'. reflexivity.
      + cbn [fst]. destruct (includes "OVERLAP" m); discriminate.
    - unfold AppointmentsService.createAppointmentSafe, perform.
      cbn [fault table]. unfold create_appointment_safe, tstzrange.
      destruct (Z.gtb_spec (ci_starts_at input) (ci_ends_at input)).
      + cbn. intro; discriminate.
      + destruct (Z.eqb_spec (ci_starts_at input) (ci_ends_at input)); [|lia].
        rewrite empty_range_meets_nothing.
        unfold insert_row.
        rewrite slot_error_none by (cbn [starts_at ends_at]; lia).
        unfold row_check. cbn [starts_at ends_at].
        destruct (Z.gtb_spec (ci_ends_at input) (ci_starts_at input)); [lia|].
        cbn [negb].
        destruct (includes "OVERLAP" check_violation); cbn; intro; discriminate. }
  split; [|split; [|split; [|split]]].
  - split; [exact Hrej|]. intro H. rewrite (Hfree H). reflexivity.
  - exact Hfree.
  - unfold AppointmentsService.createAppointmentSafe, perform.
    cbn [fault table].
    destruct (create_appointment_safe _ _ _ _ _ _ _ _ _) as [[t' a]|m];
      [discriminate|].
    intros _. reflexivity.
  - intros Hse Hb. rewrite (service_create_healthy _ _ _ _ Hse).
    apply procedure_finds_overlap in Hb. rewrite Hb. reflexivity.
  - intro Hrev.
    unfold AppointmentsService.createAppointmentSafe, perform.
    cbn [fault table]. unfold create_appointment_safe.
    rewrite (tstzrange_reversed _ _ Hrev). reflexivity.
Qed.

End ServiceCreateFacts.

(* ================================================================== *)
(** * The hook's update and delete *)
(* ================================================================== *)

Section HookEdgeFacts.
Import Js Types Database Supabase.

(** X24.  The hook's [updateAppointment] looks the appointment up in the
    list it fetched last, not in the storage.  A change of times for an
    id that list does not hold throws "Cita no encontrada" and sends
    nothing, whatever the storage holds; a change that leaves both
    times alone never reads the list. *)
Theorem hook_update_reads_fetched_list
    (now : Z) (appointments : list Appointment) (sb : Backend) (x : string)
    (input : UpdateAppointmentInput) :
  (Hooks.is_some (ui_starts_at input) || Hooks.is_some (ui_ends_at input) = true ->
   List.find (has_id x) appointments = None ->
   Hooks.updateAppointment now appointments sb x input
   = (Throw (ErrorObj "Cita no encontrada"), sb))
  /\ (ui_starts_at input = None -> ui_ends_at input = None ->
      forall others : list Appointment,
        Hooks.updateAppointment now appointments sb x input
        = Hooks.updateAppointment now others sb x input).
Proof.
  split.
  - intros Htimes Hfind. unfold Hooks.updateAppointment.
    rewrite Htimes, Hfind. reflexivity.
  - intros Hs He others. unfold Hooks.updateAppointment.
    rewrite Hs, He. reflexivity.
Qed.

Lemma without_id_absent (x : string) (t : Table) :
  ~ In x (map id t) -> without_id x t = t.
Proof.
  intro H. unfold without_id. induction t as [|a t IH]; [reflexivity|].
  cbn [filter]. cbn [map In] in H. unfold has_id at 1.
  destruct (String.eqb_spec (id a) x) as [E|E].
  - exfalso. apply H. left. exact E.
  - cbn [negb]. rewrite IH by tauto. reflexivity.
Qed.

(** X25.  The hook's [deleteAppointment] on a storage that answers
    always succeeds.  It removes the rows with the id given and no
    other; for an id the table does not hold it changes nothing and
    reports no error; deleting again changes nothing more. *)
Theorem hook_delete_is_idempotent (t : Table) (x : string) :
  let after := snd (Hooks.deleteAppointment (mkBackend t None) x) in
  fst (Hooks.deleteAppointment (mkBackend t None) x) = Ok tt
  /\ fault after = None
  /\ (forall a, In a (table after) <-> In a t /\ id a <> x)
  /\ (~ In x (map id t) -> table after = t)
  /\ Hooks.deleteAppointment after x = (Ok tt, after).
Proof.
  cbv zeta. unfold Hooks.deleteAppointment, perform. cbn [fault table fst snd].
  split; [reflexivity|]. split; [reflexivity|]. split; [|split].
  - intro a. unfold delete_row. apply in_without_id.
  - intro H. unfold delete_row. apply without_id_absent, H.
  - unfold delete_row, without_id. rewrite filter_filter.
    f_equal. f_equal. apply filter_ext. intro a.
    destruct (negb (has_id x a)); reflexivity.
Qed.

End HookEdgeFacts.

(* ================================================================== *)
(** * Reminders through the retrying service *)
(* ================================================================== *)

Section RemindersWithRetries.
Import Js Types Email AppointmentEmails.

Variable deps : Deps.
Variable svc : EmailService.
Variable outcomes : Outcomes.
Variable e : Thrown.
Hypothesis provider_is_recorded : cfg_provider svc = recorded_send outcomes.
Hypothesis transport_down : forall k m, outcomes k m = Throw e.
Hypothesis template_renders : forall p, exists html, reminderTemplate deps p = Ok html.

(** What the service reports after its last attempt. *)
Local Abbreviation gave_up :=
  (exhausted_message svc
     (match cfg_retryAttempts svc with O => None | S _ => Some e end)).

Lemma reminder_over_failing_transport (options : ReminderEmailOptions) (w : World) :
  exists msg,
    sendReminderEmail deps (send svc) options w
    = (Throw (ErrorObj ("Failed to send reminder email: " ++ gave_up)),
       mkWorld (calls w ++ repeat msg (cfg_retryAttempts svc))
               (sleeps w ++ waits_from svc 1 (cfg_retryAttempts svc - 1))).
Proof.
  unfold sendReminderEmail, try_catch, bind, lift.
  match goal with |- context [reminderTemplate deps ?p] =>
    destruct (template_renders p) as [html Hh]; rewrite Hh end.
  unfold send.
  match goal with |- context [send_loop svc ?n _ _ _ w] => exists n;
    rewrite (send_loop_exhausted svc outcomes provider_is_recorded n
               (cfg_retryAttempts svc) 1 None w (fun _ => e))
      by (try reflexivity; intros; apply transport_down) end.
  unfold throw. cbn [message_or]. reflexivity.
Qed.

Lemma batch_over_failing_transport (commonOptions : PartialEmailOptions) :
  forall (items : list BatchItem) (results : BatchResult) (w : World),
    exists w',
      batch_loop deps (send svc) commonOptions items results w
      = (Ok {| successful := successful results;
               failed := (failed results + List.length items)%nat;
               errors :=
                 List.app (errors results)
                   (map (fun item =>
                           "Appointment " ++ id (item_appointment item)
                             ++ ": Failed to send reminder email: " ++ gave_up)
                      items) |},
         w')
      /\ List.length (calls w')
         = (List.length (calls w)
            + cfg_retryAttempts svc * List.length items)%nat
      /\ sleeps w'
         = (sleeps w
            ++ List.concat (repeat (waits_from svc 1 (cfg_retryAttempts svc - 1))
                         (List.length items)))%list.
Proof.
  induction items as [|item rest IH]; intros results w.
  - exists w. cbn. rewrite Nat.add_0_r, Nat.mul_0_r, Nat.add_0_r, !app_nil_r.
    destruct results; auto.
  - cbn [batch_loop]. unfold bind at 1. unfold try_catch at 1. unfold bind at 1.
    destruct (reminder_over_failing_transport (merge_options item commonOptions) w)
      as [msg Hsend].
    rewrite Hsend. unfold ret at 1.
    destruct (IH (count_failure item
                    (ErrorObj ("Failed to send reminder email: " ++ gave_up)) results)
                 (mkWorld (calls w ++ repeat msg (cfg_retryAttempts svc))
                    (sleeps w ++ waits_from svc 1 (cfg_retryAttempts svc - 1))))
      as (w' & Hrun & Hcalls & Hsleeps).
    exists w'. rewrite Hrun. split; [|split].
    + cbn [count_failure successful failed errors List.length map error_entry
           message_or].
      rewrite <- app_assoc, Nat.add_succ_r. reflexivity.
    + rewrite Hcalls. cbn [calls List.length].
      rewrite length_app, repeat_length. lia.
    + rewrite Hsleeps. cbn [sleeps List.length repeat List.concat].
      rewrite <- app_assoc. reflexivity.
Qed.

End RemindersWithRetries.

Section RemindersWithRetriesSummary.
Import Js Types Email AppointmentEmails.

(** X26.  A batch of reminders sent through the retrying service while
    the transport refuses every call (the template renders).  The batch
    still resolves: nothing is successful, every item is failed, and
    each error reads "Appointment <id>: Failed to send reminder email:
    Failed to send email after N attempts: <message>".  The transport
    is called N times for each item, and between the calls of one item
    the service waits d, 2d, …, (N-1)d. *)
Theorem sendBatchReminders_with_retries
    (deps : Deps) (svc : EmailService) (outcomes : Outcomes) (e : Thrown)
    (items : list BatchItem) (commonOptions : option PartialEmailOptions)
    (w : World) :
  cfg_provider svc = recorded_send outcomes ->
  (forall k m, outcomes k m = Throw e) ->
  (forall p, exists html, reminderTemplate deps p = Ok html) ->
  let res := sendBatchReminders deps (send svc) items commonOptions w in
  fst res
  = Ok {| successful := 0;
          failed := List.length items;
          errors :=
            map (fun item =>
                   "Appointment " ++ id (item_appointment item)
                     ++ ": Failed to send reminder email: "
                     ++ "Failed to send email after "
                     ++ string_of_nat (cfg_retryAttempts svc) ++ " attempts: "
                     ++ optional_message
                          (match cfg_retryAttempts svc with
                           | O => None
                           | S _ => Some e
                           end)) items |}
  /\ List.length (calls (snd res))
     = (List.length (calls w) + cfg_retryAttempts svc * List.length items)%nat
  /\ sleeps (snd res)
     = (sleeps w
        ++ List.concat (repeat (map (fun i => cfg_retryDelayMs svc * Z.of_nat i)
                             (seq 1 (cfg_retryAttempts svc - 1)))
                     (List.length items)))%list.
Proof.
  intros Hp Hdown Hrender res. unfold res, sendBatchReminders.
  destruct (batch_over_failing_transport deps svc outcomes e Hp Hdown Hrender
              (match commonOptions with Some c => c | None => no_common_options end)
              items (mkBatchResult 0 0 []) w)
    as (w' & Hrun & Hcalls & Hsleeps).
  rewrite Hrun. cbn [fst snd]. split; [reflexivity|]. split; assumption.
Qed.

Lemma sendBatchReminders_with_retries_witness :
  let res :=
    sendBatchReminders Samples.plain_deps
      (send (Samples.default_service Samples.always_failing))
      Samples.batch None initial_world in
  List.length (calls (snd res)) = 9%nat
  /\ sleeps (snd res) = [1000; 2000; 1000; 2000; 1000; 2000].
Proof.
  cbv zeta.
  destruct (sendBatchReminders_with_retries Samples.plain_deps
              (Samples.default_service Samples.always_failing)
              Samples.always_failing (ErrorObj "Provider error")
              Samples.batch None initial_world)
    as (_ & Hcalls & Hsleeps).
  - reflexivity.
  - intros k m. reflexivity.
  - intro p. eexists. reflexivity.
  - split; [exact Hcalls | exact Hsleeps].
Defined.

End RemindersWithRetriesSummary.
